(** * Roblox experience stats scraper: the reconciliation pipeline of [src/main.js]

    A shallow embedding of the functions of [main.js] that decide what a
    canonical record contains: [extractIdsFromUrl], [parseEmbeddedJson],
    the two API lookups, [normalizeRecord] and the two request handlers.

    - JavaScript values are the inductive [JsVal]; objects are association
      lists of own properties in insertion order.
    - Code that can throw lives in the error monad [Result]; [try_catch]
      is the source's [try { } catch (e) { }].
    - The handlers are [async] functions whose awaits run one after the
      other; they live in [M], which adds the list of observable events
      (calls of the functions of [main.js], log lines, sink writes).
    - What the platform provides ([URL], [JSON.parse], [fetch], the clock,
      the dataset and the key-value store, the crawler's page objects) is
      the record [Host]: every theorem holds for every host. *)

From Stdlib Require Import String Ascii List ZArith Bool Lia DecimalString.
Import ListNotations.
Open Scope list_scope.
Open Scope string_scope.

(** ** Exceptions and the error monad *)

Inductive Exn : Type :=
| TypeError (msg : string)
| SyntaxError (msg : string)
| HostError (msg : string).

Inductive Result (A : Type) : Type :=
| Ok (a : A)
| Throw (e : Exn).
Arguments Ok {A} a.
Arguments Throw {A} e.

Definition rbind {A B} (m : Result A) (f : A -> Result B) : Result B :=
  match m with
  | Ok a => f a
  | Throw e => Throw e
  end.

Definition try_catch {A} (body : Result A) (handler : Exn -> Result A) : Result A :=
  match body with
  | Ok a => Ok a
  | Throw e => handler e
  end.

Declare Scope result_scope.
Delimit Scope result_scope with result.
Notation "x <- m ;; k" := (rbind m (fun x => k))
  (at level 61, m at next level, right associativity) : result_scope.

(** ** JavaScript values *)

#[local] Set Warnings "-register-all".
Inductive JsVal : Type :=
| JUndef
| JNull
| JBool (b : bool)
| JNum (z : Z)
| JStr (s : string)
| JArr (items : list JsVal)
| JObj (props : list (string * JsVal)).

(** Numbers reach this program from JSON documents and are counts, ids and
    prices; they are modelled as integers, [JNum z] being the Number a
    literal of [z] denotes.  Fractional numbers, NaN and the infinities are
    not values of [JsVal]: for the tests of [main.js] ([||], [&&], [?:]) a
    fractional number behaves as a non-zero integer, but its text
    ([to_string]) is outside this model. *)

Definition Props := list (string * JsVal).

(** [ToBoolean]: what [||], [&&], [!], [?:] and [if] test. *)
Definition truthy (v : JsVal) : bool :=
  match v with
  | JUndef | JNull => false
  | JBool b => b
  | JNum z => negb (Z.eqb z 0)
  | JStr s => negb (String.eqb s "")
  | JArr _ | JObj _ => true
  end.

Fixpoint lookup (k : string) (ps : Props) : option JsVal :=
  match ps with
  | [] => None
  | (k', v) :: ps' => if String.eqb k k' then Some v else lookup k ps'
  end.

(** Writing a property: an existing key keeps its place, a new key goes last. *)
Fixpoint set_prop (k : string) (v : JsVal) (ps : Props) : Props :=
  match ps with
  | [] => [(k, v)]
  | (k', v') :: ps' =>
      if String.eqb k k' then (k, v) :: ps' else (k', v') :: set_prop k v ps'
  end.

(** An object literal [{ k1: v1, ..., ...spread }] writes its properties
    from left to right.  (JavaScript lists integer-like keys first when it
    enumerates an object; that order plays no part in what a key holds.) *)
Definition assign (base more : Props) : Props :=
  fold_left (fun acc kv => set_prop (fst kv) (snd kv) acc) more base.

Definition is_digit (c : ascii) : bool :=
  let n := nat_of_ascii c in (48 <=? n)%nat && (n <=? 57)%nat.

Fixpoint all_digits (s : string) : bool :=
  match s with
  | "" => true
  | String c s' => is_digit c && all_digits s'
  end.

Fixpoint nat_of_digits (acc : nat) (s : string) : nat :=
  match s with
  | "" => acc
  | String c s' => nat_of_digits (10 * acc + (nat_of_ascii c - 48)) s'
  end.

(** A property key that is an array index: ["0"], or digits without a
    leading zero. *)
Definition index_of_key (k : string) : option nat :=
  match k with
  | "" => None
  | String c rest =>
      if all_digits k then
        if Ascii.eqb c "0" then
          match rest with "" => Some 0%nat | _ => None end
        else Some (nat_of_digits 0 k)
      else None
  end.

Definition key_of_index (i : nat) : string :=
  NilEmpty.string_of_uint (Nat.to_uint i).

Fixpoint str_nth (i : nat) (s : string) : JsVal :=
  match s, i with
  | "", _ => JUndef
  | String c _, O => JStr (String c "")
  | String _ s', S i' => str_nth i' s'
  end.

(** [v[k]] and [v.k].  Reading a property of [null] or [undefined] throws;
    primitives other than strings have no own properties; arrays and strings
    answer [length] and their indices.  Inherited properties are left out:
    none of the keys [main.js] reads is one. *)
Definition get_prop (v : JsVal) (k : string) : Result JsVal :=
  match v with
  | JUndef => Throw (TypeError "Cannot read properties of undefined")
  | JNull => Throw (TypeError "Cannot read properties of null")
  | JBool _ | JNum _ => Ok JUndef
  | JStr s =>
      if String.eqb k "length" then Ok (JNum (Z.of_nat (String.length s)))
      else match index_of_key k with
           | Some i => Ok (str_nth i s)
           | None => Ok JUndef
           end
  | JArr items =>
      if String.eqb k "length" then Ok (JNum (Z.of_nat (List.length items)))
      else match index_of_key k with
           | Some i => Ok (nth i items JUndef)
           | None => Ok JUndef
           end
  | JObj ps =>
      match lookup k ps with
      | Some x => Ok x
      | None => Ok JUndef
      end
  end.

(** [v?.k] *)
Definition opt_get (v : JsVal) (k : string) : Result JsVal :=
  match v with
  | JUndef | JNull => Ok JUndef
  | _ => get_prop v k
  end.

(** [a || b] and [a && b]: the right operand is only evaluated when the left
    one does not decide. *)
Definition js_or (a b : Result JsVal) : Result JsVal :=
  rbind a (fun x => if truthy x then Ok x else b).

Definition js_and (a b : Result JsVal) : Result JsVal :=
  rbind a (fun x => if truthy x then b else Ok x).

Declare Scope js_scope.
Delimit Scope js_scope with js.
Notation "a '<||>' b" := (js_or a b) (at level 52, left associativity) : js_scope.
Notation "a '<&&>' b" := (js_and a b) (at level 51, left associativity) : js_scope.
Notation "v '?.' k" := (opt_get v k) (at level 40, no associativity) : js_scope.
Notation "v '.[' k ']'" := (get_prop v k) (at level 1, left associativity) : js_scope.

(** A destructured parameter [{ x = d }]: the default replaces [undefined]
    only. *)
Definition dflt (v d : JsVal) : JsVal :=
  match v with
  | JUndef => d
  | _ => v
  end.

(** ** Record Normalizer: [normalizeRecord] (main.js, lines 112-130) *)

Section Normalizer.
Local Open Scope js_scope.
Local Open Scope result_scope.

(** The argument object [{ apiData, pageData, url, placeId }]; a property
    the caller leaves out is [JUndef]. *)
Record NormArgs : Type := {
  arg_apiData : JsVal;
  arg_pageData : JsVal;
  arg_url : JsVal;
  arg_placeId : JsVal
}.

(** [now] is what [new Date().toISOString()] answers at the call. *)
Definition normalizeRecord (now : string) (args : NormArgs) : Result JsVal :=
  let apiData := dflt (arg_apiData args) JNull in
  let pageData := dflt (arg_pageData args) JNull in
  let url := dflt (arg_url args) (JStr "") in
  let placeId := dflt (arg_placeId args) JNull in
  experience_id <-
    apiData?."universeId" <||> pageData?."experienceId" <||> Ok JNull ;;
  place_id <-
    Ok placeId <||> apiData?."rootPlaceId" <||> apiData?."placeId"
      <||> pageData?."placeId" <||> Ok JNull ;;
  name <- apiData?."name" <||> pageData?."name" <||> Ok (JStr "") ;;
  creator <-
    (Ok apiData <&&> apiData.["creator"]
       <&&> ((c <- apiData.["creator"] ;; c.["name"])
            <||> (c <- apiData.["creator"] ;; c.["creatorType"])))
      <||> pageData?."creator" <||> Ok (JStr "") ;;
  visits <- apiData?."visits" <||> pageData?."visits" <||> Ok JNull ;;
  favorites <- apiData?."favoritedCount" <||> pageData?."favorites" <||> Ok JNull ;;
  playing <- apiData?."playing" <||> pageData?."playing" <||> Ok JNull ;;
  maxPlayers <- apiData?."maxPlayers" <||> pageData?."maxPlayers" <||> Ok JNull ;;
  price <- apiData?."price" <||> pageData?."price" <||> Ok JNull ;;
  genre <- apiData?."genre" <||> pageData?."genre" <||> Ok (JStr "") ;;
  raw_api <- Ok apiData <||> Ok JNull ;;
  raw_page <- Ok pageData <||> Ok JNull ;;
  Ok (JObj [ ("experience_id", experience_id);
             ("place_id", place_id);
             ("name", name);
             ("creator", creator);
             ("visits", visits);
             ("favorites", favorites);
             ("playing", playing);
             ("maxPlayers", maxPlayers);
             ("price", price);
             ("genre", genre);
             ("url", url);
             ("raw_api", raw_api);
             ("raw_page", raw_page);
             ("extracted_at", JStr now) ]).

End Normalizer.

(** ** Strings and the regular expressions of [main.js]

    A string is a sequence of 8-bit characters (code units below 256); each
    regular expression of the source is the function that computes what
    [String.prototype.match] captures for it. *)

Fixpoint strip_prefix (p s : string) : option string :=
  match p, s with
  | "", _ => Some s
  | String a p', String b s' => if Ascii.eqb a b then strip_prefix p' s' else None
  | String _ _, "" => None
  end.

Fixpoint digits_prefix (s : string) : string :=
  match s with
  | "" => ""
  | String c s' => if is_digit c then String c (digits_prefix s') else ""
  end.

Definition nonempty (s : string) : bool := negb (String.eqb s "").

(** [s.match(/lit(\d+)/)], for a literal [lit]: the leftmost place where
    [lit] is followed by a digit, and the longest run of digits there. *)
Fixpoint match_lit_digits (lit s : string) : option string :=
  let here :=
    match strip_prefix lit s with
    | Some rest => let ds := digits_prefix rest in
                   if nonempty ds then Some ds else None
    | None => None
    end in
  match here with
  | Some ds => Some ds
  | None => match s with
            | "" => None
            | String _ s' => match_lit_digits lit s'
            end
  end.

(** [/^\d+$/.test(q)] *)
Definition test_digits (q : string) : bool := nonempty q && all_digits q.

(** [/\d/] somewhere in [s] *)
Fixpoint has_digit (s : string) : bool :=
  match s with
  | "" => false
  | String c s' => is_digit c || has_digit s'
  end.

(** [s.replace(/[^0-9]/g, '')] *)
Fixpoint digits_only (s : string) : string :=
  match s with
  | "" => ""
  | String c s' => if is_digit c then String c (digits_only s') else digits_only s'
  end.

(** White space of [\s] and of [trim] among the 8-bit characters. *)
Definition is_ws (c : ascii) : bool :=
  let n := nat_of_ascii c in
  ((9 <=? n)%nat && (n <=? 13)%nat) || (n =? 32)%nat || (n =? 160)%nat.

Fixpoint skip_ws (s : string) : string :=
  match s with
  | "" => ""
  | String c s' => if is_ws c then skip_ws s' else s
  end.

Fixpoint trim_end (s : string) : string :=
  match s with
  | "" => ""
  | String c s' =>
      match trim_end s' with
      | "" => if is_ws c then "" else String c ""
      | t => String c t
      end
  end.

Definition trim (s : string) : string := trim_end (skip_ws s).

(** [s.includes(sub)] *)
Fixpoint includes (sub s : string) : bool :=
  String.prefix sub s ||
  match s with
  | "" => false
  | String _ s' => includes sub s'
  end.

(** [s.startsWith(p)] *)
Definition startsWith (p s : string) : bool := String.prefix p s.

(** [s.replace(/;$/, '')] *)
Fixpoint strip_final_semicolon (s : string) : string :=
  match s with
  | "" => ""
  | String c "" => if Ascii.eqb c ";" then "" else s
  | String c s' => String c (strip_final_semicolon s')
  end.

(** The [i] flag: letters compare by their upper case. *)
Definition upcase (c : ascii) : ascii :=
  let n := nat_of_ascii c in
  if (97 <=? n)%nat && (n <=? 122)%nat then ascii_of_nat (n - 32) else c.

Fixpoint strip_prefix_ci (p s : string) : option string :=
  match p, s with
  | "", _ => Some s
  | String a p', String b s' =>
      if Ascii.eqb (upcase a) (upcase b) then strip_prefix_ci p' s' else None
  | String _ _, "" => None
  end.

(** The alternatives of the first group, in the order the engine tries them:
    [Roblox\.PlaceLauncherService|window\.__INITIAL_STATE__|bootstrapData|Roblox\.(?:GameLaunch|Place)] *)
Definition embed_tokens : list string :=
  [ "Roblox.PlaceLauncherService"; "window.__INITIAL_STATE__"; "bootstrapData";
    "Roblox.GameLaunch"; "Roblox.Place" ].

(** The longest prefix of [s] that ends in a closing brace. *)
Fixpoint upto_last_brace (s : string) : option string :=
  match s with
  | "" => None
  | String c s' =>
      match upto_last_brace s' with
      | Some t => Some (String c t)
      | None => if Ascii.eqb c "}" then Some (String c "") else None
      end
  end.

(** [[\s\S]{20,}\}], greedy, on what follows the opening brace. *)
Definition match_object_tail (rest : string) : option string :=
  if (String.length rest <? 20)%nat then None
  else match upto_last_brace (substring 20 (String.length rest - 20) rest) with
       | Some t => Some (substring 0 20 rest ++ t)
       | None => None
       end.

(** [\s*[:=]\s*(\{[\s\S]{20,}\})] after a token: the second group. *)
Definition match_assignment (after_token : string) : option string :=
  match skip_ws after_token with
  | String c r =>
      if Ascii.eqb c ":" || Ascii.eqb c "=" then
        match skip_ws r with
        | String b body =>
            if Ascii.eqb b "{" then
              match match_object_tail body with
              | Some t => Some (String "{" t)
              | None => None
              end
            else None
        | "" => None
        end
      else None
  | "" => None
  end.

Fixpoint match_embed_here (tokens : list string) (s : string) : option string :=
  match tokens with
  | [] => None
  | t :: tokens' =>
      match strip_prefix_ci t s with
      | Some r =>
          match match_assignment r with
          | Some m2 => Some m2
          | None => match_embed_here tokens' s
          end
      | None => match_embed_here tokens' s
      end
  end.

(** [m[2]] of
    [s.match(/(...)\s*[:=]\s*(\{[\s\S]{20,}\})/i)], or [None] when the
    match is [null]. *)
Fixpoint match_embed (s : string) : option string :=
  match match_embed_here embed_tokens s with
  | Some m2 => Some m2
  | None => match s with
            | "" => None
            | String _ s' => match_embed s'
            end
  end.

(** The double quote, and a text between double quotes. *)
Definition dquote : ascii := ascii_of_nat 34.
Definition quoted (s : string) : string := String dquote (s ++ String dquote "").

(** *** Numbers as text: Number::toString *)

(** The decimal digits of an integer. *)
Definition write_decimal (x : Z) : string := NilZero.string_of_int (Z.to_int x).

(** The Number value nearest to the non-negative integer [x]: IEEE 754
    binary64 (53 significant bits), round to nearest, ties to even; [None]
    is Infinity. *)
Definition nearest_double (x : Z) : option Z :=
  let bits := (Z.log2 x + 1)%Z in
  if (bits <=? 53)%Z then Some x
  else
    let sh := (bits - 53)%Z in
    let q := Z.shiftr x sh in
    let r := (x - Z.shiftl q sh)%Z in
    let half := Z.shiftl 1 (sh - 1) in
    let q' := if (r <? half)%Z then q
              else if (half <? r)%Z then (q + 1)%Z
              else if Z.even q then q else (q + 1)%Z in
    let y := Z.shiftl q' sh in
    if (2 ^ 1024 <=? y)%Z then None else Some y.

(** The integers [s] and [k] of Number::toString for the Number [x], which
    has [d] decimal digits: [k] is as small as possible such that some [s]
    of [k] digits, followed by [d - k] zeros, is a decimal that denotes [x];
    of two such [s] the one nearer to [x], and the even one when both are as
    near.  The search starts at [k]; 17 digits always suffice. *)
Fixpoint shortest (fuel : nat) (k d x : Z) : Z * Z :=
  match fuel with
  | O => (x, d)
  | S fuel' =>
      if (d <=? k)%Z then (x, d)
      else
        let unit := (10 ^ (d - k))%Z in
        let lo := (x / unit)%Z in
        let hi := (lo + 1)%Z in
        let ok v := match nearest_double v with
                    | Some y => (y =? x)%Z
                    | None => false
                    end in
        let ok_lo := ok (lo * unit)%Z in
        let ok_hi := (hi <? 10 ^ k)%Z && ok (hi * unit)%Z in
        if ok_lo && ok_hi then
          let below := (x - lo * unit)%Z in
          let above := (hi * unit - x)%Z in
          if (below <? above)%Z then (lo, k)
          else if (above <? below)%Z then (hi, k)
          else if Z.even lo then (lo, k) else (hi, k)
        else if ok_lo then (lo, k)
        else if ok_hi then (hi, k)
        else shortest fuel' (k + 1)%Z d x
  end.

(** [d.ddd] of the digits [ds]. *)
Definition mantissa (ds : string) : string :=
  match ds with
  | String c "" => String c ""
  | String c rest => String c ("." ++ rest)
  | "" => ""
  end.

(** Number::toString (radix 10) of the Number that the integer [z] denotes
    (the nearest one, as for a literal or a JSON number): all digits up to
    2^53; beyond, the shortest digits that denote the same Number, followed
    by zeros while the number has at most 21 digits, and in exponent form
    from 10^21 on ([1e+21]). *)
Definition number_to_string (z : Z) : string :=
  if (Z.abs z <=? 2 ^ 53)%Z then write_decimal z
  else
    let sign := if (z <? 0)%Z then "-" else "" in
    match nearest_double (Z.abs z) with
    | None => sign ++ "Infinity"
    | Some x =>
        let d := Z.of_nat (String.length (write_decimal x)) in
        let '(s, k, n) :=
          match nearest_double (10 ^ d) with
          | Some y => if (y =? x)%Z then (1%Z, 1%Z, (d + 1)%Z)
                      else let (s, k) := shortest 17 1 d x in (s, k, d)
          | None => let (s, k) := shortest 17 1 d x in (s, k, d)
          end in
        if (n <=? 21)%Z then sign ++ write_decimal (s * 10 ^ (n - k))
        else sign ++ mantissa (write_decimal s) ++ "e+" ++ write_decimal (n - 1)
    end.

(** [ToString], as template literals, [new URL], [encodeURIComponent] and
    property keys apply it.  Numbers are the integer-valued ones (see
    [JsVal]); a fractional number has no value here and so no text. *)
Fixpoint to_string (v : JsVal) : string :=
  match v with
  | JUndef => "undefined"
  | JNull => "null"
  | JBool true => "true"
  | JBool false => "false"
  | JNum z => number_to_string z
  | JStr s => s
  | JArr items =>
      String.concat ","
        (map (fun x => match x with
                       | JUndef | JNull => ""
                       | _ => to_string x
                       end) items)
  | JObj _ => "[object Object]"
  end.

(** ** What the platform provides *)

(** A parsed [URL]: the parts [main.js] reads.  [searchParams] holds the
    decoded pairs of the query in order. *)
Record URL : Type := {
  pathname : string;
  searchParams : list (string * string);
  host : string
}.

(** [u.searchParams.get(name)]: the first value, or [null]. *)
Fixpoint searchParams_get (name : string) (ps : list (string * string)) : JsVal :=
  match ps with
  | [] => JNull
  | (k, v) :: ps' => if String.eqb k name then JStr v else searchParams_get name ps'
  end.

(** A [fetch] response: [res.ok] and what [await res.json()] gives. *)
Record Response : Type := {
  res_ok : bool;
  res_json : Result JsVal
}.

Record Host : Type := {
  (** [new URL(url)]; throws on a text that is no absolute URL *)
  URL_new : string -> Result URL;
  (** [JSON.parse(text)]; throws [SyntaxError] *)
  JSON_parse : string -> Result JsVal;
  encodeURIComponent : string -> Result string;
  (** [await fetch(url)]; rejects on a transport error *)
  fetch : string -> Result Response;
  (** [new Date().toISOString()] *)
  Date_toISOString : string;
  (** [await dataset.pushData(record)] *)
  dataset_pushData : JsVal -> Result unit;
  (** [await kv.setValue(key, value, options)] *)
  kv_setValue : string -> JsVal -> Result unit
}.

(** The run's input, as far as the handlers read it. *)
Record Config : Type := {
  useApi : bool;
  followInternalOnly : bool;
  checkPlaceDetails : bool
}.

(** ** Identifier Resolver: [extractIdsFromUrl] (main.js, lines 31-46) *)

Section Resolver.
Variable H : Host.
Local Open Scope js_scope.
Local Open Scope result_scope.

Definition ids_of (d : string) : JsVal := JObj [("placeId", JStr d)].

(** The [try] block: [Some ids] when it returns, [None] when control leaves
    it at its end. *)
Definition extractIds_try (url : string) : Result (option JsVal) :=
  u <- URL_new H url ;;
  match match_lit_digits "/games/" (pathname u) with
  | Some m1 => Ok (Some (ids_of m1))
  | None =>
      q <- Ok (searchParams_get "id" (searchParams u)) <||> Ok JNull ;;
      if truthy q && test_digits (to_string q) then Ok (Some (JObj [("placeId", q)]))
      else
        match match_lit_digits "/places/" (pathname u) with
        | Some m2 => Ok (Some (ids_of m2))
        | None => Ok None
        end
  end.

Definition extractIdsFromUrl (url : string) : Result JsVal :=
  r <- try_catch (extractIds_try url) (fun _ => Ok None) ;;
  match r with
  | Some ids => Ok ids
  | None => Ok (JObj [])
  end.

End Resolver.

(** ** Embedded-Data Extractor: [parseEmbeddedJson] (main.js, lines 80-109)

    The document is given by what
    [$('script').map((i, el) => $(el).html()).get()] collects from it: the
    inline text of its script elements, in document order. *)

Section Extractor.
Variable H : Host.
Local Open Scope result_scope.

Definition ld_marker : string := quoted "@type".

(** The first [if] of the loop body: [Some j] when it returns [j], [None]
    when control goes on to the second [if]. *)
Definition parse_assignment (s : string) : Result (option JsVal) :=
  match match_embed s with
  | Some m2 =>
      try_catch
        (j <- JSON_parse H m2 ;; Ok (Some j))
        (fun _ =>
           try_catch
             (let objText := strip_final_semicolon m2 in
              j <- JSON_parse H objText ;; Ok (Some j))
             (fun _ => Ok None))
  | None => Ok None
  end.

(** The second [if]: the [application/ld+json] attempt. *)
Definition parse_ld_json (s : string) : Result (option JsVal) :=
  if startsWith "{" (trim s) && includes ld_marker s then
    try_catch (j <- JSON_parse H s ;; Ok (Some j)) (fun _ => Ok None)
  else Ok None.

(** One turn of [for (const s of scripts)]. *)
Definition parse_script (s : string) : Result (option JsVal) :=
  if negb (nonempty s) then Ok None
  else
    r <- parse_assignment s ;;
    match r with
    | Some j => Ok (Some j)
    | None => parse_ld_json s
    end.

Fixpoint parse_scripts (scripts : list string) : Result JsVal :=
  match scripts with
  | [] => Ok JNull
  | s :: rest =>
      r <- parse_script s ;;
      match r with
      | Some j => Ok j
      | None => parse_scripts rest
      end
  end.

Definition parseEmbeddedJson (scripts : list string) : Result JsVal :=
  parse_scripts scripts.

End Extractor.

(** ** The handlers' monad: results and the events a run leaves behind *)

(** The functions of [main.js] a handler calls. *)
Inductive Fn : Type :=
| F_extractIdsFromUrl
| F_parseEmbeddedJson
| F_fetchRobloxGameApiByPlaceId
| F_fetchRobloxGameApiByUniverseId
| F_normalizeRecord.

Inductive Event : Type :=
| Call (f : Fn)
| LogInfo (msg : string) (url : string)
| LogWarning (msg : string) (url : string)
| WaitForLoadState
| EnqueueLinks
| Fetch (url : string)
| PushData (record : JsVal)
| SetValue (key : string) (value : JsVal).

Definition Trace := list Event.

Definition M (A : Type) : Type := (Result A * Trace)%type.

Definition mret {A} (a : A) : M A := (Ok a, []).

Definition mbind {A B} (m : M A) (f : A -> M B) : M B :=
  match m with
  | (Ok a, t) => let (r, t') := f a in (r, (t ++ t')%list)
  | (Throw e, t) => (Throw e, t)
  end.

Definition lift {A} (r : Result A) : M A := (r, []).

Definition emit (e : Event) : M unit := (Ok tt, [e]).

(** [try { body } catch (e) { handler }] around awaits. *)
Definition mtry {A} (body : M A) (handler : Exn -> M A) : M A :=
  match body with
  | (Ok a, t) => (Ok a, t)
  | (Throw e, t) => let (r, t') := handler e in (r, (t ++ t')%list)
  end.

Declare Scope m_scope.
Delimit Scope m_scope with m.
Notation "x <- m ;; k" := (mbind m (fun x => k))
  (at level 61, m at next level, right associativity) : m_scope.
Notation "m ;;; k" := (mbind m (fun _ => k))
  (at level 61, right associativity) : m_scope.

(** A call of a function of [main.js]: the call is recorded, then its body
    runs. *)
Definition call {A} (f : Fn) (body : M A) : M A :=
  mbind (emit (Call f)) (fun _ => body).

(** ** API Client (main.js, lines 50-77) *)

Section ApiClient.
Variable H : Host.
Local Open Scope js_scope.
Local Open Scope m_scope.

Definition await_fetch (url : string) : M Response :=
  emit (Fetch url) ;;; lift (fetch H url).

Definition is_array (v : JsVal) : bool :=
  match v with
  | JArr _ => true
  | _ => false
  end.

Definition fetchRobloxGameApiByPlaceId (placeId : JsVal) : M JsVal :=
  mtry
    (enc <- lift (encodeURIComponent H (to_string placeId)) ;;
     let url :=
       "https://games.roblox.com/v1/games/multiget-place-details?placeIds=" ++ enc in
     res <- await_fetch url ;;
     if negb (res_ok res) then mret JNull
     else
       json <- lift (res_json res) ;;
       c1 <- lift (Ok (JBool (is_array json)) <&&> json.["length"]) ;;
       if truthy c1 then lift (json.["0"])
       else
         c2 <- lift (Ok json <&&> json.[to_string placeId]) ;;
         if truthy c2 then lift (json.[to_string placeId])
         else mret json)
    (fun _ => mret JNull).

Definition fetchRobloxGameApiByUniverseId (universeId : JsVal) : M JsVal :=
  mtry
    (enc <- lift (encodeURIComponent H (to_string universeId)) ;;
     let url := "https://games.roblox.com/v1/games?universeIds=" ++ enc in
     res <- await_fetch url ;;
     if negb (res_ok res) then mret JNull
     else
       json <- lift (res_json res) ;;
       c <- lift (Ok json <&&> json.["data"]
                    <&&> rbind (json.["data"]) (fun d => d.["length"])) ;;
       if truthy c then lift (rbind (json.["data"]) (fun d => d.["0"]))
       else mret json)
    (fun _ => mret JNull).

End ApiClient.

(** ** The request handlers (main.js, lines 133-243) *)

(** A crawler request: [request.url], [request.loadedUrl] and
    [request.userData.startHost]. *)
Record Request : Type := {
  req_url : string;
  req_loadedUrl : option string;
  req_startHost : option string
}.

(** What Cheerio's [$] answers to the selections of [cheerioHandler]. *)
Record StaticPage : Type := {
  (** [$('script').map((i, el) => $(el).html()).get()] *)
  scripts : list string;
  (** [$('h1').first().text()] *)
  h1_text : string;
  (** [$('meta[property="og:title"]').attr('content')] *)
  og_title : option string;
  (** [$(el).text()] of each element the statistics selector matches *)
  stat_texts : list string
}.

Record CheerioCtx : Type := {
  c_request : Request;
  c_page : StaticPage;
  (** outcome of [await enqueueLinks(...)] *)
  c_enqueueLinks : Result unit
}.

(** What Playwright's [page] answers to [playwrightHandler]; each call can
    reject. *)
Record RenderedPage : Type := {
  page_waitForLoadState : Result unit;
  page_title : Result string;
  h1_innerText : Result string;
  players_innerText : Result string
}.

Record PlaywrightCtx : Type := {
  p_request : Request;
  p_page : RenderedPage;
  p_enqueueLinks : Result unit
}.

Fixpoint indexed (i : nat) (l : list JsVal) : Props :=
  match l with
  | [] => []
  | x :: l' => (key_of_index i, x) :: indexed (S i) l'
  end.

(** The own enumerable properties a spread [...v] copies. *)
Definition own_props (v : JsVal) : Props :=
  match v with
  | JObj ps => ps
  | JArr items => indexed 0 items
  | JStr s => indexed 0 (map (fun c => JStr (String c "")) (list_ascii_of_string s))
  | _ => []
  end.

Definition opt_str (o : option string) : JsVal :=
  match o with
  | Some s => JStr s
  | None => JUndef
  end.

(** [.first().text()] of a selection given by its elements' texts. *)
Definition first_text (texts : list string) : string :=
  match texts with
  | [] => ""
  | t :: _ => t
  end.

Section Handlers.
Variable H : Host.
Variable cfg : Config.
Local Open Scope js_scope.

(** [request.loadedUrl ?? request.url] *)
Definition request_url (request : Request) : string :=
  match req_loadedUrl request with
  | Some u => u
  | None => req_url request
  end.

(** The [transformRequestFunction] both handlers give to [enqueueLinks]:
    [None] is its [null] (the link is dropped). *)
Definition transformRequestFunction (request r : Request) : option Request :=
  if followInternalOnly cfg then
    let checked : Result bool :=
      try_catch
        (rbind (Ok (opt_str (req_startHost request))
                  <||> rbind (URL_new H (req_url request)) (fun u => Ok (JStr (host u))))
           (fun startHost =>
              rbind (URL_new H (req_url r)) (fun ru =>
                Ok (String.eqb (host ru) (to_string startHost)))))
        (fun _ => Ok false) in
    match checked with
    | Ok true => Some r
    | _ => None
    end
  else Some r.

Local Open Scope m_scope.

Definition await_enqueueLinks (outcome : Result unit) : M unit :=
  emit EnqueueLinks ;;; lift outcome.

Definition await_pushData (record : JsVal) : M unit :=
  emit (PushData record) ;;; lift (dataset_pushData H record).

Definition await_setValue (key : string) (value : JsVal) : M unit :=
  emit (SetValue key value) ;;; lift (kv_setValue H key value).

(** [placeId ? `experiences/${placeId}` : `experiences/${encodeURIComponent(url)}`] *)
Definition kv_key (placeId : JsVal) (url : string) : Result string :=
  if truthy placeId then Ok ("experiences/" ++ to_string placeId)
  else rbind (encodeURIComponent H url) (fun e => Ok ("experiences/" ++ e)).

(** Lines 184-189 and 237-242: the raw payload goes to the key-value store
    inside [try { } catch (e) { log.warning(...) }]. *)
Definition save_raw (placeId : JsVal) (url : string) (value : JsVal) : M unit :=
  mtry
    (key <- lift (kv_key placeId url) ;;
     await_setValue key value)
    (fun e => emit (LogWarning "Failed to save raw JSON to KV" url)).

(** Lines 164-167 and 228-231: the lookup by place id. *)
Definition api_by_place (placeId : JsVal) : M JsVal :=
  if useApi cfg && truthy placeId
  then call F_fetchRobloxGameApiByPlaceId (fetchRobloxGameApiByPlaceId H placeId)
  else mret JNull.

Definition cheerioHandler (ctx : CheerioCtx) : M unit :=
  let request := c_request ctx in
  let page := c_page ctx in
  let url := request_url request in
  emit (LogInfo "Processing (cheerio)" url) ;;;
  await_enqueueLinks (c_enqueueLinks ctx) ;;;
  ids <- call F_extractIdsFromUrl (lift (extractIdsFromUrl H url)) ;;
  placeId <- lift (ids.["placeId"] <||> Ok JNull) ;;
  pageJson <- call F_parseEmbeddedJson (lift (parseEmbeddedJson H (scripts page))) ;;
  name <- lift (Ok (JStr (trim (h1_text page))) <||> Ok (opt_str (og_title page))
                  <||> Ok (JStr "")) ;;
  let visitsText :=
    trim (first_text (filter (fun t => has_digit (trim t)) (stat_texts page))) in
  let visits := if nonempty visitsText then JStr (digits_only visitsText) else JNull in
  apiData <- api_by_place placeId ;;
  again <- lift (Ok (JBool (negb (truthy apiData))) <&&> Ok (JBool (useApi cfg))
                   <&&> Ok pageJson <&&> pageJson.["universeId"]
                   <&&> Ok (JBool (checkPlaceDetails cfg))) ;;
  apiData <- (if truthy again
              then universeId <- lift (pageJson.["universeId"]) ;;
                   call F_fetchRobloxGameApiByUniverseId
                     (fetchRobloxGameApiByUniverseId H universeId)
              else mret apiData) ;;
  pd_name <- lift (Ok name <||> pageJson?."name" <||> Ok (JStr "")) ;;
  pd_visits <- lift (if truthy apiData then apiData.["visits"] else Ok visits) ;;
  let pageData :=
    JObj (assign [("name", pd_name); ("visits", pd_visits)] (own_props pageJson)) in
  record <- call F_normalizeRecord
              (lift (normalizeRecord (Date_toISOString H)
                       {| arg_apiData := apiData; arg_pageData := pageData;
                          arg_url := JStr url; arg_placeId := placeId |})) ;;
  await_pushData record ;;;
  save_raw placeId url
    (JObj [("url", JStr url); ("apiData", apiData); ("pageJson", pageJson)]).

Definition playwrightHandler (ctx : PlaywrightCtx) : M unit :=
  let request := p_request ctx in
  let page := p_page ctx in
  let url := request_url request in
  emit (LogInfo "Processing (playwright)" url) ;;;
  mtry (emit WaitForLoadState ;;; lift (page_waitForLoadState page))
       (fun _ => mret tt) ;;;
  await_enqueueLinks (p_enqueueLinks ctx) ;;;
  ids <- call F_extractIdsFromUrl (lift (extractIdsFromUrl H url)) ;;
  placeId <- lift (ids.["placeId"] <||> Ok JNull) ;;
  name <- lift (try_catch (rbind (page_title page) (fun t => Ok (JStr t)))
                          (fun _ => Ok (JStr ""))
                <||> try_catch (rbind (h1_innerText page) (fun t => Ok (JStr t)))
                               (fun _ => Ok (JStr ""))
                <||> Ok (JStr "")) ;;
  playing <- lift
    (try_catch
       (rbind (try_catch (players_innerText page) (fun _ => Ok ""))
          (fun playingText =>
             if nonempty playingText then Ok (JStr (digits_only playingText))
             else Ok JNull))
       (fun _ => Ok JNull)) ;;
  apiData <- api_by_place placeId ;;
  let pageData := JObj [("name", name); ("playing", playing)] in
  record <- call F_normalizeRecord
              (lift (normalizeRecord (Date_toISOString H)
                       {| arg_apiData := apiData; arg_pageData := pageData;
                          arg_url := JStr url; arg_placeId := placeId |})) ;;
  await_pushData record ;;;
  save_raw placeId url
    (JObj [("url", JStr url); ("apiData", apiData); ("pageData", pageData)]).

End Handlers.

(** ** Words of the specification *)

(** A source's value for a field: [v?.k], which never throws. *)
Definition field (v : JsVal) (k : string) : JsVal :=
  match v with
  | JUndef | JNull => JUndef
  | _ => match get_prop v k with
         | Ok x => x
         | Throw _ => JUndef
         end
  end.

(** "Non-empty" is the source's test: a value [||] does not skip. *)
Definition non_empty (v : JsVal) : Prop := truthy v = true.

(** "First non-empty across sources in this fixed order", with the value a
    field takes when every source is empty. *)
Fixpoint first_nonempty (sources : list JsVal) (default : JsVal) : JsVal :=
  match sources with
  | [] => default
  | v :: rest => if truthy v then v else first_nonempty rest default
  end.

(** The twelve canonical fields. *)
Definition canonical_fields : list string :=
  [ "experience_id"; "place_id"; "name"; "creator"; "visits"; "favorites";
    "playing"; "maxPlayers"; "price"; "genre"; "url"; "extracted_at" ].

(** The precedence table of the Record Normalizer: for each field, the
    sources in order and the default. *)
Definition precedence (apiData pageData placeId : JsVal) : list (string * (list JsVal * JsVal)) :=
  [ ("experience_id", ([field apiData "universeId"; field pageData "experienceId"], JNull));
    ("place_id", ([placeId; field apiData "rootPlaceId"; field apiData "placeId";
                   field pageData "placeId"], JNull));
    ("name", ([field apiData "name"; field pageData "name"], JStr ""));
    ("creator", ([field (field apiData "creator") "name";
                  field (field apiData "creator") "creatorType";
                  field pageData "creator"], JStr ""));
    ("visits", ([field apiData "visits"; field pageData "visits"], JNull));
    ("favorites", ([field apiData "favoritedCount"; field pageData "favorites"], JNull));
    ("playing", ([field apiData "playing"; field pageData "playing"], JNull));
    ("maxPlayers", ([field apiData "maxPlayers"; field pageData "maxPlayers"], JNull));
    ("price", ([field apiData "price"; field pageData "price"], JNull));
    ("genre", ([field apiData "genre"; field pageData "genre"], JStr "")) ].

(** The numeric fields, each with its API key and its page key. *)
Definition numeric_fields : list (string * (string * string)) :=
  [ ("visits", ("visits", "visits"));
    ("favorites", ("favoritedCount", "favorites"));
    ("playing", ("playing", "playing"));
    ("maxPlayers", ("maxPlayers", "maxPlayers"));
    ("price", ("price", "price")) ].

(** A path holds [lit] followed by a digit: what [/lit(\d+)/] looks for. *)
Definition has_id_segment (lit s : string) : Prop :=
  exists pre d rest, is_digit d = true /\ s = pre ++ lit ++ String d rest.

(** [s] does not go on with a digit. *)
Definition no_leading_digit (s : string) : bool :=
  match s with
  | "" => true
  | String c _ => negb (is_digit c)
  end.

(** The texts [parseEmbeddedJson] gives to [JSON.parse] for one script
    block, in the order it tries them. *)
Definition candidates (s : string) : list string :=
  if nonempty s then
    (match match_embed s with
     | Some m2 => [m2; strip_final_semicolon m2]
     | None => []
     end ++
     (if startsWith "{" (trim s) && includes ld_marker s then [s] else []))%list
  else [].

Fixpoint first_ok (H : Host) (texts : list string) : option JsVal :=
  match texts with
  | [] => None
  | t :: rest =>
      match JSON_parse H t with
      | Ok j => Some j
      | Throw _ => first_ok H rest
      end
  end.

(** The first text that parses, [null] when none does. *)
Fixpoint first_parsed (H : Host) (texts : list string) : JsVal :=
  match texts with
  | [] => JNull
  | t :: rest =>
      match JSON_parse H t with
      | Ok j => j
      | Throw _ => first_parsed H rest
      end
  end.

(** The components of the pipeline, and the component an event belongs to. *)
Inductive Component : Type :=
| Resolver
| Extractor
| ApiClient
| Normalizer
| Sink.

Definition component_of (e : Event) : option Component :=
  match e with
  | Call F_extractIdsFromUrl => Some Resolver
  | Call F_parseEmbeddedJson => Some Extractor
  | Call F_fetchRobloxGameApiByPlaceId => Some ApiClient
  | Call F_fetchRobloxGameApiByUniverseId => Some ApiClient
  | Call F_normalizeRecord => Some Normalizer
  | PushData _ => Some Sink
  | SetValue _ _ => Some Sink
  | _ => None
  end.

Fixpoint pipeline (t : Trace) : list Component :=
  match t with
  | [] => []
  | e :: t' =>
      match component_of e with
      | Some c => c :: pipeline t'
      | None => pipeline t'
      end
  end.

(** The events of a [fetch]. *)
Definition is_fetch (e : Event) : bool :=
  match e with
  | Fetch _ => true
  | _ => false
  end.

(** The events of an API lookup. *)
Definition is_api_event (e : Event) : bool :=
  match e with
  | Call F_fetchRobloxGameApiByPlaceId => true
  | Call F_fetchRobloxGameApiByUniverseId => true
  | Fetch _ => true
  | _ => false
  end.

Definition is_warning (e : Event) : bool :=
  match e with
  | LogWarning _ _ => true
  | _ => false
  end.

Definition is_setValue (e : Event) : bool :=
  match e with
  | SetValue _ _ => true
  | _ => false
  end.

(** The records a run gave to [dataset.pushData]. *)
Fixpoint pushed (t : Trace) : list JsVal :=
  match t with
  | [] => []
  | PushData r :: t' => r :: pushed t'
  | _ :: t' => pushed t'
  end.

(** ** A concrete host and concrete pages for the examples

    The example host answers exactly for the texts listed here. *)

Definition hex_digit (n : nat) : ascii :=
  ascii_of_nat (if (n <? 10)%nat then 48 + n else 55 + n).

Definition percent (n : nat) : string :=
  String "%" (String (hex_digit (n / 16)) (String (hex_digit (n mod 16)) "")).

Definition unreserved (c : ascii) : bool :=
  let n := nat_of_ascii c in
  ((48 <=? n)%nat && (n <=? 57)%nat) || ((65 <=? n)%nat && (n <=? 90)%nat)
  || ((97 <=? n)%nat && (n <=? 122)%nat)
  || existsb (Ascii.eqb c) (list_ascii_of_string "-_.!~*'()").

(** [encodeURIComponent] on 8-bit characters (UTF-8 bytes, percent-encoded). *)
Fixpoint example_encodeURIComponent (s : string) : string :=
  match s with
  | "" => ""
  | String c s' =>
      let n := nat_of_ascii c in
      (if unreserved c then String c ""
       else if (n <? 128)%nat then percent n
       else percent (192 + n / 64) ++ percent (128 + n mod 64))
      ++ example_encodeURIComponent s'
  end.

Definition game_url : string := "https://www.roblox.com/games/1818/Adventure-Forward".
Definition mixed_url : string := "https://www.roblox.com/places/5/games/7/x?id=99".
Definition query_url : string := "https://www.roblox.com/places/5?id=99".
Definition place_url : string := "https://www.roblox.com/places/5?id=abc".
Definition plain_url : string := "https://www.roblox.com/discover".

Definition example_URL_new (url : string) : Result URL :=
  if String.eqb url game_url then
    Ok {| pathname := "/games/1818/Adventure-Forward"; searchParams := [];
          host := "www.roblox.com" |}
  else if String.eqb url mixed_url then
    Ok {| pathname := "/places/5/games/7/x"; searchParams := [("id", "99")];
          host := "www.roblox.com" |}
  else if String.eqb url query_url then
    Ok {| pathname := "/places/5"; searchParams := [("id", "99")];
          host := "www.roblox.com" |}
  else if String.eqb url place_url then
    Ok {| pathname := "/places/5"; searchParams := [("id", "abc")];
          host := "www.roblox.com" |}
  else if String.eqb url plain_url then
    Ok {| pathname := "/discover"; searchParams := []; host := "www.roblox.com" |}
  else Throw (TypeError "Invalid URL").

(** [{"universeId": 123, "visits": 7, "name": "Adventure"}] *)
Definition state_text : string :=
  "{" ++ quoted "universeId" ++ ": 123, " ++ quoted "visits" ++ ": 7, "
      ++ quoted "name" ++ ": " ++ quoted "Adventure" ++ "}".

Definition state_object : JsVal :=
  JObj [("universeId", JNum 123); ("visits", JNum 7); ("name", JStr "Adventure")].

(** [{"@type": "VideoGame", "name": "Adventure"}] *)
Definition ld_text : string :=
  "{" ++ quoted "@type" ++ ": " ++ quoted "VideoGame" ++ ", "
      ++ quoted "name" ++ ": " ++ quoted "Adventure" ++ "}".

Definition ld_object : JsVal :=
  JObj [("@type", JStr "VideoGame"); ("name", JStr "Adventure")].

Definition example_JSON_parse (text : string) : Result JsVal :=
  if String.eqb text state_text then Ok state_object
  else if String.eqb text ld_text then Ok ld_object
  else Throw (SyntaxError "Unexpected token").

Definition api_object : JsVal :=
  JObj [("placeId", JNum 1818); ("universeId", JNum 999);
        ("name", JStr "Adventure Forward"); ("visits", JNum 1000)].

Definition example_fetch (url : string) : Result Response :=
  if String.eqb url
       "https://games.roblox.com/v1/games/multiget-place-details?placeIds=1818"
  then Ok {| res_ok := true; res_json := Ok (JArr [api_object]) |}
  else Ok {| res_ok := false; res_json := Throw (SyntaxError "Unexpected end of JSON input") |}.

(** The example host; [push] and [store] are the outcomes of the two sink
    writes. *)
Definition example_host (push store : Result unit) : Host :=
  {| URL_new := example_URL_new;
     JSON_parse := example_JSON_parse;
     encodeURIComponent := fun s => Ok (example_encodeURIComponent s);
     fetch := example_fetch;
     Date_toISOString := "2024-05-01T12:00:00.000Z";
     dataset_pushData := fun _ => push;
     kv_setValue := fun _ _ => store |}.

Definition example_cfg : Config :=
  {| useApi := true; followInternalOnly := true; checkPlaceDetails := true |}.

Definition example_request : Request :=
  {| req_url := game_url; req_loadedUrl := None; req_startHost := Some "www.roblox.com" |}.

(** A page whose first script assigns [state_text] to
    [window.__INITIAL_STATE__]. *)
Definition example_scripts : list string :=
  [ "var a = 1;"; "window.__INITIAL_STATE__ = " ++ state_text ++ ";" ].

Definition example_static_ctx : CheerioCtx :=
  {| c_request := example_request;
     c_page := {| scripts := example_scripts;
                  h1_text := " Adventure Forward ";
                  og_title := Some "Adventure Forward";
                  stat_texts := ["Visits"; "1,234+"] |};
     c_enqueueLinks := Ok tt |}.

Definition example_rendered_ctx : PlaywrightCtx :=
  {| p_request := example_request;
     p_page := {| page_waitForLoadState := Throw (HostError "Timeout 5000ms exceeded");
                  page_title := Ok "Adventure Forward";
                  h1_innerText := Ok "Adventure Forward";
                  players_innerText := Ok "1,234 playing" |};
     p_enqueueLinks := Ok tt |}.

(** A page whose only script is an ld+json object, without [visits]. *)
Definition example_ld_ctx : CheerioCtx :=
  {| c_request := example_request;
     c_page := {| scripts := [ld_text];
                  h1_text := "Adventure Forward";
                  og_title := None;
                  stat_texts := ["1,234+"] |};
     c_enqueueLinks := Ok tt |}.

(** The two handlers on the same URL, with sinks that work. *)
Definition example_static_run : M unit :=
  cheerioHandler (example_host (Ok tt) (Ok tt)) example_cfg example_static_ctx.

Definition example_rendered_run : M unit :=
  playwrightHandler (example_host (Ok tt) (Ok tt)) example_cfg example_rendered_ctx.

Definition example_ld_run : M unit :=
  cheerioHandler (example_host (Ok tt) (Ok tt)) example_cfg example_ld_ctx.

(** Hosts whose dataset, or whose key-value store, is out of order. *)
Definition dataset_down : Host :=
  example_host (Throw (HostError "dataset unavailable")) (Ok tt).

Definition store_down : Host :=
  example_host (Ok tt) (Throw (HostError "store unavailable")).

(** Arguments in which every source has a value. *)
Definition precedence_args : NormArgs :=
  {| arg_apiData := JObj [("rootPlaceId", JNum 1818); ("visits", JNum 1000)];
     arg_pageData := JObj [("visits", JStr "999")];
     arg_url := JStr game_url;
     arg_placeId := JStr "42" |}.

(** The API reports a count of 0 visits, the page shows "5". *)
Definition zero_visits_args : NormArgs :=
  {| arg_apiData := JObj [("visits", JNum 0)];
     arg_pageData := JObj [("visits", JStr "5")];
     arg_url := JStr game_url;
     arg_placeId := JNull |}.

(** The record [normalizeRecord] builds, written with the words of the
    specification: the precedence table, then the four fields that are
    copied. *)
Definition merged (apiData pageData placeId : JsVal) : Props :=
  map (fun e => (fst e, first_nonempty (fst (snd e)) (snd (snd e))))
      (precedence apiData pageData placeId).

Definition canonical_record (now : string) (apiData pageData url placeId : JsVal) : JsVal :=
  JObj (merged apiData pageData placeId ++
        [ ("url", url);
          ("raw_api", first_nonempty [apiData] JNull);
          ("raw_page", first_nonempty [pageData] JNull);
          ("extracted_at", JStr now) ])%list.

(** ** Input and start requests (main.js, lines 9-19 and 245-259) *)

(** [v ?? d] *)
Definition nullish_or (v d : JsVal) : JsVal :=
  match v with
  | JUndef | JNull => d
  | _ => v
  end.

(** The destructured input.  The two numbers go to the crawler's options
    and are read nowhere else. *)
Record Input : Type := {
  in_startUrls : JsVal;
  in_experienceIds : JsVal;
  in_useApi : JsVal;
  in_useBrowser : JsVal;
  in_maxRequestsPerCrawl : JsVal;
  in_followInternalOnly : JsVal;
  in_checkPlaceDetails : JsVal;
  in_concurrency : JsVal
}.

Definition default_startUrls : JsVal :=
  JArr [JStr "https://www.roblox.com/games/1818/Adventure-Forward"].

(** Lines 9-19: [got] is what [await Actor.getInput()] gave. *)
Definition read_input (got : JsVal) : Input :=
  let input := nullish_or got (JObj []) in
  {| in_startUrls := dflt (field input "startUrls") default_startUrls;
     in_experienceIds := dflt (field input "experienceIds") (JArr []);
     in_useApi := dflt (field input "useApi") (JBool true);
     in_useBrowser := dflt (field input "useBrowser") (JBool false);
     in_maxRequestsPerCrawl := dflt (field input "maxRequestsPerCrawl") (JNum 500);
     in_followInternalOnly := dflt (field input "followInternalOnly") (JBool true);
     in_checkPlaceDetails := dflt (field input "checkPlaceDetails") (JBool true);
     in_concurrency := dflt (field input "concurrency") (JNum 10) |}.

(** The handlers test the three switches for truth. *)
Definition config_of_input (i : Input) : Config :=
  {| useApi := truthy (in_useApi i);
     followInternalOnly := truthy (in_followInternalOnly i);
     checkPlaceDetails := truthy (in_checkPlaceDetails i) |}.

(** [for (const x of v)]: an array gives its items, a string its
    characters, and nothing else that a JSON input can hold is iterable. *)
Definition iterate (v : JsVal) : Result (list JsVal) :=
  match v with
  | JArr items => Ok items
  | JStr s => Ok (map (fun c => JStr (String c "")) (list_ascii_of_string s))
  | _ => Throw (TypeError "is not iterable")
  end.

(** [typeof v === 'object'] *)
Definition typeof_object (v : JsVal) : bool :=
  match v with
  | JNull | JArr _ | JObj _ => true
  | _ => false
  end.

(** [{ url, userData }] *)
Definition start_request (url : JsVal) (userData : Props) : JsVal :=
  JObj [("url", url); ("userData", JObj userData)].

Definition games_prefix : string := "https://www.roblox.com/games/".

Section StartRequests.
Variable H : Host.
Local Open Scope js_scope.
Local Open Scope result_scope.

(** Lines 247-254: [acc] is the array [startRequests] so far. *)
Fixpoint push_start_urls (us : list JsVal) (acc : list JsVal) : Result (list JsVal) :=
  match us with
  | [] => Ok acc
  | u :: rest =>
      acc' <- try_catch
                (parsed <- URL_new H (to_string u) ;;
                 Ok (acc ++ [start_request u [("startHost", JStr (host parsed))]])%list)
                (fun _ => Ok acc) ;;
      push_start_urls rest acc'
  end.

(** Line 257 *)
Definition experience_id_of (e : JsVal) : Result JsVal :=
  if typeof_object e
  then e.["id"] <||> e.["placeId"] <||> e.["experienceId"]
  else Ok e.

(** Lines 255-259 *)
Fixpoint push_experience_ids (es : list JsVal) (acc : list JsVal) : Result (list JsVal) :=
  match es with
  | [] => Ok acc
  | e :: rest =>
      id <- experience_id_of e ;;
      push_experience_ids rest
        (if truthy id
         then (acc ++ [start_request (JStr (games_prefix ++ to_string id)) []])%list
         else acc)
  end.

(** Lines 246-259: the array given to [crawler.run]. *)
Definition startRequests (startUrls experienceIds : JsVal) : Result (list JsVal) :=
  us <- rbind (Ok startUrls <||> Ok (JArr [])) iterate ;;
  acc <- push_start_urls us [] ;;
  es <- rbind (Ok experienceIds <||> Ok (JArr [])) iterate ;;
  push_experience_ids es acc.

End StartRequests.

(** The start requests in closed form: what one entry of [startUrls] and
    one entry of [experienceIds] contribute to the array. *)
Definition url_request (H : Host) (u : JsVal) : list JsVal :=
  match URL_new H (to_string u) with
  | Ok parsed => [start_request u [("startHost", JStr (host parsed))]]
  | Throw _ => []
  end.

(** The id of an entry other than [null]: the first non-empty of [id] and
    [placeId], else [experienceId], for an object; the entry itself
    otherwise. *)
Definition entry_id (e : JsVal) : JsVal :=
  if typeof_object e
  then first_nonempty [field e "id"; field e "placeId"] (field e "experienceId")
  else e.

Definition id_request (e : JsVal) : list JsVal :=
  if truthy (entry_id e)
  then [start_request (JStr (games_prefix ++ to_string (entry_id e))) []]
  else [].

(** ** More to observe in a run *)

(** The keys a run gave to [kv.setValue]. *)
Fixpoint stored_keys (t : Trace) : list string :=
  match t with
  | [] => []
  | SetValue key _ :: t' => key :: stored_keys t'
  | _ :: t' => stored_keys t'
  end.

(** The URLs a run gave to [fetch]. *)
Fixpoint fetched (t : Trace) : list string :=
  match t with
  | [] => []
  | Fetch url :: t' => url :: fetched t'
  | _ :: t' => fetched t'
  end.

(** The functions of [main.js] a run called. *)
Fixpoint calls (t : Trace) : list Fn :=
  match t with
  | [] => []
  | Call f :: t' => f :: calls t'
  | _ :: t' => calls t'
  end.

Definition place_details_url : string :=
  "https://games.roblox.com/v1/games/multiget-place-details?placeIds=".

Definition universe_url : string :=
  "https://games.roblox.com/v1/games?universeIds=".

(** The events of one API lookup: the call, then the request unless the id
    cannot be encoded. *)
Definition lookup_events (H : Host) (f : Fn) (endpoint : string) (id : JsVal) : Trace :=
  Call f :: match encodeURIComponent H (to_string id) with
            | Ok enc => [Fetch (endpoint ++ enc)]
            | Throw _ => []
            end.

(** A value the DOM heuristics give: null, or digits (possibly none). *)
Definition null_or_digits (v : JsVal) : Prop :=
  v = JNull \/ exists d, v = JStr d /\ all_digits d = true.

(** ** More example data *)

Definition id_url : string := "https://www.roblox.com/games/1818".
Definition foreign_url : string := "https://example.org/games/2/Other".

Definition example_URL_new2 (url : string) : Result URL :=
  if String.eqb url id_url then
    Ok {| pathname := "/games/1818"; searchParams := []; host := "www.roblox.com" |}
  else if String.eqb url foreign_url then
    Ok {| pathname := "/games/2/Other"; searchParams := []; host := "example.org" |}
  else example_URL_new url.

Definition keyed_object : JsVal := JObj [("name", JStr "Keyed"); ("visits", JNum 5)].
Definition universe_object : JsVal := JObj [("id", JNum 123); ("visits", JNum 8)].

(** Place 77 is answered by an object keyed by the place id, place 5 by an
    empty array, universe 123 by a [data] envelope; the rest as
    [example_fetch]. *)
Definition example_fetch2 (url : string) : Result Response :=
  if String.eqb url (place_details_url ++ "77") then
    Ok {| res_ok := true; res_json := Ok (JObj [("77", keyed_object)]) |}
  else if String.eqb url (place_details_url ++ "5") then
    Ok {| res_ok := true; res_json := Ok (JArr []) |}
  else if String.eqb url (universe_url ++ "123") then
    Ok {| res_ok := true; res_json := Ok (JObj [("data", JArr [universe_object])]) |}
  else if String.eqb url (place_details_url ++ "404") then
    Throw (HostError "fetch failed")
  else example_fetch url.

Definition example_host2 : Host :=
  {| URL_new := example_URL_new2;
     JSON_parse := example_JSON_parse;
     encodeURIComponent := fun s => Ok (example_encodeURIComponent s);
     fetch := example_fetch2;
     Date_toISOString := "2024-05-01T12:00:00.000Z";
     dataset_pushData := fun _ => Ok tt;
     kv_setValue := fun _ _ => Ok tt |}.

Definition off_cfg : Config :=
  {| useApi := false; followInternalOnly := false; checkPlaceDetails := true |}.

(** A page without a place id in its URL, whose embedded JSON names
    universe 123. *)
Definition example_plain_ctx : CheerioCtx :=
  {| c_request := {| req_url := plain_url; req_loadedUrl := None; req_startHost := None |};
     c_page := {| scripts := example_scripts;
                  h1_text := "Discover";
                  og_title := None;
                  stat_texts := ["no numbers here"] |};
     c_enqueueLinks := Ok tt |}.

(** A page without scripts whose second statistic is the first to show a
    digit. *)
Definition example_dom_ctx : CheerioCtx :=
  {| c_request := {| req_url := plain_url; req_loadedUrl := None; req_startHost := None |};
     c_page := {| scripts := [];
                  h1_text := "Discover";
                  og_title := None;
                  stat_texts := ["Visits"; " 1,234 visits "; "56"] |};
     c_enqueueLinks := Ok tt |}.

Definition example_plain_rendered_ctx : PlaywrightCtx :=
  {| p_request := {| req_url := plain_url; req_loadedUrl := None; req_startHost := None |};
     p_page := {| page_waitForLoadState := Ok tt;
                  page_title := Ok "";
                  h1_innerText := Throw (HostError "no h1");
                  players_innerText := Ok "No players" |};
     p_enqueueLinks := Ok tt |}.

(** * Properties *)

(** ** Values and the merge operator *)

Lemma opt_get_field (v : JsVal) (k : string) : opt_get v k = Ok (field v k).
Proof.
  destruct v; simpl; try reflexivity.
  - destruct (String.eqb k "length"); [reflexivity|].
    destruct (index_of_key k); reflexivity.
  - destruct (String.eqb k "length"); [reflexivity|].
    destruct (index_of_key k); reflexivity.
  - destruct (lookup k props); reflexivity.
Qed.

Lemma get_prop_field (v : JsVal) (k : string) :
  truthy v = true -> get_prop v k = Ok (field v k).
Proof.
  intros Ht. rewrite <- opt_get_field.
  destruct v; simpl in *; try discriminate; reflexivity.
Qed.

Lemma field_falsy (v : JsVal) (k : string) :
  truthy v = false -> k <> "length" -> field v k = JUndef.
Proof.
  intros Hf Hk. destruct v; simpl in *; try discriminate; try reflexivity.
  destruct (String.eqb_spec s ""); [subst|discriminate].
  destruct (String.eqb_spec k "length"); [contradiction|].
  destruct (index_of_key k); [|reflexivity].
  destruct n0; reflexivity.
Qed.

Lemma js_or_Ok (a : JsVal) (b : Result JsVal) :
  js_or (Ok a) b = if truthy a then Ok a else b.
Proof. reflexivity. Qed.

Lemma js_and_Ok (a : JsVal) (b : Result JsVal) :
  js_and (Ok a) b = if truthy a then b else Ok a.
Proof. reflexivity. Qed.

Lemma or_chain1 (a d : JsVal) :
  js_or (Ok a) (Ok d) = Ok (first_nonempty [a] d).
Proof. simpl. destruct (truthy a); reflexivity. Qed.

Lemma or_chain2 (a b d : JsVal) :
  js_or (js_or (Ok a) (Ok b)) (Ok d) = Ok (first_nonempty [a; b] d).
Proof.
  simpl. destruct (truthy a) eqn:Ha; simpl.
  - rewrite Ha. reflexivity.
  - destruct (truthy b); reflexivity.
Qed.

Lemma or_chain4 (a b c e d : JsVal) :
  js_or (js_or (js_or (js_or (Ok a) (Ok b)) (Ok c)) (Ok e)) (Ok d)
  = Ok (first_nonempty [a; b; c; e] d).
Proof.
  simpl. destruct (truthy a) eqn:Ha; simpl.
  - rewrite Ha. simpl. rewrite Ha. simpl. rewrite Ha. reflexivity.
  - destruct (truthy b) eqn:Hb; simpl.
    + rewrite Hb. simpl. rewrite Hb. reflexivity.
    + destruct (truthy c) eqn:Hc; simpl.
      * rewrite Hc. reflexivity.
      * destruct (truthy e); reflexivity.
Qed.

(** The creator expression of line 117. *)
Lemma creator_chain (apiData p d : JsVal) :
  js_or
    (js_or
       (js_and (js_and (Ok apiData) (get_prop apiData "creator"))
          (js_or (rbind (get_prop apiData "creator") (fun c => get_prop c "name"))
                 (rbind (get_prop apiData "creator") (fun c => get_prop c "creatorType"))))
       (Ok p))
    (Ok d)
  = Ok (first_nonempty
          [ field (field apiData "creator") "name";
            field (field apiData "creator") "creatorType"; p ] d).
Proof.
  destruct (truthy apiData) eqn:Ha.
  - rewrite (get_prop_field _ _ Ha). rewrite js_and_Ok, Ha.
    rewrite js_and_Ok. simpl rbind.
    destruct (truthy (field apiData "creator")) eqn:Hc.
    + rewrite !(get_prop_field _ _ Hc). rewrite js_or_Ok.
      destruct (truthy (field (field apiData "creator") "name")) eqn:Hn.
      * rewrite js_or_Ok, Hn, js_or_Ok, Hn. simpl. rewrite Hn. reflexivity.
      * rewrite or_chain2. simpl. rewrite Hn. reflexivity.
    + rewrite js_or_Ok, Hc. rewrite js_or_Ok.
      rewrite !(field_falsy _ _ Hc) by discriminate.
      simpl. destruct (truthy p); reflexivity.
  - rewrite js_and_Ok, Ha, js_and_Ok, Ha, js_or_Ok, Ha, js_or_Ok.
    assert (Hc : field apiData "creator" = JUndef)
      by (apply field_falsy; [assumption|discriminate]).
    rewrite Hc. simpl. destruct (truthy p); reflexivity.
Qed.

Lemma dflt_not_undef (v d : JsVal) : d <> JUndef -> dflt v d <> JUndef.
Proof. intros Hd. destruct v; simpl; try discriminate. exact Hd. Qed.

(** [normalizeRecord] never throws, and its record is the precedence table
    applied to the sources. *)
Lemma normalizeRecord_eq (now : string) (args : NormArgs) :
  normalizeRecord now args
  = Ok (canonical_record now
          (dflt (arg_apiData args) JNull) (dflt (arg_pageData args) JNull)
          (dflt (arg_url args) (JStr "")) (dflt (arg_placeId args) JNull)).
Proof.
  unfold normalizeRecord.
  set (apiData := dflt (arg_apiData args) JNull).
  set (pageData := dflt (arg_pageData args) JNull).
  set (url := dflt (arg_url args) (JStr "")).
  set (placeId := dflt (arg_placeId args) JNull).
  rewrite !opt_get_field.
  rewrite or_chain4, creator_chain, !or_chain2, !or_chain1.
  reflexivity.
Qed.

Lemma first_nonempty_default_or_nonempty (l : list JsVal) (d : JsVal) :
  first_nonempty l d = d \/ truthy (first_nonempty l d) = true.
Proof.
  induction l as [|v l IH]; simpl.
  - left. reflexivity.
  - destruct (truthy v) eqn:Hv; [right; exact Hv | exact IH].
Qed.

Lemma first_nonempty_never_zero (l : list JsVal) :
  first_nonempty l JNull <> JNum 0.
Proof.
  destruct (first_nonempty_default_or_nonempty l JNull) as [E|E];
    intros Hz; rewrite Hz in E; discriminate.
Qed.

(** ** Record Normalizer *)

(** C1.  [normalizeRecord] is total: for every [apiData] and [pageData]
    (null, an object, or anything else) it returns, without throwing, a
    record that holds each of the twelve canonical fields; its [url] is the
    call's [url] (the empty string when the caller gives none) and its
    [extracted_at] is the clock's reading. *)
Theorem normalizeRecord_total (now : string) (args : NormArgs) :
  exists fields,
    normalizeRecord now args = Ok (JObj fields)
    /\ Forall (fun k => exists v, lookup k fields = Some v) canonical_fields
    /\ lookup "url" fields = Some (dflt (arg_url args) (JStr ""))
    /\ dflt (arg_url args) (JStr "") <> JUndef
    /\ lookup "extracted_at" fields = Some (JStr now).
Proof.
  rewrite normalizeRecord_eq. unfold canonical_record.
  eexists. split; [reflexivity|]. split.
  - unfold canonical_fields.
    repeat (apply Forall_cons; [eexists; reflexivity|]). apply Forall_nil.
  - split; [reflexivity|]. split; [|reflexivity].
    apply dflt_not_undef. discriminate.
Qed.

(** C2 (as amended).  When [apiData.visits] is a value [||] does not skip
    (one that is not 0, '', false, null or undefined), the record's
    [visits] is [apiData.visits], whatever [pageData.visits] holds; and
    each of the ten merged fields is the first of its sources that [||]
    does not skip, in the order of the precedence table, or its default
    when [||] skips every source. *)
Theorem visits_precedence (now : string) (args : NormArgs) :
  let apiData := dflt (arg_apiData args) JNull in
  let pageData := dflt (arg_pageData args) JNull in
  let placeId := dflt (arg_placeId args) JNull in
  exists fields,
    normalizeRecord now args = Ok (JObj fields)
    /\ (non_empty (field apiData "visits") ->
        non_empty (field pageData "visits") ->
        lookup "visits" fields = Some (field apiData "visits"))
    /\ Forall (fun e => lookup (fst e) fields
                        = Some (first_nonempty (fst (snd e)) (snd (snd e))))
              (precedence apiData pageData placeId).
Proof.
  intros apiData pageData placeId.
  rewrite normalizeRecord_eq. fold apiData pageData placeId.
  unfold canonical_record.
  eexists. split; [reflexivity|]. split.
  - intros Ha _. unfold non_empty in Ha.
    change (Some (first_nonempty [field apiData "visits"; field pageData "visits"] JNull)
            = Some (field apiData "visits")).
    simpl. rewrite Ha. reflexivity.
  - unfold precedence.
    repeat (apply Forall_cons; [reflexivity|]). apply Forall_nil.
Qed.

Lemma visits_precedence_witness :
  non_empty (field (arg_apiData precedence_args) "visits")
  /\ non_empty (field (arg_pageData precedence_args) "visits")
  /\ exists fields,
       normalizeRecord "now" precedence_args = Ok (JObj fields)
       /\ lookup "visits" fields = Some (JNum 1000).
Proof.
  split; [reflexivity|]. split; [reflexivity|].
  destruct (visits_precedence "now" precedence_args) as [fields [Hr [Hv _]]].
  exists fields. split; [exact Hr|].
  apply Hv; reflexivity.
Defined.

(** Against C2 as the specification states it: [apiData.visits] is present
    and is the count 0, [pageData.visits] is present and is "5"; the
    record's [visits] is "5", not [apiData.visits]. *)
Lemma api_zero_visits_yields_to_page :
  lookup "visits" (own_props (arg_apiData zero_visits_args)) = Some (JNum 0)
  /\ lookup "visits" (own_props (arg_pageData zero_visits_args)) = Some (JStr "5")
  /\ rbind (normalizeRecord "2024-05-01T12:00:00.000Z" zero_visits_args)
           (fun r => Ok (field r "visits"))
     = Ok (JStr "5")
  /\ JStr "5" <> field (arg_apiData zero_visits_args) "visits".
Proof. repeat split; try reflexivity. discriminate. Qed.

(** C3.  [place_id] is the first non-empty of the [placeId] parameter,
    [apiData.rootPlaceId], [apiData.placeId] and [pageData.placeId], in this
    order, and null when all are empty; so a non-empty [placeId] parameter is
    the record's [place_id] whatever the API says. *)
Theorem place_id_precedence (now : string) (args : NormArgs) :
  let apiData := dflt (arg_apiData args) JNull in
  let pageData := dflt (arg_pageData args) JNull in
  exists fields,
    normalizeRecord now args = Ok (JObj fields)
    /\ lookup "place_id" fields
       = Some (first_nonempty
                 [ dflt (arg_placeId args) JNull; field apiData "rootPlaceId";
                   field apiData "placeId"; field pageData "placeId" ] JNull)
    /\ (non_empty (arg_placeId args) ->
        lookup "place_id" fields = Some (arg_placeId args)).
Proof.
  intros apiData pageData.
  rewrite normalizeRecord_eq. fold apiData pageData.
  unfold canonical_record.
  eexists. split; [reflexivity|]. split; [reflexivity|].
  intros Hp. unfold non_empty in Hp.
  change (Some (first_nonempty
                  [ dflt (arg_placeId args) JNull; field apiData "rootPlaceId";
                    field apiData "placeId"; field pageData "placeId" ] JNull)
          = Some (arg_placeId args)).
  assert (Hd : dflt (arg_placeId args) JNull = arg_placeId args)
    by (destruct (arg_placeId args); try reflexivity; discriminate).
  simpl. rewrite Hd, Hp. reflexivity.
Qed.

Lemma place_id_precedence_witness :
  non_empty (arg_placeId precedence_args)
  /\ field (arg_apiData precedence_args) "rootPlaceId" = JNum 1818
  /\ exists fields,
       normalizeRecord "now" precedence_args = Ok (JObj fields)
       /\ lookup "place_id" fields = Some (JStr "42").
Proof.
  split; [reflexivity|]. split; [reflexivity|].
  destruct (place_id_precedence "now" precedence_args) as [fields [Hr [_ Hp]]].
  exists fields. split; [exact Hr|].
  apply Hp. reflexivity.
Defined.

(** C9.  No numeric field of the record is ever the number 0: a source
    that supplies 0 for [visits], [favorites], [playing], [maxPlayers] or
    [price] is passed over, and the field is the other source's value when
    that one is non-empty, and null otherwise. *)
Theorem zero_is_erased (now : string) (args : NormArgs) :
  let apiData := dflt (arg_apiData args) JNull in
  let pageData := dflt (arg_pageData args) JNull in
  exists fields,
    normalizeRecord now args = Ok (JObj fields)
    /\ Forall (fun e =>
         let out := fst e in
         let api_key := fst (snd e) in
         let page_key := snd (snd e) in
         exists v,
           lookup out fields = Some v
           /\ v <> JNum 0
           /\ (field apiData api_key = JNum 0 ->
               v = first_nonempty [field pageData page_key] JNull)
           /\ (field pageData page_key = JNum 0 ->
               v = first_nonempty [field apiData api_key] JNull))
         numeric_fields.
Proof.
  intros apiData pageData.
  rewrite normalizeRecord_eq. fold apiData pageData.
  unfold canonical_record.
  eexists. split; [reflexivity|].
  unfold numeric_fields.
  repeat (apply Forall_cons;
          [ eexists; split; [reflexivity|]; split;
            [ apply first_nonempty_never_zero
            | split; intros Hz; simpl in *; rewrite Hz; simpl;
              [ reflexivity | destruct (truthy _); reflexivity ] ] |]).
  apply Forall_nil.
Qed.

(** ** Strings *)

Lemma append_assoc (a b c : string) : (a ++ b) ++ c = a ++ (b ++ c).
Proof. induction a as [|x a IH]; simpl; [reflexivity | now rewrite IH]. Qed.

Lemma append_empty_r (a : string) : a ++ "" = a.
Proof. induction a as [|x a IH]; simpl; [reflexivity | now rewrite IH]. Qed.

Lemma strip_prefix_append (p s : string) : strip_prefix p (p ++ s) = Some s.
Proof.
  induction p as [|x p IH]; simpl; [reflexivity|].
  rewrite Ascii.eqb_refl. exact IH.
Qed.

Lemma strip_prefix_Some (p s r : string) :
  strip_prefix p s = Some r -> s = p ++ r.
Proof.
  revert s. induction p as [|x p IH]; intros s Hs; simpl in *.
  - now inversion Hs.
  - destruct s as [|y s]; [discriminate|].
    destruct (Ascii.eqb_spec x y); [subst|discriminate].
    f_equal. now apply IH.
Qed.

Lemma digits_prefix_append (ds rest : string) :
  all_digits ds = true -> no_leading_digit rest = true ->
  digits_prefix (ds ++ rest) = ds.
Proof.
  intros Hd Hr. induction ds as [|c ds IH]; simpl in *.
  - destruct rest as [|c r]; [reflexivity|].
    simpl in Hr. apply negb_true_iff in Hr. simpl. now rewrite Hr.
  - apply andb_true_iff in Hd. destruct Hd as [Hc Hd].
    rewrite Hc. f_equal. now apply IH.
Qed.

Lemma digits_prefix_nonempty (s : string) :
  nonempty (digits_prefix s) = true <->
  exists d r, is_digit d = true /\ s = String d r.
Proof.
  split.
  - destruct s as [|c s]; simpl; [discriminate|].
    destruct (is_digit c) eqn:Hc; [|discriminate].
    intros _. now exists c, s.
  - intros [d [r [Hd ->]]]. simpl. now rewrite Hd.
Qed.

(** One step of the search of [match_lit_digits]. *)
Lemma match_lit_digits_step (lit s : string) :
  match_lit_digits lit s =
  match strip_prefix lit s with
  | Some rest =>
      if nonempty (digits_prefix rest) then Some (digits_prefix rest)
      else match s with
           | "" => None
           | String _ s' => match_lit_digits lit s'
           end
  | None => match s with
            | "" => None
            | String _ s' => match_lit_digits lit s'
            end
  end.
Proof.
  destruct s; simpl; destruct (strip_prefix lit _);
    try destruct (nonempty (digits_prefix _)); reflexivity.
Qed.

Lemma has_id_segment_tail (lit s : string) (c : ascii) :
  has_id_segment lit s -> has_id_segment lit (String c s).
Proof.
  intros [pre [d [rest [Hd ->]]]]. exists (String c pre), d, rest. now split.
Qed.

(** The regular expression finds nothing exactly when the path holds no
    such segment. *)
Lemma match_lit_digits_None (lit s : string) :
  match_lit_digits lit s = None <-> ~ has_id_segment lit s.
Proof.
  induction s as [|c s IH]; rewrite match_lit_digits_step.
  - split.
    + intros _ [pre [d [rest [_ E]]]].
      destruct pre; simpl in E; [destruct lit; simpl in E|]; discriminate.
    + intros _. destruct (strip_prefix lit "") as [r|] eqn:E; [|reflexivity].
      apply strip_prefix_Some in E. destruct lit; [|discriminate].
      simpl in E. subst r. reflexivity.
  - split.
    + intros Hn [pre [d [rest [Hd E]]]].
      destruct pre as [|x pre].
      * simpl in E. rewrite E, strip_prefix_append in Hn.
        simpl in Hn. rewrite Hd in Hn. simpl in Hn. discriminate.
      * simpl in E. inversion E; subst x s.
        assert (Hs : has_id_segment lit (pre ++ lit ++ String d rest))
          by (exists pre, d, rest; now split).
        apply IH in Hs; [exact Hs|].
        destruct (strip_prefix lit _); [destruct (nonempty _)|];
          try discriminate; exact Hn.
    + intros Hn.
      assert (Ht : match_lit_digits lit s = None).
      { apply IH. intros Hs. apply Hn. now apply has_id_segment_tail. }
      rewrite Ht.
      destruct (strip_prefix lit (String c s)) as [r|] eqn:E; [|reflexivity].
      destruct (nonempty (digits_prefix r)) eqn:Hr; [|reflexivity].
      exfalso. apply Hn. apply strip_prefix_Some in E.
      apply digits_prefix_nonempty in Hr. destruct Hr as [d [r' [Hd ->]]].
      exists "", d, r'. now split.
Qed.

Lemma append_split (x y a b : string) :
  x ++ y = a ++ b -> String.length a <= String.length x ->
  exists z, x = a ++ z /\ b = z ++ y.
Proof.
  revert x. induction a as [|c a IH]; intros x E Hl; simpl in *.
  - exists x. now split.
  - destruct x as [|d x]; simpl in *; [lia|].
    inversion E; subst d.
    destruct (IH x) as [z [-> ->]]; [assumption|lia|].
    exists z. now split.
Qed.

Lemma length_append (a b : string) :
  String.length (a ++ b) = String.length a + String.length b.
Proof. induction a as [|c a IH]; simpl; [reflexivity | now rewrite IH]. Qed.

Lemma append_inv_head (a b c : string) : a ++ b = a ++ c -> b = c.
Proof.
  induction a as [|x a IH]; simpl; intros E; [exact E|].
  inversion E. now apply IH.
Qed.

(** The first segment [lit<digits>] of a path is what the regular
    expression captures. *)
Lemma match_lit_digits_first (lit pre ds rest : string) :
  ~ has_id_segment lit (pre ++ lit) ->
  test_digits ds = true -> no_leading_digit rest = true ->
  match_lit_digits lit (pre ++ lit ++ ds ++ rest) = Some ds.
Proof.
  intros Hn Hds Hr. unfold test_digits in Hds.
  apply andb_true_iff in Hds. destruct Hds as [Hne Had].
  induction pre as [|c pre IH]; rewrite match_lit_digits_step.
  - simpl. rewrite strip_prefix_append.
    rewrite (digits_prefix_append _ _ Had Hr), Hne. reflexivity.
  - destruct (strip_prefix lit (String c pre ++ lit ++ ds ++ rest)) as [r|] eqn:E.
    + destruct (nonempty (digits_prefix r)) eqn:Hd.
      * exfalso. apply Hn.
        apply strip_prefix_Some in E.
        apply digits_prefix_nonempty in Hd. destruct Hd as [d [r' [Hd ->]]].
        rewrite <- (append_assoc (String c pre) lit (ds ++ rest)) in E.
        apply append_split in E.
        -- destruct E as [z [Ez Er]].
           destruct z as [|d' z].
           ++ rewrite append_empty_r in Ez.
              apply (f_equal String.length) in Ez.
              rewrite length_append in Ez. simpl in Ez. lia.
           ++ simpl in Er. inversion Er; subst d'.
              exists "", d, z. split; [assumption|]. exact Ez.
        -- rewrite length_append. simpl. lia.
      * simpl. apply IH.
        intros Hs. apply Hn. simpl. now apply has_id_segment_tail.
    + simpl. apply IH.
      intros Hs. apply Hn. simpl. now apply has_id_segment_tail.
Qed.

(** ** Identifier Resolver *)

Lemma searchParams_get_cases (name : string) (ps : list (string * string)) :
  searchParams_get name ps = JNull \/ exists q, searchParams_get name ps = JStr q.
Proof.
  induction ps as [|[k v] ps IH]; simpl; [now left|].
  destruct (String.eqb k name); [right; now exists v | exact IH].
Qed.

Section ResolverProperties.
Variable H : Host.

Lemma extractIdsFromUrl_parsed (url : string) (u : URL) :
  URL_new H url = Ok u ->
  extractIdsFromUrl H url =
  match match_lit_digits "/games/" (pathname u) with
  | Some m1 => Ok (ids_of m1)
  | None =>
      match searchParams_get "id" (searchParams u) with
      | JStr q =>
          if test_digits q then Ok (ids_of q)
          else match match_lit_digits "/places/" (pathname u) with
               | Some m2 => Ok (ids_of m2)
               | None => Ok (JObj [])
               end
      | _ => match match_lit_digits "/places/" (pathname u) with
             | Some m2 => Ok (ids_of m2)
             | None => Ok (JObj [])
             end
      end
  end.
Proof.
  intros Hu. unfold extractIdsFromUrl, extractIds_try. rewrite Hu. simpl.
  destruct (match_lit_digits "/games/" (pathname u)); [reflexivity|].
  destruct (searchParams_get_cases "id" (searchParams u)) as [E|[q E]];
    rewrite E; simpl.
  - destruct (match_lit_digits "/places/" (pathname u)); reflexivity.
  - unfold test_digits, nonempty.
    destruct (String.eqb q "") eqn:Hq; simpl; rewrite ?Hq; simpl.
    + destruct (match_lit_digits "/places/" (pathname u)); reflexivity.
    + destruct (all_digits q); simpl; [reflexivity|].
      destruct (match_lit_digits "/places/" (pathname u)); reflexivity.
Qed.

(** C4.  On a URL that parses: (a) the first [/games/<digits>] segment of
    the path is the place id, whatever the query and the rest of the path
    hold; (b) without such a segment, an all-digits [id] query parameter is
    the place id, whatever the path holds; (c) without either, the first
    [/places/<digits>] segment of the path is the place id. *)
Theorem extractIdsFromUrl_precedence (url : string) (u : URL) :
  URL_new H url = Ok u ->
  (forall pre ds rest,
      pathname u = pre ++ "/games/" ++ ds ++ rest ->
      ~ has_id_segment "/games/" (pre ++ "/games/") ->
      test_digits ds = true -> no_leading_digit rest = true ->
      extractIdsFromUrl H url = Ok (ids_of ds))
  /\ (forall ds,
      ~ has_id_segment "/games/" (pathname u) ->
      searchParams_get "id" (searchParams u) = JStr ds ->
      test_digits ds = true ->
      extractIdsFromUrl H url = Ok (ids_of ds))
  /\ (forall pre ds rest,
      ~ has_id_segment "/games/" (pathname u) ->
      (forall q, searchParams_get "id" (searchParams u) = JStr q ->
                 test_digits q = false) ->
      pathname u = pre ++ "/places/" ++ ds ++ rest ->
      ~ has_id_segment "/places/" (pre ++ "/places/") ->
      test_digits ds = true -> no_leading_digit rest = true ->
      extractIdsFromUrl H url = Ok (ids_of ds)).
Proof.
  intros Hu. rewrite (extractIdsFromUrl_parsed _ _ Hu).
  split; [|split].
  - intros pre ds rest Hp Hfirst Hds Hrest.
    rewrite Hp, (match_lit_digits_first _ _ _ _ Hfirst Hds Hrest). reflexivity.
  - intros ds Hg Hq Hds.
    apply match_lit_digits_None in Hg. rewrite Hg, Hq, Hds. reflexivity.
  - intros pre ds rest Hg Hq Hp Hfirst Hds Hrest.
    apply match_lit_digits_None in Hg. rewrite Hg.
    assert (Hm : match_lit_digits "/places/" (pathname u) = Some ds)
      by (rewrite Hp; now apply match_lit_digits_first).
    rewrite Hm.
    destruct (searchParams_get "id" (searchParams u)) eqn:E; try reflexivity.
    rewrite (Hq s eq_refl). reflexivity.
Qed.

(** C5.  [extractIdsFromUrl] never throws, and on a text the URL parser
    rejects it returns the empty object, which has no [placeId]. *)
Theorem extractIdsFromUrl_never_throws (url : string) :
  (exists ids, extractIdsFromUrl H url = Ok ids)
  /\ (forall e, URL_new H url = Throw e ->
                extractIdsFromUrl H url = Ok (JObj [])
                /\ get_prop (JObj []) "placeId" = Ok JUndef).
Proof.
  split.
  - destruct (URL_new H url) as [u|e] eqn:Hu.
    + rewrite (extractIdsFromUrl_parsed _ _ Hu).
      repeat match goal with
             | |- context [match ?x with _ => _ end] => destruct x
             end; eexists; reflexivity.
    + unfold extractIdsFromUrl, extractIds_try. rewrite Hu. simpl.
      eexists; reflexivity.
  - intros e Hu. unfold extractIdsFromUrl, extractIds_try. rewrite Hu.
    split; reflexivity.
Qed.

End ResolverProperties.

Lemma extractIdsFromUrl_precedence_witness :
  extractIdsFromUrl (example_host (Ok tt) (Ok tt)) mixed_url = Ok (ids_of "7")
  /\ extractIdsFromUrl (example_host (Ok tt) (Ok tt)) query_url = Ok (ids_of "99")
  /\ extractIdsFromUrl (example_host (Ok tt) (Ok tt)) place_url = Ok (ids_of "5").
Proof.
  pose (h := example_host (Ok tt) (Ok tt)).
  assert (Hnone : forall lit s, match_lit_digits lit s = None -> ~ has_id_segment lit s)
    by (intros lit s; apply match_lit_digits_None).
  split; [|split].
  - refine (proj1 (extractIdsFromUrl_precedence h mixed_url _ eq_refl)
              "/places/5" "7" "/x" eq_refl _ eq_refl eq_refl).
    apply Hnone. reflexivity.
  - refine (proj1 (proj2 (extractIdsFromUrl_precedence h query_url _ eq_refl))
              "99" _ eq_refl eq_refl).
    apply Hnone. reflexivity.
  - refine (proj2 (proj2 (extractIdsFromUrl_precedence h place_url _ eq_refl))
              "" "5" "" _ _ eq_refl _ eq_refl eq_refl).
    + apply Hnone. reflexivity.
    + intros q Hq. inversion Hq. reflexivity.
    + apply Hnone. reflexivity.
Defined.

Lemma extractIdsFromUrl_never_throws_witness :
  URL_new (example_host (Ok tt) (Ok tt)) "games/1818" = Throw (TypeError "Invalid URL")
  /\ extractIdsFromUrl (example_host (Ok tt) (Ok tt)) "games/1818" = Ok (JObj []).
Proof.
  split; [reflexivity|].
  exact (proj1 (proj2 (extractIdsFromUrl_never_throws
                         (example_host (Ok tt) (Ok tt)) "games/1818")
                 (TypeError "Invalid URL") eq_refl)).
Defined.

(** ** Embedded-Data Extractor *)

Lemma first_parsed_append (H : Host) (a b : list string) :
  first_parsed H (a ++ b)
  = match first_ok H a with
    | Some j => j
    | None => first_parsed H b
    end.
Proof.
  induction a as [|t a IH]; simpl; [reflexivity|].
  destruct (JSON_parse H t); [reflexivity | exact IH].
Qed.

Lemma trim_keeps_brace (t : string) : startsWith "{" (trim (String "{" t)) = true.
Proof.
  unfold trim. simpl skip_ws. simpl trim_end.
  destruct (trim_end t); reflexivity.
Qed.

Lemma strip_final_semicolon_brace (t : string) :
  exists t', strip_final_semicolon (String "{" t) = String "{" t'.
Proof. destruct t; simpl; eexists; reflexivity. Qed.

Lemma match_assignment_brace (r m2 : string) :
  match_assignment r = Some m2 -> exists t, m2 = String "{" t.
Proof.
  unfold match_assignment.
  destruct (skip_ws r) as [|c r1]; [discriminate|].
  destruct (Ascii.eqb c ":" || Ascii.eqb c "="); [|discriminate].
  destruct (skip_ws r1) as [|b body]; [discriminate|].
  destruct (Ascii.eqb b "{"); [|discriminate].
  destruct (match_object_tail body) as [t|]; [|discriminate].
  intros E. inversion E. now exists t.
Qed.

Lemma match_embed_here_brace (tokens : list string) (s m2 : string) :
  match_embed_here tokens s = Some m2 -> exists t, m2 = String "{" t.
Proof.
  induction tokens as [|tok tokens IH]; simpl; [discriminate|].
  destruct (strip_prefix_ci tok s) as [r|]; [|exact IH].
  destruct (match_assignment r) as [m|] eqn:E; [|exact IH].
  intros E'. inversion E'; subst m. exact (match_assignment_brace _ _ E).
Qed.

Lemma match_embed_brace (s m2 : string) :
  match_embed s = Some m2 -> exists t, m2 = String "{" t.
Proof.
  induction s as [|c s IH].
  - discriminate.
  - change (match_embed (String c s))
      with (match match_embed_here embed_tokens (String c s) with
            | Some m => Some m
            | None => match_embed s
            end).
    destruct (match_embed_here embed_tokens (String c s)) as [m|] eqn:E; [|exact IH].
    intros E'. inversion E'; subst m. exact (match_embed_here_brace _ _ _ E).
Qed.

(** Every text the extractor parses begins, after trimming, with an opening
    brace. *)
Lemma candidates_brace (s t : string) :
  In t (candidates s) -> startsWith "{" (trim t) = true.
Proof.
  unfold candidates. destruct (nonempty s); [|intros []].
  intros Hin. apply in_app_or in Hin. destruct Hin as [Hin|Hin].
  - destruct (match_embed s) as [m2|] eqn:E; [|destruct Hin].
    destruct (match_embed_brace _ _ E) as [t0 ->].
    destruct Hin as [<-|[<-|[]]].
    + apply trim_keeps_brace.
    + destruct (strip_final_semicolon_brace t0) as [t' ->].
      apply trim_keeps_brace.
  - destruct (startsWith "{" (trim s)) eqn:Hs; simpl in Hin; [|destruct Hin].
    destruct (includes ld_marker s); simpl in Hin; [|destruct Hin].
    destruct Hin as [<-|[]]. exact Hs.
Qed.

Section ExtractorProperties.
Variable H : Host.

Lemma parse_script_eq (s : string) :
  parse_script H s = Ok (first_ok H (candidates s)).
Proof.
  unfold parse_script, candidates, parse_assignment, parse_ld_json.
  destruct (nonempty s); simpl; [|reflexivity].
  destruct (match_embed s) as [m2|]; simpl.
  - destruct (JSON_parse H m2); simpl; [reflexivity|].
    destruct (JSON_parse H (strip_final_semicolon m2)); simpl; [reflexivity|].
    destruct (startsWith "{" (trim s) && includes ld_marker s); simpl; [|reflexivity].
    destruct (JSON_parse H s); reflexivity.
  - destruct (startsWith "{" (trim s) && includes ld_marker s); simpl; [|reflexivity].
    destruct (JSON_parse H s); reflexivity.
Qed.

Lemma parse_scripts_eq (scripts : list string) :
  parse_scripts H scripts = Ok (first_parsed H (flat_map candidates scripts)).
Proof.
  induction scripts as [|s scripts IH]; simpl; [reflexivity|].
  rewrite parse_script_eq, first_parsed_append. simpl.
  destruct (first_ok H (candidates s)); [reflexivity | exact IH].
Qed.

Lemma first_parsed_object (texts : list string) :
  (forall t j, JSON_parse H t = Ok j -> startsWith "{" (trim t) = true ->
               exists ps, j = JObj ps) ->
  (forall t, In t texts -> startsWith "{" (trim t) = true) ->
  first_parsed H texts = JNull \/ exists ps, first_parsed H texts = JObj ps.
Proof.
  intros Hobj. induction texts as [|t texts IH]; intros Hb; simpl; [now left|].
  destruct (JSON_parse H t) as [j|e] eqn:E.
  - right. apply (Hobj t j E). apply Hb. now left.
  - apply IH. intros t' Ht'. apply Hb. now right.
Qed.

(** C6.  [parseEmbeddedJson] never throws: it returns what the first text
    that [JSON.parse] accepts parses to, the texts being those of the
    script blocks in document order (within a block: the assigned object
    literal, the same without a final semicolon, the whole block when it
    is an ld+json object), and null when no text parses.  With a parser
    that reads a text beginning with a brace as an object, the result is an
    object or null. *)
Theorem parseEmbeddedJson_first_parsed (scripts : list string) :
  parseEmbeddedJson H scripts = Ok (first_parsed H (flat_map candidates scripts))
  /\ ((forall t j, JSON_parse H t = Ok j -> startsWith "{" (trim t) = true ->
                   exists ps, j = JObj ps) ->
      parseEmbeddedJson H scripts = Ok JNull
      \/ exists ps, parseEmbeddedJson H scripts = Ok (JObj ps)).
Proof.
  unfold parseEmbeddedJson. rewrite parse_scripts_eq.
  split; [reflexivity|].
  intros Hobj.
  destruct (first_parsed_object (flat_map candidates scripts) Hobj) as [E|[ps E]].
  - intros t Ht. apply in_flat_map in Ht. destruct Ht as [s [_ Ht]].
    exact (candidates_brace _ _ Ht).
  - left. now rewrite E.
  - right. exists ps. now rewrite E.
Qed.

End ExtractorProperties.

Lemma example_JSON_parse_object (t : string) (j : JsVal) :
  example_JSON_parse t = Ok j -> exists ps, j = JObj ps.
Proof.
  unfold example_JSON_parse.
  destruct (String.eqb t state_text); [intros E; inversion E; eexists; reflexivity|].
  destruct (String.eqb t ld_text); [intros E; inversion E; eexists; reflexivity|].
  discriminate.
Qed.

Lemma parseEmbeddedJson_first_parsed_witness :
  parseEmbeddedJson (example_host (Ok tt) (Ok tt)) example_scripts = Ok state_object
  /\ (parseEmbeddedJson (example_host (Ok tt) (Ok tt)) example_scripts = Ok JNull
      \/ exists ps,
           parseEmbeddedJson (example_host (Ok tt) (Ok tt)) example_scripts
           = Ok (JObj ps)).
Proof.
  destruct (parseEmbeddedJson_first_parsed (example_host (Ok tt) (Ok tt)) example_scripts)
    as [Hfirst Hobj].
  split.
  - rewrite Hfirst. reflexivity.
  - apply Hobj. intros t j Hj _. exact (example_JSON_parse_object t j Hj).
Defined.

(** ** The handlers' monad *)

Lemma mtry_default {A} (body : M A) (a0 : A) :
  exists v, mtry body (fun _ => mret a0) = (Ok v, snd body).
Proof.
  destruct body as [[a|e] t]; simpl.
  - now exists a.
  - exists a0. now rewrite app_nil_r.
Qed.

Lemma all_mbind {A B} (P : Event -> bool) (m : M A) (f : A -> M B) :
  forallb P (snd m) = true ->
  (forall a, forallb P (snd (f a)) = true) ->
  forallb P (snd (mbind m f)) = true.
Proof.
  intros Hm Hf. destruct m as [[a|e] t]; simpl in *; [|exact Hm].
  specialize (Hf a). destruct (f a) as [r t']. simpl in *.
  rewrite forallb_app, Hm, Hf. reflexivity.
Qed.

Ltac all_events :=
  repeat first
    [ apply all_mbind; [|intros]
    | reflexivity
    | match goal with
      | |- context [if ?c then _ else _] => destruct c
      end ].

Lemma lift_Ok {A} (a : A) : lift (Ok a) = (Ok a, []).
Proof. reflexivity. Qed.

Lemma call_lift_Ok {A} (f : Fn) (a : A) : call f (lift (Ok a)) = (Ok a, [Call f]).
Proof. reflexivity. Qed.

Ltac run := rewrite ?call_lift_Ok, ?lift_Ok; cbn [mbind].

Lemma pipeline_app (a b : Trace) : pipeline (a ++ b)%list = (pipeline a ++ pipeline b)%list.
Proof.
  induction a as [|e a IH]; simpl; [reflexivity|].
  destruct (component_of e); simpl; now rewrite IH.
Qed.

Lemma pushed_app (a b : Trace) : pushed (a ++ b)%list = (pushed a ++ pushed b)%list.
Proof.
  induction a as [|e a IH]; simpl; [reflexivity|].
  destruct e; simpl; now rewrite IH.
Qed.

Lemma fetch_events_pipeline (t : Trace) : forallb is_fetch t = true -> pipeline t = [].
Proof.
  induction t as [|e t IH]; simpl; [reflexivity|].
  destruct e; simpl; try discriminate. exact IH.
Qed.

Lemma fetch_events_api (t : Trace) :
  forallb is_fetch t = true -> forallb is_api_event t = true.
Proof.
  induction t as [|e t IH]; simpl; [reflexivity|].
  destruct e; simpl; try discriminate. exact IH.
Qed.

Lemma api_events_pushed (t : Trace) : forallb is_api_event t = true -> pushed t = [].
Proof.
  induction t as [|e t IH]; simpl; [reflexivity|].
  destruct e as [f| | | | | | |]; try destruct f; simpl;
    try discriminate; try exact IH.
Qed.

Lemma api_events_pipeline (t : Trace) :
  forallb is_api_event t = true -> Forall (eq ApiClient) (pipeline t).
Proof.
  induction t as [|e t IH]; simpl; [constructor|].
  destruct e; simpl; try discriminate; try exact IH.
  destruct f; simpl; try discriminate; intros Ht; constructor; auto.
Qed.

Lemma api_events_quiet (t : Trace) :
  forallb is_api_event t = true ->
  existsb is_warning t = false /\ existsb is_setValue t = false.
Proof.
  induction t as [|e t IH]; simpl; [now split|].
  destruct e as [f| | | | | | |]; try destruct f; simpl;
    try discriminate; try exact IH.
Qed.

(** ** API Client and handlers *)

Section HandlerProperties.
Variable H : Host.

Lemma fetchByPlaceId_shape (p : JsVal) :
  exists v t, fetchRobloxGameApiByPlaceId H p = (Ok v, t)
              /\ forallb is_fetch t = true.
Proof.
  unfold fetchRobloxGameApiByPlaceId.
  match goal with |- context [mtry ?b _] => destruct (mtry_default b JNull) as [v ->]; exists v end.
  eexists. split; [reflexivity|].
  unfold await_fetch. all_events.
Qed.

Lemma fetchByUniverseId_shape (p : JsVal) :
  exists v t, fetchRobloxGameApiByUniverseId H p = (Ok v, t)
              /\ forallb is_fetch t = true.
Proof.
  unfold fetchRobloxGameApiByUniverseId.
  match goal with |- context [mtry ?b _] => destruct (mtry_default b JNull) as [v ->]; exists v end.
  eexists. split; [reflexivity|].
  unfold await_fetch. all_events.
Qed.


Lemma api_by_place_shape (cfg : Config) (p : JsVal) :
  exists v t, api_by_place H cfg p = (Ok v, t)
              /\ forallb is_api_event t = true
              /\ pipeline t = (if useApi cfg && truthy p then [ApiClient] else [])
              /\ (useApi cfg = false -> t = []).
Proof.
  unfold api_by_place, call.
  destruct (useApi cfg); simpl.
  - destruct (truthy p).
    + destruct (fetchByPlaceId_shape p) as [v [t [-> Ht]]].
      exists v. eexists. split; [reflexivity|]. simpl.
      rewrite (fetch_events_api _ Ht), (fetch_events_pipeline _ Ht).
      repeat split. discriminate.
    + exists JNull, []. repeat split.
  - exists JNull, []. repeat split.
Qed.

(** Lines 169-172 of [cheerioHandler]: the lookup by universe id. *)
Lemma api_by_universe_shape (cfg : Config) (apiData pageJson : JsVal) :
  exists again, 
    js_and (js_and (js_and (js_and (Ok (JBool (negb (truthy apiData))))
                                   (Ok (JBool (useApi cfg))))
                           (Ok pageJson))
                   (get_prop pageJson "universeId"))
           (Ok (JBool (checkPlaceDetails cfg))) = Ok again
    /\ exists v t,
         (if truthy again
          then mbind (lift (get_prop pageJson "universeId")) (fun universeId =>
                 call F_fetchRobloxGameApiByUniverseId
                   (fetchRobloxGameApiByUniverseId H universeId))
          else mret apiData) = (Ok v, t)
         /\ forallb is_api_event t = true
         /\ (useApi cfg = false -> t = [] /\ v = apiData)
         /\ (truthy apiData = true -> t = [] /\ v = apiData).
Proof.
  assert (Hskip : exists v t, mret apiData = (Ok v, t)
                    /\ forallb is_api_event t = true
                    /\ (useApi cfg = false -> t = [] /\ v = apiData)
                    /\ (truthy apiData = true -> t = [] /\ v = apiData))
    by (exists apiData, []; repeat split).
  unfold js_and at 1 2 3 4. simpl.
  destruct (truthy apiData) eqn:Ha; simpl.
  { exists (JBool false). split; [reflexivity|]. exact Hskip. }
  destruct (useApi cfg) eqn:Hu; simpl.
  2:{ exists (JBool false). split; [reflexivity|]. exact Hskip. }
  destruct (truthy pageJson) eqn:Hp; simpl.
  2:{ rewrite Hp. exists pageJson. split; [reflexivity|]. rewrite Hp. exact Hskip. }
  rewrite (get_prop_field _ _ Hp). simpl.
  destruct (truthy (field pageJson "universeId")) eqn:Hf.
  2:{ exists (field pageJson "universeId"). split; [reflexivity|].
      rewrite Hf. exact Hskip. }
  simpl.
  exists (JBool (checkPlaceDetails cfg)). split; [reflexivity|].
  destruct (checkPlaceDetails cfg); simpl; [|exact Hskip].
  unfold call, lift. simpl.
  destruct (fetchByUniverseId_shape (field pageJson "universeId")) as [v [t [-> Ht]]].
  exists v. eexists. split; [reflexivity|]. simpl.
  rewrite (fetch_events_api _ Ht). repeat split; discriminate.
Qed.

Lemma save_raw_run (placeId : JsVal) (url : string) (value : JsVal) :
  save_raw H placeId url value =
  (Ok tt,
   match kv_key H placeId url with
   | Ok key =>
       SetValue key value ::
       match kv_setValue H key value with
       | Ok _ => []
       | Throw _ => [LogWarning "Failed to save raw JSON to KV" url]
       end
   | Throw _ => [LogWarning "Failed to save raw JSON to KV" url]
   end).
Proof.
  unfold save_raw, await_setValue, mtry, mbind, lift, emit.
  destruct (kv_key H placeId url) as [key|e]; [|reflexivity].
  destruct (kv_setValue H key value) as [[]|e]; reflexivity.
Qed.


Lemma extractIdsFromUrl_object (url : string) :
  exists ps, extractIdsFromUrl H url = Ok (JObj ps).
Proof.
  destruct (URL_new H url) as [u|e] eqn:Hu.
  - rewrite (extractIdsFromUrl_parsed _ _ _ Hu). unfold ids_of.
    repeat match goal with
           | |- context [match ?x with _ => _ end] => destruct x
           end; eexists; reflexivity.
  - unfold extractIdsFromUrl, extractIds_try. rewrite Hu. simpl.
    eexists; reflexivity.
Qed.

Lemma wait_run (r : Result unit) :
  mtry (mbind (emit WaitForLoadState) (fun _ => lift r)) (fun _ => mret tt)
  = (Ok tt, [WaitForLoadState]).
Proof. destruct r as [[]|e]; reflexivity. Qed.

Lemma rendered_name_ok (page : RenderedPage) :
  exists name,
    js_or (js_or (try_catch (rbind (page_title page) (fun t => Ok (JStr t)))
                            (fun _ => Ok (JStr "")))
                 (try_catch (rbind (h1_innerText page) (fun t => Ok (JStr t)))
                            (fun _ => Ok (JStr ""))))
          (Ok (JStr "")) = Ok name.
Proof.
  destruct (page_title page) as [t|e]; destruct (h1_innerText page) as [h|e'];
    simpl; unfold js_or; simpl;
    repeat match goal with
           | |- context [if ?c then _ else _] => destruct c; simpl
           end; eexists; reflexivity.
Qed.

Lemma rendered_playing_ok (page : RenderedPage) :
  exists playing,
    try_catch
      (rbind (try_catch (players_innerText page) (fun _ => Ok ""))
         (fun playingText =>
            if nonempty playingText then Ok (JStr (digits_only playingText))
            else Ok JNull))
      (fun _ => Ok JNull) = Ok playing.
Proof.
  destruct (players_innerText page) as [t|e]; simpl.
  - destruct (nonempty t); eexists; reflexivity.
  - eexists; reflexivity.
Qed.

Lemma await_pushData_run (record : JsVal) :
  await_pushData H record
  = (match dataset_pushData H record with
     | Ok _ => Ok tt
     | Throw e => Throw e
     end, [PushData record]).
Proof.
  unfold await_pushData, emit, lift, mbind.
  destruct (dataset_pushData H record) as [[]|e]; reflexivity.
Qed.

Lemma await_enqueueLinks_run (outcome : Result unit) :
  await_enqueueLinks outcome
  = (match outcome with
     | Ok _ => Ok tt
     | Throw e => Throw e
     end, [EnqueueLinks]).
Proof. destruct outcome as [[]|e]; reflexivity. Qed.

Lemma playwrightHandler_run (cfg : Config) (ctx : PlaywrightCtx) :
  let url := request_url (p_request ctx) in
  exists placeId apiData name playing t_api,
    forallb is_api_event t_api = true
    /\ pipeline t_api = (if useApi cfg && truthy placeId then [ApiClient] else [])
    /\ let pageData := JObj [("name", name); ("playing", playing)] in
       let record :=
         canonical_record (Date_toISOString H) (dflt apiData JNull) pageData
           (JStr url) (dflt placeId JNull) in
       playwrightHandler H cfg ctx =
       match p_enqueueLinks ctx with
       | Throw e =>
           (Throw e, [LogInfo "Processing (playwright)" url; WaitForLoadState; EnqueueLinks])
       | Ok _ =>
           let t1 := (t_api ++ [Call F_normalizeRecord; PushData record])%list in
           let head t :=
             LogInfo "Processing (playwright)" url :: WaitForLoadState
               :: EnqueueLinks :: Call F_extractIdsFromUrl :: t in
           match dataset_pushData H record with
           | Throw e => (Throw e, head t1)
           | Ok _ =>
               (Ok tt,
                head (t1 ++ snd (save_raw H placeId url
                                   (JObj [("url", JStr url); ("apiData", apiData);
                                          ("pageData", pageData)])))%list)
           end
       end.
Proof.
  intros url. unfold playwrightHandler. fold url.
  destruct (extractIdsFromUrl_object url) as [ps Hids].
  set (placeId := first_nonempty [field (JObj ps) "placeId"] JNull).
  destruct (rendered_name_ok (p_page ctx)) as [name Hname].
  destruct (rendered_playing_ok (p_page ctx)) as [playing Hplaying].
  destruct (api_by_place_shape cfg placeId) as [apiData [t_api [Hapi [Hev [Hpipe _]]]]].
  exists placeId, apiData, name, playing, t_api.
  split; [exact Hev|]. split; [exact Hpipe|].
  unfold emit at 1. cbn [mbind].
  rewrite wait_run. cbn [mbind].
  rewrite await_enqueueLinks_run.
  destruct (p_enqueueLinks ctx) as [[]|e]; [|reflexivity].
  cbn [mbind]. rewrite Hids. run.
  replace (js_or (get_prop (JObj ps) "placeId") (Ok JNull)) with (Ok placeId)
    by (rewrite (get_prop_field (JObj ps) "placeId" eq_refl), or_chain1; reflexivity).
  run. rewrite Hname. run. rewrite Hplaying. run.
  rewrite Hapi. cbn [mbind].
  rewrite normalizeRecord_eq. cbn [arg_apiData arg_pageData arg_url arg_placeId].
  run. rewrite await_pushData_run, save_raw_run.
  cbn [dflt snd].
  destruct (dataset_pushData H _) as [[]|e]; cbn [mbind app]; rewrite <- ?app_assoc;
    reflexivity.
Qed.

Lemma static_name_ok (page : StaticPage) :
  exists name,
    js_or (js_or (Ok (JStr (trim (h1_text page)))) (Ok (opt_str (og_title page))))
          (Ok (JStr "")) = Ok name.
Proof. rewrite or_chain2. eexists; reflexivity. Qed.

Lemma cheerioHandler_run (cfg : Config) (ctx : CheerioCtx) :
  let url := request_url (c_request ctx) in
  let pageJson := first_parsed H (flat_map candidates (scripts (c_page ctx))) in
  exists placeId apiData pd_name visits t_api,
    forallb is_api_event t_api = true
    /\ (useApi cfg = false -> t_api = [])
    /\ let pageData :=
         JObj (assign [("name", pd_name);
                       ("visits", if truthy apiData then field apiData "visits"
                                  else visits)]
                      (own_props pageJson)) in
       let record :=
         canonical_record (Date_toISOString H) (dflt apiData JNull) pageData
           (JStr url) (dflt placeId JNull) in
       cheerioHandler H cfg ctx =
       match c_enqueueLinks ctx with
       | Throw e => (Throw e, [LogInfo "Processing (cheerio)" url; EnqueueLinks])
       | Ok _ =>
           let t1 := (t_api ++ [Call F_normalizeRecord; PushData record])%list in
           let head t :=
             LogInfo "Processing (cheerio)" url :: EnqueueLinks
               :: Call F_extractIdsFromUrl :: Call F_parseEmbeddedJson :: t in
           match dataset_pushData H record with
           | Throw e => (Throw e, head t1)
           | Ok _ =>
               (Ok tt,
                head (t1 ++ snd (save_raw H placeId url
                                   (JObj [("url", JStr url); ("apiData", apiData);
                                          ("pageJson", pageJson)])))%list)
           end
       end.
Proof.
  intros url pageJson. unfold cheerioHandler. fold url.
  destruct (extractIdsFromUrl_object url) as [ps Hids].
  set (placeId := first_nonempty [field (JObj ps) "placeId"] JNull).
  destruct (static_name_ok (c_page ctx)) as [name Hname].
  destruct (api_by_place_shape cfg placeId) as [api1 [t1 [Hapi1 [Hev1 [_ Hoff1]]]]].
  destruct (api_by_universe_shape cfg api1 pageJson)
    as [again [Hagain [apiData [t2 [Hapi2 [Hev2 [Hoff2 _]]]]]]].
  set (visits :=
         if nonempty (trim (first_text (filter (fun t => has_digit (trim t))
                                               (stat_texts (c_page ctx)))))
         then JStr (digits_only (trim (first_text
                      (filter (fun t => has_digit (trim t)) (stat_texts (c_page ctx))))))
         else JNull).
  exists placeId, apiData,
    (first_nonempty [name; field pageJson "name"] (JStr "")), visits, (t1 ++ t2)%list.
  split; [rewrite forallb_app, Hev1, Hev2; reflexivity|].
  split.
  { intros Hoff. destruct (Hoff2 Hoff) as [-> _]. now rewrite (Hoff1 Hoff). }
  unfold emit at 1. cbn [mbind].
  rewrite await_enqueueLinks_run.
  destruct (c_enqueueLinks ctx) as [[]|e]; [|reflexivity].
  cbn [mbind]. rewrite Hids. run.
  replace (js_or (get_prop (JObj ps) "placeId") (Ok JNull)) with (Ok placeId)
    by (rewrite (get_prop_field (JObj ps) "placeId" eq_refl), or_chain1; reflexivity).
  run. unfold parseEmbeddedJson. rewrite parse_scripts_eq. fold pageJson.
  run. rewrite Hname. run.
  rewrite Hapi1. cbn [mbind]. rewrite Hagain. run.
  rewrite Hapi2. cbn [mbind].
  rewrite opt_get_field, or_chain2. run.
  replace (if truthy apiData then get_prop apiData "visits" else Ok visits)
    with (Ok (if truthy apiData then field apiData "visits" else visits)).
  2:{ destruct (truthy apiData) eqn:Ha; [|reflexivity].
      now rewrite (get_prop_field _ _ Ha). }
  run.
  rewrite normalizeRecord_eq. cbn [arg_apiData arg_pageData arg_url arg_placeId].
  run. rewrite await_pushData_run, save_raw_run.
  cbn [dflt snd].
  destruct (dataset_pushData H _) as [[]|e]; cbn [mbind app]; rewrite <- ?app_assoc;
    reflexivity.
Qed.


Lemma save_raw_pipeline (placeId : JsVal) (url : string) (value : JsVal) :
  Forall (eq Sink) (pipeline (snd (save_raw H placeId url value)))
  /\ pushed (snd (save_raw H placeId url value)) = [].
Proof.
  rewrite save_raw_run. simpl.
  destruct (kv_key H placeId url) as [key|e]; simpl; [|split; [constructor|reflexivity]].
  destruct (kv_setValue H key value); simpl; split;
    repeat constructor.
Qed.

(** C7 (as amended).  Both handlers run the Resolver, then the API Client
    (not at all when [useApi] is off), then the Normalizer, then the Sink;
    the static handler runs the Extractor between the Resolver and the API
    Client, and the rendered handler never runs it: the page fragment it
    gives to the Normalizer is [{ name, playing }]. *)
Theorem handlers_pipeline (cfg : Config) :
  (forall ctx,
      fst (cheerioHandler H cfg ctx) = Ok tt ->
      exists apis sinks,
        pipeline (snd (cheerioHandler H cfg ctx))
        = (Resolver :: Extractor :: apis ++ Normalizer :: Sink :: sinks)%list
        /\ Forall (eq ApiClient) apis /\ Forall (eq Sink) sinks
        /\ (useApi cfg = false -> apis = []))
  /\ (forall ctx,
      fst (playwrightHandler H cfg ctx) = Ok tt ->
      exists apis sinks,
        pipeline (snd (playwrightHandler H cfg ctx))
        = (Resolver :: apis ++ Normalizer :: Sink :: sinks)%list
        /\ Forall (eq ApiClient) apis /\ Forall (eq Sink) sinks
        /\ (useApi cfg = false -> apis = []))
  /\ (forall ctx, ~ In Extractor (pipeline (snd (playwrightHandler H cfg ctx))))
  /\ (forall ctx r,
      In r (pushed (snd (playwrightHandler H cfg ctx))) ->
      exists name playing,
        field r "raw_page" = JObj [("name", name); ("playing", playing)]).
Proof.
  split; [|split; [|split]].
  - intros ctx Hok.
    destruct (cheerioHandler_run cfg ctx)
      as [placeId [apiData [pd_name [visits [t_api [Hev [Hoff E]]]]]]].
    cbv zeta in E. rewrite E in Hok |- *. clear E.
    destruct (c_enqueueLinks ctx) as [[]|e]; [|discriminate].
    destruct (dataset_pushData H _) as [[]|e]; [|discriminate].
    exists (pipeline t_api). eexists.
    split; [|split; [|split]].
    + cbn [snd pipeline component_of]. rewrite !pipeline_app.
      cbn [pipeline component_of]. rewrite <- app_assoc. reflexivity.
    + now apply api_events_pipeline.
    + apply save_raw_pipeline.
    + intros Hu. now rewrite (Hoff Hu).
  - intros ctx Hok.
    destruct (playwrightHandler_run cfg ctx)
      as [placeId [apiData [name [playing [t_api [Hev [Hpipe E]]]]]]].
    cbv zeta in E. rewrite E in Hok |- *. clear E.
    destruct (p_enqueueLinks ctx) as [[]|e]; [|discriminate].
    destruct (dataset_pushData H _) as [[]|e]; [|discriminate].
    exists (pipeline t_api). eexists.
    split; [|split; [|split]].
    + cbn [snd pipeline component_of]. rewrite !pipeline_app.
      cbn [pipeline component_of]. rewrite <- app_assoc. reflexivity.
    + now apply api_events_pipeline.
    + apply save_raw_pipeline.
    + intros Hu. rewrite Hpipe, Hu. reflexivity.
  - intros ctx.
    destruct (playwrightHandler_run cfg ctx)
      as [placeId [apiData [name [playing [t_api [Hev [Hpipe E]]]]]]].
    cbv zeta in E. rewrite E. clear E.
    assert (Hapis : ~ In Extractor (pipeline t_api)).
    { intros Hin. pose proof (api_events_pipeline _ Hev) as Hall.
      rewrite Forall_forall in Hall. specialize (Hall _ Hin). discriminate. }
    assert (Hs : forall p u v, ~ In Extractor (pipeline (snd (save_raw H p u v)))).
    { intros p u v Hin. destruct (save_raw_pipeline p u v) as [Hall _].
      rewrite Forall_forall in Hall. specialize (Hall _ Hin). discriminate. }
    destruct (p_enqueueLinks ctx) as [[]|e]; [destruct (dataset_pushData H _) as [[]|e]|];
      cbn [snd pipeline component_of]; rewrite ?pipeline_app;
      cbn [pipeline component_of]; intros Hin;
      repeat match type of Hin with
             | In _ (_ :: _) => destruct Hin as [Hin|Hin]; [discriminate|]
             | In _ (_ ++ _)%list =>
                 apply in_app_or in Hin; destruct Hin as [Hin|Hin]
             | In _ [] => destruct Hin
             | In _ (pipeline t_api) => exact (Hapis Hin)
             | In _ (pipeline (snd _)) => exact (Hs _ _ _ Hin)
             end.
  - intros ctx r Hin.
    destruct (playwrightHandler_run cfg ctx)
      as [placeId [apiData [name [playing [t_api [Hev [Hpipe E]]]]]]].
    cbv zeta in E. rewrite E in Hin. clear E.
    exists name, playing.
    destruct (p_enqueueLinks ctx) as [[]|e]; [|destruct Hin].
    destruct (dataset_pushData H _) as [[]|e];
      cbn [snd pushed] in Hin; rewrite ?pushed_app in Hin;
      rewrite (api_events_pushed _ Hev) in Hin; cbn [pushed app] in Hin.
    + match type of Hin with
      | context [save_raw H ?p ?u ?v] =>
          destruct (save_raw_pipeline p u v) as [_ Hp]; rewrite Hp in Hin
      end.
      destruct Hin as [<-|[]]. reflexivity.
    + destruct Hin as [<-|[]]. reflexivity.
Qed.


Lemma save_raw_warns (placeId : JsVal) (url : string) (value : JsVal) :
  (forall k v, exists e, kv_setValue H k v = Throw e) ->
  In (LogWarning "Failed to save raw JSON to KV" url)
     (snd (save_raw H placeId url value)).
Proof.
  intros Hkv. rewrite save_raw_run. simpl.
  destruct (kv_key H placeId url) as [key|e]; [|now left].
  destruct (Hkv key value) as [e ->]. right. now left.
Qed.

(** C8 (as amended).  In both handlers, once [enqueueLinks] has returned:
    when the dataset append of the record succeeds the handler completes
    normally whatever the key-value write does, and a failing key-value
    write leaves the warning in the log; when the dataset append fails the
    handler fails with that error, logs no warning and does not attempt the
    key-value write. *)
Theorem sink_write_failures (cfg : Config) :
  (forall ctx,
      c_enqueueLinks ctx = Ok tt ->
      (forall r, In r (pushed (snd (cheerioHandler H cfg ctx))) ->
                 dataset_pushData H r = Ok tt) ->
      fst (cheerioHandler H cfg ctx) = Ok tt
      /\ ((forall k v, exists e, kv_setValue H k v = Throw e) ->
          In (LogWarning "Failed to save raw JSON to KV" (request_url (c_request ctx)))
             (snd (cheerioHandler H cfg ctx))))
  /\ (forall ctx,
      p_enqueueLinks ctx = Ok tt ->
      (forall r, In r (pushed (snd (playwrightHandler H cfg ctx))) ->
                 dataset_pushData H r = Ok tt) ->
      fst (playwrightHandler H cfg ctx) = Ok tt
      /\ ((forall k v, exists e, kv_setValue H k v = Throw e) ->
          In (LogWarning "Failed to save raw JSON to KV" (request_url (p_request ctx)))
             (snd (playwrightHandler H cfg ctx))))
  /\ (forall ctx e,
      c_enqueueLinks ctx = Ok tt ->
      (forall r, In r (pushed (snd (cheerioHandler H cfg ctx))) ->
                 dataset_pushData H r = Throw e) ->
      fst (cheerioHandler H cfg ctx) = Throw e
      /\ existsb is_warning (snd (cheerioHandler H cfg ctx)) = false
      /\ existsb is_setValue (snd (cheerioHandler H cfg ctx)) = false)
  /\ (forall ctx e,
      p_enqueueLinks ctx = Ok tt ->
      (forall r, In r (pushed (snd (playwrightHandler H cfg ctx))) ->
                 dataset_pushData H r = Throw e) ->
      fst (playwrightHandler H cfg ctx) = Throw e
      /\ existsb is_warning (snd (playwrightHandler H cfg ctx)) = false
      /\ existsb is_setValue (snd (playwrightHandler H cfg ctx)) = false).
Proof.
  split; [|split; [|split]].
  - intros ctx Henq Hpush.
    destruct (cheerioHandler_run cfg ctx)
      as [placeId [apiData [pd_name [visits [t_api [Hev [Hoff E]]]]]]].
    cbv zeta in E. rewrite E, Henq in Hpush |- *. clear E.
    destruct (dataset_pushData H _) as [[]|e] eqn:Hd.
    + split; [reflexivity|]. intros Hkv. cbn [snd].
      do 4 right. apply in_or_app. right.
      now apply save_raw_warns.
    + exfalso. cbn [snd pushed] in Hpush. rewrite pushed_app in Hpush.
      rewrite Hpush in Hd; [discriminate|].
      apply in_or_app. right. now left.
  - intros ctx Henq Hpush.
    destruct (playwrightHandler_run cfg ctx)
      as [placeId [apiData [name [playing [t_api [Hev [Hpipe E]]]]]]].
    cbv zeta in E. rewrite E, Henq in Hpush |- *. clear E.
    destruct (dataset_pushData H _) as [[]|e] eqn:Hd.
    + split; [reflexivity|]. intros Hkv. cbn [snd].
      do 4 right. apply in_or_app. right.
      now apply save_raw_warns.
    + exfalso. cbn [snd pushed] in Hpush. rewrite pushed_app in Hpush.
      rewrite Hpush in Hd; [discriminate|].
      apply in_or_app. right. now left.
  - intros ctx e Henq Hpush.
    destruct (cheerioHandler_run cfg ctx)
      as [placeId [apiData [pd_name [visits [t_api [Hev [Hoff E]]]]]]].
    cbv zeta in E. rewrite E, Henq in Hpush |- *. clear E.
    destruct (api_events_quiet _ Hev) as [Hw Hs].
    destruct (dataset_pushData H _) as [[]|e'] eqn:Hd;
      cbn [snd pushed] in Hpush; rewrite ?pushed_app in Hpush;
      rewrite Hpush in Hd
        by (rewrite ?in_app_iff; cbn [pushed In]; tauto).
    + discriminate.
    + inversion Hd; subst e'.
      cbn [fst snd existsb is_warning is_setValue orb].
      rewrite !existsb_app, Hw, Hs. repeat split.
  - intros ctx e Henq Hpush.
    destruct (playwrightHandler_run cfg ctx)
      as [placeId [apiData [name [playing [t_api [Hev [Hpipe E]]]]]]].
    cbv zeta in E. rewrite E, Henq in Hpush |- *. clear E.
    destruct (api_events_quiet _ Hev) as [Hw Hs].
    destruct (dataset_pushData H _) as [[]|e'] eqn:Hd;
      cbn [snd pushed] in Hpush; rewrite ?pushed_app in Hpush;
      rewrite Hpush in Hd
        by (rewrite ?in_app_iff; cbn [pushed In]; tauto).
    + discriminate.
    + inversion Hd; subst e'.
      cbn [fst snd existsb is_warning is_setValue orb].
      rewrite !existsb_app, Hw, Hs. repeat split.
Qed.

End HandlerProperties.

(** ** Object literals with a spread *)

Lemma lookup_set_prop (k k' : string) (v : JsVal) (ps : Props) :
  lookup k (set_prop k' v ps) = if String.eqb k k' then Some v else lookup k ps.
Proof.
  induction ps as [|[k0 v0] ps IH]; simpl.
  - destruct (String.eqb k k'); reflexivity.
  - destruct (String.eqb_spec k' k0) as [->|Hne]; simpl.
    + destruct (String.eqb k k0); reflexivity.
    + destruct (String.eqb_spec k k0) as [->|Hne'].
      * destruct (String.eqb_spec k0 k'); [congruence | reflexivity].
      * exact IH.
Qed.

(** A key the spread does not have keeps the value written before it. *)
Lemma lookup_assign_absent (k : string) (more base : Props) :
  lookup k more = None -> lookup k (assign base more) = lookup k base.
Proof.
  unfold assign. revert base.
  induction more as [|[k1 v1] more IH]; intros base Hk; simpl in *; [reflexivity|].
  destruct (String.eqb k k1) eqn:E; [discriminate|].
  rewrite (IH _ Hk), lookup_set_prop, E. reflexivity.
Qed.

(** A key the spread has takes the spread's value. *)
Lemma lookup_assign_present (k : string) (v : JsVal) (more base : Props) :
  NoDup (map fst more) -> lookup k more = Some v ->
  lookup k (assign base more) = Some v.
Proof.
  unfold assign. revert base.
  induction more as [|[k1 v1] more IH]; intros base Hnd Hk; simpl in *; [discriminate|].
  inversion Hnd as [|? ? Hnotin Hnd']; subst.
  destruct (String.eqb_spec k k1) as [->|Hne].
  - inversion Hk; subst v1.
    assert (Habs : lookup k1 more = None).
    { clear -Hnotin. induction more as [|[k2 v2] more IH]; simpl in *; [reflexivity|].
      destruct (String.eqb_spec k1 k2) as [->|Hne]; [exfalso; apply Hnotin; now left|].
      apply IH. intros Hin. apply Hnotin. now right. }
    change (lookup k1 (assign (set_prop k1 v base) more) = Some v).
    rewrite (lookup_assign_absent _ _ _ Habs), lookup_set_prop, String.eqb_refl.
    reflexivity.
  - now apply IH.
Qed.

Lemma field_object (ps : Props) (k : string) :
  field (JObj ps) k = match lookup k ps with Some v => v | None => JUndef end.
Proof. simpl. destruct (lookup k ps); reflexivity. Qed.

Lemma first_nonempty_single (a : JsVal) :
  truthy (first_nonempty [a] JNull) = true -> first_nonempty [a] JNull = a.
Proof. simpl. destruct (truthy a); [reflexivity | discriminate]. Qed.

Section StaticModeProperties.
Variable H : Host.

(** C10 (as amended).  In static mode, on a record given to the dataset
    whose [raw_api] is non-empty: when the embedded JSON has no [visits]
    property of its own, [raw_page.visits] is [raw_api.visits]; when it has
    one, [raw_page.visits] is that embedded value. *)
Theorem raw_page_visits (cfg : Config) (ctx : CheerioCtx) (r : JsVal) :
  let pageJson := first_parsed H (flat_map candidates (scripts (c_page ctx))) in
  In r (pushed (snd (cheerioHandler H cfg ctx))) ->
  non_empty (field r "raw_api") ->
  (lookup "visits" (own_props pageJson) = None ->
   field (field r "raw_page") "visits" = field (field r "raw_api") "visits")
  /\ (forall v, NoDup (map fst (own_props pageJson)) ->
                lookup "visits" (own_props pageJson) = Some v ->
                field (field r "raw_page") "visits" = v).
Proof.
  intros pageJson Hin Hapi.
  destruct (cheerioHandler_run H cfg ctx)
    as [placeId [apiData [pd_name [visits [t_api [Hev [Hoff E]]]]]]].
  cbv zeta in E. fold pageJson in E. rewrite E in Hin. clear E.
  assert (Hr : r = canonical_record (Date_toISOString H) (dflt apiData JNull)
                     (JObj (assign [("name", pd_name);
                                    ("visits", if truthy apiData
                                               then field apiData "visits" else visits)]
                                   (own_props pageJson)))
                     (JStr (request_url (c_request ctx))) (dflt placeId JNull)).
  { destruct (c_enqueueLinks ctx) as [[]|e]; [|destruct Hin].
    destruct (dataset_pushData H _) as [[]|e];
      cbn [snd pushed] in Hin; rewrite ?pushed_app in Hin;
      rewrite (api_events_pushed _ Hev) in Hin; cbn [pushed app] in Hin.
    - destruct (save_raw_pipeline H placeId (request_url (c_request ctx))
                  (JObj [("url", JStr (request_url (c_request ctx)));
                         ("apiData", apiData); ("pageJson", pageJson)])) as [_ Hp].
      rewrite Hp in Hin. destruct Hin as [<-|[]]. reflexivity.
    - destruct Hin as [<-|[]]. reflexivity. }
  subst r. unfold non_empty in Hapi.
  change (truthy (first_nonempty [dflt apiData JNull] JNull) = true) in Hapi.
  change (field (canonical_record _ _ ?p _ _) "raw_api")
    with (first_nonempty [dflt apiData JNull] JNull).
  rewrite (first_nonempty_single _ Hapi).
  apply first_nonempty_single in Hapi as Heq. rewrite Heq in Hapi.
  assert (Ha : dflt apiData JNull = apiData /\ truthy apiData = true).
  { destruct apiData; simpl in *; try discriminate; now split. }
  destruct Ha as [Hd Ha]. rewrite Hd.
  match goal with
  | |- context [field (canonical_record ?n ?a ?p ?u ?i) "raw_page"] =>
      change (field (canonical_record n a p u i) "raw_page")
        with (first_nonempty [p] JNull)
  end.
  cbn [first_nonempty truthy]. rewrite Ha.
  split.
  - intros Habs. rewrite field_object, (lookup_assign_absent _ _ _ Habs). reflexivity.
  - intros v Hnd Hv. rewrite field_object, (lookup_assign_present _ _ _ _ Hnd Hv).
    reflexivity.
Qed.

End StaticModeProperties.

(** ** The handlers on the example pages *)

(** Against C7 as the specification states it: on the same URL, with the
    same API answer, the rendered handler completes without running the
    Extractor, which the static handler runs. *)
Lemma rendered_mode_skips_extractor :
  fst example_rendered_run = Ok tt
  /\ pipeline (snd example_rendered_run)
     = [Resolver; ApiClient; Normalizer; Sink; Sink]
  /\ ~ In Extractor (pipeline (snd example_rendered_run))
  /\ pipeline (snd example_static_run)
     = [Resolver; Extractor; ApiClient; Normalizer; Sink; Sink].
Proof.
  split; [reflexivity|]. split; [reflexivity|]. split; [|reflexivity].
  vm_compute. intuition discriminate.
Qed.

Lemma handlers_pipeline_witness :
  fst example_static_run = Ok tt
  /\ fst example_rendered_run = Ok tt
  /\ (exists apis sinks,
        pipeline (snd example_static_run)
        = (Resolver :: Extractor :: apis ++ Normalizer :: Sink :: sinks)%list
        /\ Forall (eq ApiClient) apis /\ Forall (eq Sink) sinks
        /\ (useApi example_cfg = false -> apis = []))
  /\ (exists apis sinks,
        pipeline (snd example_rendered_run)
        = (Resolver :: apis ++ Normalizer :: Sink :: sinks)%list
        /\ Forall (eq ApiClient) apis /\ Forall (eq Sink) sinks
        /\ (useApi example_cfg = false -> apis = [])).
Proof.
  split; [reflexivity|]. split; [reflexivity|].
  destruct (handlers_pipeline (example_host (Ok tt) (Ok tt)) example_cfg)
    as [Hstatic [Hrendered [_ _]]].
  split.
  - exact (Hstatic example_static_ctx eq_refl).
  - exact (Hrendered example_rendered_ctx eq_refl).
Defined.

(** Against C8 as the specification states it, for the dataset append:
    when [dataset.pushData] rejects, either handler fails with that error
    and logs no warning. *)
Lemma dataset_failure_is_not_swallowed :
  fst (cheerioHandler dataset_down example_cfg example_static_ctx)
  = Throw (HostError "dataset unavailable")
  /\ existsb is_warning (snd (cheerioHandler dataset_down example_cfg example_static_ctx))
     = false
  /\ fst (playwrightHandler dataset_down example_cfg example_rendered_ctx)
     = Throw (HostError "dataset unavailable")
  /\ existsb is_warning
       (snd (playwrightHandler dataset_down example_cfg example_rendered_ctx))
     = false.
Proof. repeat split; reflexivity. Qed.

Lemma sink_write_failures_witness :
  (fst (cheerioHandler store_down example_cfg example_static_ctx) = Ok tt
   /\ In (LogWarning "Failed to save raw JSON to KV" game_url)
         (snd (cheerioHandler store_down example_cfg example_static_ctx)))
  /\ (fst (playwrightHandler store_down example_cfg example_rendered_ctx) = Ok tt
      /\ In (LogWarning "Failed to save raw JSON to KV" game_url)
            (snd (playwrightHandler store_down example_cfg example_rendered_ctx)))
  /\ (fst (cheerioHandler dataset_down example_cfg example_static_ctx)
      = Throw (HostError "dataset unavailable")
      /\ existsb is_setValue
           (snd (cheerioHandler dataset_down example_cfg example_static_ctx)) = false)
  /\ (fst (playwrightHandler dataset_down example_cfg example_rendered_ctx)
      = Throw (HostError "dataset unavailable")
      /\ existsb is_setValue
           (snd (playwrightHandler dataset_down example_cfg example_rendered_ctx)) = false).
Proof.
  destruct (sink_write_failures store_down example_cfg) as [Hc [Hp _]].
  destruct (sink_write_failures dataset_down example_cfg) as [_ [_ [Hc' Hp']]].
  assert (Hstore : forall (k : string) (v : JsVal),
             exists e, kv_setValue store_down k v = Throw e)
    by (intros k v; eexists; reflexivity).
  split; [|split; [|split]].
  - destruct (Hc example_static_ctx eq_refl (fun _ _ => eq_refl)) as [Hok Hwarn].
    split; [exact Hok | exact (Hwarn Hstore)].
  - destruct (Hp example_rendered_ctx eq_refl (fun _ _ => eq_refl)) as [Hok Hwarn].
    split; [exact Hok | exact (Hwarn Hstore)].
  - destruct (Hc' example_static_ctx (HostError "dataset unavailable")
                eq_refl (fun _ _ => eq_refl)) as [Hfail [_ Hnone]].
    split; [exact Hfail | exact Hnone].
  - destruct (Hp' example_rendered_ctx (HostError "dataset unavailable")
                eq_refl (fun _ _ => eq_refl)) as [Hfail [_ Hnone]].
    split; [exact Hfail | exact Hnone].
Defined.

(** Against C10 as stated: the API answered with an object whose [visits]
    is 1000, the embedded JSON has [visits] 7, and the page fragment stored
    as [raw_page] has [visits] 7. *)
Lemma embedded_visits_override_api :
  fst example_static_run = Ok tt
  /\ map (fun r => field r "raw_api") (pushed (snd example_static_run)) = [api_object]
  /\ field api_object "visits" = JNum 1000
  /\ map (fun r => field (field r "raw_page") "visits") (pushed (snd example_static_run))
     = [JNum 7]
  /\ JNum 7 <> field api_object "visits".
Proof. repeat split; try reflexivity. discriminate. Qed.

Lemma raw_page_visits_witness :
  (exists r,
      In r (pushed (snd example_ld_run))
      /\ non_empty (field r "raw_api")
      /\ field (field r "raw_api") "visits" = JNum 1000
      /\ field (field r "raw_page") "visits" = JNum 1000)
  /\ (exists r,
      In r (pushed (snd example_static_run))
      /\ non_empty (field r "raw_api")
      /\ field (field r "raw_page") "visits" = JNum 7).
Proof.
  split.
  - exists (nth 0 (pushed (snd example_ld_run)) JNull).
    assert (Hin : In (nth 0 (pushed (snd example_ld_run)) JNull)
                     (pushed (snd example_ld_run))) by (left; reflexivity).
    assert (Hapi : non_empty (field (nth 0 (pushed (snd example_ld_run)) JNull) "raw_api"))
      by reflexivity.
    split; [exact Hin|]. split; [exact Hapi|]. split; [reflexivity|].
    destruct (raw_page_visits (example_host (Ok tt) (Ok tt)) example_cfg example_ld_ctx
                _ Hin Hapi) as [Habsent _].
    rewrite (Habsent eq_refl). reflexivity.
  - exists (nth 0 (pushed (snd example_static_run)) JNull).
    assert (Hin : In (nth 0 (pushed (snd example_static_run)) JNull)
                     (pushed (snd example_static_run))) by (left; reflexivity).
    assert (Hapi : non_empty
                     (field (nth 0 (pushed (snd example_static_run)) JNull) "raw_api"))
      by reflexivity.
    split; [exact Hin|]. split; [exact Hapi|].
    destruct (raw_page_visits (example_host (Ok tt) (Ok tt)) example_cfg example_static_ctx
                _ Hin Hapi) as [_ Hpresent].
    apply Hpresent; [|reflexivity].
    repeat constructor; simpl; intuition discriminate.
Defined.

(** ** Scenarios of the specification, evaluated *)

Example normalizeRecord_both_null :
  normalizeRecord "2024-05-01T12:00:00.000Z"
    {| arg_apiData := JNull; arg_pageData := JNull;
       arg_url := JStr plain_url; arg_placeId := JNull |}
  = Ok (JObj [ ("experience_id", JNull); ("place_id", JNull); ("name", JStr "");
               ("creator", JStr ""); ("visits", JNull); ("favorites", JNull);
               ("playing", JNull); ("maxPlayers", JNull); ("price", JNull);
               ("genre", JStr ""); ("url", JStr plain_url); ("raw_api", JNull);
               ("raw_page", JNull);
               ("extracted_at", JStr "2024-05-01T12:00:00.000Z") ]).
Proof. reflexivity. Qed.

Example normalizeRecord_api_scenario :
  let api := JObj [ ("rootPlaceId", JNum 1818); ("universeId", JNum 999);
                    ("name", JStr "Adventure Forward"); ("visits", JNum 1000000) ] in
  rbind (normalizeRecord "2024-05-01T12:00:00.000Z"
           {| arg_apiData := api; arg_pageData := JNull;
              arg_url := JStr game_url; arg_placeId := JStr "1818" |})
        (fun r => Ok [ field r "place_id"; field r "experience_id"; field r "name";
                       field r "visits"; field r "raw_api" ])
  = Ok [ JStr "1818"; JNum 999; JStr "Adventure Forward"; JNum 1000000; api ].
Proof. reflexivity. Qed.

Example normalizeRecord_zero_players :
  rbind (normalizeRecord "2024-05-01T12:00:00.000Z"
           {| arg_apiData := JObj [("playing", JNum 0); ("price", JNum 0)];
              arg_pageData := JObj [("playing", JStr "12")];
              arg_url := JStr game_url; arg_placeId := JUndef |})
        (fun r => Ok [field r "playing"; field r "price"])
  = Ok [JStr "12"; JNull].
Proof. reflexivity. Qed.

Example resolver_game_url :
  extractIdsFromUrl (example_host (Ok tt) (Ok tt)) game_url = Ok (ids_of "1818").
Proof. reflexivity. Qed.

Example resolver_no_identifier :
  extractIdsFromUrl (example_host (Ok tt) (Ok tt)) plain_url = Ok (JObj []).
Proof. reflexivity. Qed.

Example extractor_initial_state :
  rbind (parseEmbeddedJson (example_host (Ok tt) (Ok tt)) example_scripts)
        (fun j => Ok (field j "universeId"))
  = Ok (JNum 123).
Proof. reflexivity. Qed.

Example rendered_playing_digits :
  map (fun r => field r "playing") (pushed (snd example_rendered_run)) = [JStr "1234"].
Proof. reflexivity. Qed.

(** * Further properties of the code *)

(** * Further properties of the code *)

(** ** Identifier Resolver: what it returns *)

Lemma digits_prefix_split (s : string) :
  exists rest,
    s = digits_prefix s ++ rest
    /\ all_digits (digits_prefix s) = true
    /\ no_leading_digit rest = true.
Proof.
  induction s as [|c s IH]; simpl.
  - exists "". repeat split.
  - destruct (is_digit c) eqn:Hc.
    + destruct IH as [rest [E [Hd Hr]]].
      exists rest. simpl. rewrite Hc, Hd. repeat split; [|assumption].
      now rewrite <- E.
    + exists (String c s). simpl. rewrite Hc. repeat split.
Qed.

Lemma has_id_segment_cons (lit s : string) (c : ascii) :
  has_id_segment lit (String c s) ->
  (exists d r, is_digit d = true /\ String c s = lit ++ String d r)
  \/ has_id_segment lit s.
Proof.
  intros [pre [d [rest [Hd E]]]].
  destruct pre as [|x pre]; simpl in E.
  - left. now exists d, rest.
  - right. inversion E. exists pre, d, rest. now split.
Qed.

(** What the regular expression captures: the longest run of digits after
    the first place where [lit] is followed by a digit. *)
Lemma match_lit_digits_Some (lit s ds : string) :
  match_lit_digits lit s = Some ds ->
  test_digits ds = true
  /\ exists pre rest,
       s = pre ++ lit ++ ds ++ rest
       /\ no_leading_digit rest = true
       /\ ~ has_id_segment lit (pre ++ lit).
Proof.
  assert (Hhere : forall s r,
             strip_prefix lit s = Some r -> nonempty (digits_prefix r) = true ->
             test_digits (digits_prefix r) = true
             /\ exists pre rest,
                  s = pre ++ lit ++ digits_prefix r ++ rest
                  /\ no_leading_digit rest = true
                  /\ ~ has_id_segment lit (pre ++ lit)).
  { intros s0 r E Hne.
    destruct (digits_prefix_split r) as [rest [Er [Hd Hr]]].
    split; [unfold test_digits; now rewrite Hne, Hd|].
    exists "", rest. split; [|split; [exact Hr|]].
    - simpl. rewrite <- Er. now apply strip_prefix_Some.
    - simpl. intros [pre [d [r' [_ E']]]].
      apply (f_equal String.length) in E'.
      rewrite !length_append in E'. simpl in E'. lia. }
  induction s as [|c s IH]; rewrite match_lit_digits_step; intros Hm.
  - destruct (strip_prefix lit "") as [r|] eqn:E; [|discriminate].
    destruct (nonempty (digits_prefix r)) eqn:Hne; [|discriminate].
    inversion Hm; subst ds. now apply Hhere.
  - assert (Htail : match_lit_digits lit s = Some ds ->
              (forall d r, is_digit d = true -> String c s <> lit ++ String d r) ->
              test_digits ds = true
              /\ exists pre rest,
                   String c s = pre ++ lit ++ ds ++ rest
                   /\ no_leading_digit rest = true
                   /\ ~ has_id_segment lit (pre ++ lit)).
    { intros Hs Hnot. destruct (IH Hs) as [Hd [pre [rest [E [Hr Hn]]]]].
      split; [exact Hd|]. exists (String c pre), rest.
      split; [simpl; now rewrite <- E|]. split; [exact Hr|].
      intros Hseg. simpl in Hseg. apply has_id_segment_cons in Hseg.
      destruct Hseg as [[d [r [Hdig E']]]|Hseg]; [|exact (Hn Hseg)].
      apply (Hnot d (r ++ ds ++ rest) Hdig).
      rewrite E, <- (append_assoc pre lit (ds ++ rest)).
      change (String c ((pre ++ lit) ++ ds ++ rest))
        with (String c (pre ++ lit) ++ ds ++ rest).
      rewrite E', append_assoc. reflexivity. }
    destruct (strip_prefix lit (String c s)) as [r|] eqn:E.
    + destruct (nonempty (digits_prefix r)) eqn:Hne.
      * inversion Hm; subst ds. now apply Hhere.
      * apply Htail; [exact Hm|]. intros d r' Hd E'.
        rewrite E', strip_prefix_append in E. inversion E; subst r.
        simpl in Hne. rewrite Hd in Hne. discriminate.
    + apply Htail; [exact Hm|]. intros d r' Hd E'.
      rewrite E', strip_prefix_append in E. discriminate.
Qed.

Section ResolverResults.
Variable H : Host.

Lemma extractIdsFromUrl_shape (url : string) :
  exists ids,
    extractIdsFromUrl H url = Ok ids
    /\ (ids = JObj []
        \/ exists ds, ids = JObj [("placeId", JStr ds)] /\ test_digits ds = true).
Proof.
  destruct (URL_new H url) as [u|e] eqn:Hu.
  - rewrite (extractIdsFromUrl_parsed _ _ _ Hu). unfold ids_of.
    destruct (match_lit_digits "/games/" (pathname u)) as [m1|] eqn:Hg.
    { eexists. split; [reflexivity|]. right. exists m1.
      split; [reflexivity|]. now apply match_lit_digits_Some in Hg. }
    assert (Hplaces :
      exists ids,
        match match_lit_digits "/places/" (pathname u) with
        | Some m2 => Ok (JObj [("placeId", JStr m2)])
        | None => Ok (JObj [])
        end = Ok ids
        /\ (ids = JObj []
            \/ exists ds, ids = JObj [("placeId", JStr ds)] /\ test_digits ds = true)).
    { destruct (match_lit_digits "/places/" (pathname u)) as [m2|] eqn:Hp.
      - eexists. split; [reflexivity|]. right. exists m2.
        split; [reflexivity|]. now apply match_lit_digits_Some in Hp.
      - eexists. split; [reflexivity|]. now left. }
    destruct (searchParams_get "id" (searchParams u)) as [| | | |q| |]; try exact Hplaces.
    destruct (test_digits q) eqn:Hq; [|exact Hplaces].
    eexists. split; [reflexivity|]. right. now exists q.
  - unfold extractIdsFromUrl, extractIds_try. rewrite Hu. simpl.
    eexists. split; [reflexivity|]. now left.
Qed.

(** X1.  Whatever the URL, [extractIdsFromUrl] returns either the empty
    object or an object whose only property is [placeId], a non-empty string
    of decimal digits. *)
Theorem extractIdsFromUrl_digits (url : string) :
  exists ids,
    extractIdsFromUrl H url = Ok ids
    /\ (ids = JObj []
        \/ exists ds, ids = JObj [("placeId", JStr ds)] /\ test_digits ds = true).
Proof. exact (extractIdsFromUrl_shape url). Qed.

(** X2.  On a URL that parses, the result is the empty object exactly when
    the path holds no [/games/<digit>], the [id] parameter is not a
    non-empty string of digits, and the path holds no [/places/<digit>]. *)
Theorem extractIdsFromUrl_empty_iff (url : string) (u : URL) :
  URL_new H url = Ok u ->
  (extractIdsFromUrl H url = Ok (JObj [])
   <-> (~ has_id_segment "/games/" (pathname u)
        /\ (forall q, searchParams_get "id" (searchParams u) = JStr q ->
                      test_digits q = false)
        /\ ~ has_id_segment "/places/" (pathname u))).
Proof.
  intros Hu. rewrite (extractIdsFromUrl_parsed _ _ _ Hu). unfold ids_of.
  rewrite <- !match_lit_digits_None.
  destruct (match_lit_digits "/games/" (pathname u)) as [m1|].
  { split; [discriminate | intros [Hg _]; discriminate]. }
  assert (Hplaces :
    match match_lit_digits "/places/" (pathname u) with
    | Some m2 => Ok (JObj [("placeId", JStr m2)])
    | None => Ok (JObj [])
    end = Ok (JObj [])
    <-> match_lit_digits "/places/" (pathname u) = None).
  { destruct (match_lit_digits "/places/" (pathname u));
      split; intros E; try discriminate; reflexivity. }
  destruct (searchParams_get "id" (searchParams u)) as [| | | |q| |] eqn:Hq;
    try (rewrite Hplaces; split;
         [ intros Hp; split; [reflexivity|]; split;
           [intros q0 E; discriminate E | exact Hp]
         | intros [_ [_ Hp]]; exact Hp ]).
  destruct (test_digits q) eqn:Hd.
  - split; [discriminate|].
    intros [_ [Hid _]]. specialize (Hid q eq_refl). congruence.
  - rewrite Hplaces. split.
    + intros Hp. split; [reflexivity|]. split; [|exact Hp].
      intros q0 E. inversion E; subst q0. exact Hd.
    + intros [_ [_ Hp]]. exact Hp.
Qed.

End ResolverResults.

Lemma extractIdsFromUrl_empty_iff_witness :
  extractIdsFromUrl (example_host (Ok tt) (Ok tt)) plain_url = Ok (JObj [])
  /\ ~ has_id_segment "/games/" "/discover"
  /\ ~ has_id_segment "/places/" "/discover".
Proof.
  destruct (extractIdsFromUrl_empty_iff (example_host (Ok tt) (Ok tt)) plain_url _ eq_refl)
    as [Hto _].
  destruct (Hto eq_refl) as [Hg [_ Hp]].
  split; [reflexivity|]. split; [exact Hg | exact Hp].
Defined.

(** ** Embedded-Data Extractor: what the regular expression captures *)

Lemma split_at (n : nat) (s : string) :
  n <= String.length s ->
  s = substring 0 n s ++ substring n (String.length s - n) s
  /\ String.length (substring 0 n s) = n.
Proof.
  revert s. induction n as [|n IH]; intros s Hn.
  - rewrite Nat.sub_0_r. split.
    + assert (Hfull : forall t, substring 0 (String.length t) t = t)
        by (intros t; induction t as [|c t IHt]; simpl; [reflexivity | now rewrite IHt]).
      rewrite Hfull. destruct s; reflexivity.
    + destruct s; reflexivity.
  - destruct s as [|c s]; simpl in Hn; [lia|].
    destruct (IH s) as [E L]; [lia|].
    split; simpl; [now rewrite <- E | now rewrite L].
Qed.

Lemma upto_last_brace_Some (s t : string) :
  upto_last_brace s = Some t ->
  exists t0 post, t = t0 ++ "}" /\ s = t ++ post.
Proof.
  revert t. induction s as [|c s IH]; simpl; intros t Ht; [discriminate|].
  destruct (upto_last_brace s) as [t'|].
  - inversion Ht; subst t. destruct (IH t' eq_refl) as [t0 [post [-> ->]]].
    exists (String c t0), post. split; reflexivity.
  - destruct (Ascii.eqb_spec c "}"); [subst c|discriminate].
    inversion Ht; subst t. exists "", s. split; reflexivity.
Qed.

Lemma match_object_tail_Some (body t : string) :
  match_object_tail body = Some t ->
  exists inner post,
    t = inner ++ "}" /\ 20 <= String.length inner /\ body = t ++ post.
Proof.
  unfold match_object_tail.
  destruct (String.length body <? 20)%nat eqn:Hl; [discriminate|].
  apply Nat.ltb_ge in Hl.
  destruct (split_at 20 body Hl) as [E L].
  destruct (upto_last_brace (substring 20 (String.length body - 20) body)) as [t'|] eqn:Ht;
    [|discriminate].
  intros Hs. inversion Hs; subst t.
  destruct (upto_last_brace_Some _ _ Ht) as [t0 [post [-> Ep]]].
  exists (substring 0 20 body ++ t0), post.
  split; [now rewrite append_assoc|].
  split; [rewrite length_append; lia|].
  rewrite append_assoc, <- Ep. exact E.
Qed.

Lemma skip_ws_suffix (s : string) : exists w, s = w ++ skip_ws s.
Proof.
  induction s as [|c s [w IH]]; simpl.
  - now exists "".
  - destruct (is_ws c).
    + exists (String c w). simpl. now rewrite <- IH.
    + now exists "".
Qed.

Lemma strip_prefix_ci_Some (p s r : string) :
  strip_prefix_ci p s = Some r -> exists p', s = p' ++ r.
Proof.
  revert s. induction p as [|a p IH]; simpl; intros s Hs.
  - inversion Hs. now exists "".
  - destruct s as [|b s]; [discriminate|].
    destruct (Ascii.eqb (upcase a) (upcase b)); [|discriminate].
    destruct (IH s Hs) as [p' ->]. now exists (String b p').
Qed.

Lemma match_assignment_Some (r m2 : string) :
  match_assignment r = Some m2 ->
  exists a inner post,
    r = a ++ m2 ++ post
    /\ m2 = String "{" (inner ++ "}")
    /\ 20 <= String.length inner.
Proof.
  unfold match_assignment.
  destruct (skip_ws_suffix r) as [w1 E1].
  destruct (skip_ws r) as [|c r1]; [discriminate|].
  destruct (Ascii.eqb c ":" || Ascii.eqb c "="); [|discriminate].
  destruct (skip_ws_suffix r1) as [w2 E2].
  destruct (skip_ws r1) as [|b body]; [discriminate|].
  destruct (Ascii.eqb_spec b "{"); [subst b|discriminate].
  destruct (match_object_tail body) as [t|] eqn:Ht; [|discriminate].
  intros Hs. inversion Hs; subst m2.
  destruct (match_object_tail_Some _ _ Ht) as [inner [post [-> [Hl Eb]]]].
  exists (w1 ++ String c w2), inner, post.
  split; [|split; [reflexivity | exact Hl]].
  rewrite E1, E2, Eb, (append_assoc w1 (String c w2)). reflexivity.
Qed.

Lemma match_embed_here_Some (tokens : list string) (s m2 : string) :
  match_embed_here tokens s = Some m2 ->
  exists a inner post,
    s = a ++ m2 ++ post
    /\ m2 = String "{" (inner ++ "}")
    /\ 20 <= String.length inner.
Proof.
  induction tokens as [|tok tokens IH]; simpl; [discriminate|].
  destruct (strip_prefix_ci tok s) as [r|] eqn:Et; [|exact IH].
  destruct (match_assignment r) as [m|] eqn:Em; [|exact IH].
  intros Hs. inversion Hs; subst m.
  destruct (strip_prefix_ci_Some _ _ _ Et) as [p' ->].
  destruct (match_assignment_Some _ _ Em) as [a [inner [post [-> [E Hl]]]]].
  exists (p' ++ a), inner, post.
  split; [now rewrite append_assoc | now split].
Qed.

Lemma match_embed_Some (s m2 : string) :
  match_embed s = Some m2 ->
  exists pre inner post,
    s = pre ++ m2 ++ post
    /\ m2 = String "{" (inner ++ "}")
    /\ 20 <= String.length inner.
Proof.
  induction s as [|c s IH].
  - discriminate.
  - change (match_embed (String c s))
      with (match match_embed_here embed_tokens (String c s) with
            | Some m => Some m
            | None => match_embed s
            end).
    destruct (match_embed_here embed_tokens (String c s)) as [m|] eqn:E.
    + intros Hs. inversion Hs; subst m. exact (match_embed_here_Some _ _ _ E).
    + intros Hs. destruct (IH Hs) as [pre [inner [post [-> [Em Hl]]]]].
      exists (String c pre), inner, post. now split.
Qed.

Lemma strip_final_semicolon_last (s : string) (c : ascii) :
  c <> ";"%char -> strip_final_semicolon (s ++ String c "") = s ++ String c "".
Proof.
  intros Hc. induction s as [|x s IH].
  - simpl. destruct (Ascii.eqb_spec c ";"); [contradiction | reflexivity].
  - change (String x s ++ String c "") with (String x (s ++ String c "")).
    assert (Hne : exists y t, s ++ String c "" = String y t)
      by (destruct s; simpl; eauto).
    destruct Hne as [y [t Hyt]].
    simpl. rewrite Hyt. rewrite <- Hyt. now rewrite IH.
Qed.

(** X3.  The object literal the regular expression of [parseEmbeddedJson]
    captures is a piece of the script text that starts with an opening
    brace, ends with a closing brace and has at least 20 characters
    between them. *)
Theorem match_embed_capture (s m2 : string) :
  match_embed s = Some m2 ->
  exists pre inner post,
    s = pre ++ m2 ++ post
    /\ m2 = String "{" (inner ++ "}")
    /\ 20 <= String.length inner.
Proof. exact (match_embed_Some s m2). Qed.

Lemma match_embed_capture_witness :
  exists pre inner post,
    nth 1 example_scripts "" = pre ++ state_text ++ post
    /\ state_text = String "{" (inner ++ "}")
    /\ 20 <= String.length inner.
Proof.
  exact (match_embed_capture (nth 1 example_scripts "") state_text eq_refl).
Defined.

Section ExtractorRetry.
Variable H : Host.

(** X4.  The second parse attempt of [parseEmbeddedJson] is given the very
    text of the first: the captured literal ends with a brace, so
    [replace(/;$/, '')] leaves it as it is, and a script block's assignment
    is read with one call of [JSON.parse] whose failure is final. *)
Theorem semicolon_retry_changes_nothing (s : string) :
  (forall m2, match_embed s = Some m2 -> strip_final_semicolon m2 = m2)
  /\ parse_assignment H s
     = match match_embed s with
       | Some m2 =>
           match JSON_parse H m2 with
           | Ok j => Ok (Some j)
           | Throw _ => Ok None
           end
       | None => Ok None
       end.
Proof.
  assert (Hsame : forall m2, match_embed s = Some m2 -> strip_final_semicolon m2 = m2).
  { intros m2 Hm. destruct (match_embed_Some _ _ Hm) as [pre [inner [post [_ [-> _]]]]].
    change (String "{" (inner ++ "}")) with (String "{" inner ++ String "}" "").
    apply strip_final_semicolon_last. discriminate. }
  split; [exact Hsame|].
  unfold parse_assignment.
  destruct (match_embed s) as [m2|] eqn:Hm; [|reflexivity].
  rewrite (Hsame m2 eq_refl).
  destruct (JSON_parse H m2); reflexivity.
Qed.

(** X5.  A document without scripts, or whose scripts hold neither a
    marked assignment nor an ld+json object, gives null whatever the parser
    would accept. *)
Theorem no_candidate_gives_null (scripts : list string) :
  (forall s, In s scripts -> candidates s = []) ->
  parseEmbeddedJson H scripts = Ok JNull.
Proof.
  intros Hnone. unfold parseEmbeddedJson. rewrite parse_scripts_eq.
  replace (flat_map candidates scripts) with (@nil string); [reflexivity|].
  induction scripts as [|s scripts IH]; simpl; [reflexivity|].
  rewrite (Hnone s) by now left.
  apply IH. intros s' Hs'. apply Hnone. now right.
Qed.

End ExtractorRetry.

Lemma semicolon_retry_changes_nothing_witness :
  match_embed (nth 1 example_scripts "") = Some state_text
  /\ strip_final_semicolon state_text = state_text.
Proof.
  split; [reflexivity|].
  exact (proj1 (semicolon_retry_changes_nothing (example_host (Ok tt) (Ok tt))
                  (nth 1 example_scripts "")) state_text eq_refl).
Defined.

Lemma no_candidate_gives_null_witness :
  (forall s, In s ["var a = 1;"; ""; "{ not json }"] -> candidates s = [])
  /\ parseEmbeddedJson (example_host (Ok tt) (Ok tt)) ["var a = 1;"; ""; "{ not json }"]
     = Ok JNull.
Proof.
  assert (Hnone : forall s, In s ["var a = 1;"; ""; "{ not json }"] -> candidates s = []).
  { intros s [<-|[<-|[<-|[]]]]; reflexivity. }
  split; [exact Hnone|].
  exact (no_candidate_gives_null (example_host (Ok tt) (Ok tt)) _ Hnone).
Defined.

(** ** Record Normalizer: the shape of the record *)

Lemma first_nonempty_defined (l : list JsVal) (d : JsVal) :
  d <> JUndef -> first_nonempty l d <> JUndef.
Proof.
  intros Hd. destruct (first_nonempty_default_or_nonempty l d) as [E|E].
  - now rewrite E.
  - intros Hu. rewrite Hu in E. discriminate.
Qed.

Lemma first_nonempty_text (l : list JsVal) :
  first_nonempty l (JStr "") <> JNull.
Proof.
  destruct (first_nonempty_default_or_nonempty l (JStr "")) as [E|E];
    intros Hn; rewrite Hn in E; discriminate.
Qed.

(** X6.  Whatever the inputs, the record has the same fourteen keys in the
    same order; [raw_api] and [raw_page] hold [apiData] and [pageData] as
    they were given when these are non-empty, and null otherwise. *)
Theorem normalizeRecord_schema (now : string) (args : NormArgs) :
  exists fields,
    normalizeRecord now args = Ok (JObj fields)
    /\ map fst fields
       = [ "experience_id"; "place_id"; "name"; "creator"; "visits"; "favorites";
           "playing"; "maxPlayers"; "price"; "genre"; "url"; "raw_api"; "raw_page";
           "extracted_at" ]
    /\ lookup "raw_api" fields
       = Some (if truthy (arg_apiData args) then arg_apiData args else JNull)
    /\ lookup "raw_page" fields
       = Some (if truthy (arg_pageData args) then arg_pageData args else JNull).
Proof.
  rewrite normalizeRecord_eq. unfold canonical_record.
  eexists. split; [reflexivity|]. split; [reflexivity|].
  split.
  - change (Some (first_nonempty [dflt (arg_apiData args) JNull] JNull)
            = Some (if truthy (arg_apiData args) then arg_apiData args else JNull)).
    destruct (arg_apiData args); simpl; try reflexivity;
      repeat match goal with |- context [if ?c then _ else _] => destruct c end;
      reflexivity.
  - change (Some (first_nonempty [dflt (arg_pageData args) JNull] JNull)
            = Some (if truthy (arg_pageData args) then arg_pageData args else JNull)).
    destruct (arg_pageData args); simpl; try reflexivity;
      repeat match goal with |- context [if ?c then _ else _] => destruct c end;
      reflexivity.
Qed.

(** X7.  No field of the record is [undefined], so none is lost when the
    record is written as JSON; and [name], [creator] and [genre] are never
    null: they fall back to the empty string. *)
Theorem normalizeRecord_no_undefined (now : string) (args : NormArgs) :
  exists fields,
    normalizeRecord now args = Ok (JObj fields)
    /\ Forall (fun kv => snd kv <> JUndef) fields
    /\ Forall (fun k => exists v, lookup k fields = Some v /\ v <> JNull)
              ["name"; "creator"; "genre"].
Proof.
  rewrite normalizeRecord_eq. unfold canonical_record, merged, precedence.
  eexists. split; [reflexivity|]. split.
  - cbn [map app fst snd].
    repeat (apply Forall_cons;
            [ cbn [snd];
              first [ apply first_nonempty_defined; discriminate
                    | apply dflt_not_undef; discriminate
                    | discriminate ] |]).
    apply Forall_nil.
  - repeat (apply Forall_cons;
            [ eexists; split; [reflexivity | apply first_nonempty_text] |]).
    apply Forall_nil.
Qed.

(** ** API Client: what the two lookups return *)

Section ApiResults.
Variable H : Host.

(** The selection of lines 57-59 on a parsed body. *)
Lemma place_selection (json : JsVal) (key : string) :
  exists v,
    mbind (lift (js_and (Ok (JBool (is_array json))) (get_prop json "length")))
      (fun c1 =>
         if truthy c1 then lift (get_prop json "0")
         else mbind (lift (js_and (Ok json) (get_prop json key)))
                (fun c2 => if truthy c2 then lift (get_prop json key) else mret json))
    = (Ok v, [])
    /\ v = match json with
           | JArr (x :: _) => x
           | _ => if truthy json && truthy (field json key) then field json key
                  else json
           end.
Proof.
  assert (Hrest : forall j : JsVal,
            exists v,
              mbind (lift (js_and (Ok j) (get_prop j key)))
                (fun c2 => if truthy c2 then lift (get_prop j key) else mret j)
              = (Ok v, [])
              /\ v = (if truthy j && truthy (field j key) then field j key else j)).
  { intros j. destruct (truthy j) eqn:Hj.
    - rewrite js_and_Ok, Hj, (get_prop_field _ _ Hj). simpl.
      destruct (truthy (field j key)); eexists; split; reflexivity.
    - rewrite js_and_Ok, Hj. simpl. rewrite Hj. eexists; split; reflexivity. }
  assert (Hskip : forall (j c1 : JsVal),
            js_and (Ok (JBool (is_array j))) (get_prop j "length") = Ok c1 ->
            truthy c1 = false ->
            exists v,
              mbind (lift (js_and (Ok (JBool (is_array j))) (get_prop j "length")))
                (fun c1 =>
                   if truthy c1 then lift (get_prop j "0")
                   else mbind (lift (js_and (Ok j) (get_prop j key)))
                          (fun c2 => if truthy c2 then lift (get_prop j key)
                                     else mret j))
              = (Ok v, [])
              /\ v = (if truthy j && truthy (field j key) then field j key else j)).
  { intros j c1 Hc1 Hf. destruct (Hrest j) as [v [E Ev]].
    exists v. split; [|exact Ev].
    rewrite Hc1, lift_Ok. cbn [mbind]. rewrite Hf, E. reflexivity. }
  destruct json as [| | | | |items|];
    try (apply (Hskip _ (JBool false)); reflexivity).
  destruct items as [|x items].
  - apply (Hskip _ (JNum 0)); reflexivity.
  - simpl. eexists; split; reflexivity.
Qed.

Lemma fetchByPlaceId_run (p : JsVal) :
  fetchRobloxGameApiByPlaceId H p
  = match encodeURIComponent H (to_string p) with
    | Throw _ => (Ok JNull, [])
    | Ok enc =>
        (Ok match fetch H (place_details_url ++ enc) with
            | Throw _ => JNull
            | Ok res =>
                if res_ok res then
                  match res_json res with
                  | Throw _ => JNull
                  | Ok json =>
                      match json with
                      | JArr (x :: _) => x
                      | _ => if truthy json && truthy (field json (to_string p))
                             then field json (to_string p) else json
                      end
                  end
                else JNull
            end,
         [Fetch (place_details_url ++ enc)])
    end.
Proof.
  unfold fetchRobloxGameApiByPlaceId, await_fetch.
  fold place_details_url.
  destruct (encodeURIComponent H (to_string p)) as [enc|e]; [|reflexivity].
  rewrite lift_Ok. cbn [mbind].
  unfold emit. cbn [mbind].
  destruct (fetch H (place_details_url ++ enc)) as [res|e]; [|reflexivity].
  rewrite lift_Ok. cbn [mbind].
  destruct (res_ok res); [|reflexivity].
  cbn [negb].
  destruct (res_json res) as [json|e]; [|reflexivity].
  rewrite lift_Ok. cbn [mbind].
  destruct (place_selection json (to_string p)) as [v [-> ->]].
  reflexivity.
Qed.

Lemma universe_selection (json : JsVal) :
  exists v,
    mbind (lift (js_and (js_and (Ok json) (get_prop json "data"))
                        (rbind (get_prop json "data") (fun d => get_prop d "length"))))
      (fun c => if truthy c
                then lift (rbind (get_prop json "data") (fun d => get_prop d "0"))
                else mret json)
    = (Ok v, [])
    /\ v = (if truthy json && truthy (field json "data")
               && truthy (field (field json "data") "length")
            then field (field json "data") "0" else json).
Proof.
  destruct (truthy json) eqn:Hj.
  - rewrite js_and_Ok, Hj, !(get_prop_field _ _ Hj). rewrite js_and_Ok.
    destruct (truthy (field json "data")) eqn:Hd.
    + cbn [rbind]. rewrite !(get_prop_field _ _ Hd). simpl.
      destruct (truthy (field (field json "data") "length"));
        eexists; split; reflexivity.
    + simpl. rewrite Hd. eexists; split; reflexivity.
  - rewrite js_and_Ok, Hj, js_and_Ok, Hj. simpl. rewrite Hj.
    eexists; split; reflexivity.
Qed.

Lemma fetchByUniverseId_run (p : JsVal) :
  fetchRobloxGameApiByUniverseId H p
  = match encodeURIComponent H (to_string p) with
    | Throw _ => (Ok JNull, [])
    | Ok enc =>
        (Ok match fetch H (universe_url ++ enc) with
            | Throw _ => JNull
            | Ok res =>
                if res_ok res then
                  match res_json res with
                  | Throw _ => JNull
                  | Ok json =>
                      if truthy json && truthy (field json "data")
                         && truthy (field (field json "data") "length")
                      then field (field json "data") "0" else json
                  end
                else JNull
            end,
         [Fetch (universe_url ++ enc)])
    end.
Proof.
  unfold fetchRobloxGameApiByUniverseId, await_fetch.
  fold universe_url.
  destruct (encodeURIComponent H (to_string p)) as [enc|e]; [|reflexivity].
  rewrite lift_Ok. cbn [mbind].
  unfold emit. cbn [mbind].
  destruct (fetch H (universe_url ++ enc)) as [res|e]; [|reflexivity].
  rewrite lift_Ok. cbn [mbind].
  destruct (res_ok res); [|reflexivity].
  cbn [negb].
  destruct (res_json res) as [json|e]; [|reflexivity].
  rewrite lift_Ok. cbn [mbind].
  destruct (universe_selection json) as [v [-> ->]].
  reflexivity.
Qed.

(** X8.  [fetchRobloxGameApiByPlaceId] never rejects.  It asks for one URL,
    the place-details endpoint followed by the encoded place id, and it
    gives null when the request fails, when the status is not a success and
    when the body is no JSON. *)
Theorem place_lookup_failures (p : JsVal) :
  exists v,
    fst (fetchRobloxGameApiByPlaceId H p) = Ok v
    /\ (forall enc,
           encodeURIComponent H (to_string p) = Ok enc ->
           fetched (snd (fetchRobloxGameApiByPlaceId H p)) = [place_details_url ++ enc]
           /\ (forall e, fetch H (place_details_url ++ enc) = Throw e -> v = JNull)
           /\ (forall res, fetch H (place_details_url ++ enc) = Ok res ->
                           res_ok res = false -> v = JNull)
           /\ (forall res e, fetch H (place_details_url ++ enc) = Ok res ->
                             res_json res = Throw e -> v = JNull)).
Proof.
  rewrite fetchByPlaceId_run.
  destruct (encodeURIComponent H (to_string p)) as [enc|e].
  - eexists. split; [reflexivity|]. intros enc' E. inversion E; subst enc'.
    split; [reflexivity|]. split; [|split].
    + intros e He. now rewrite He.
    + intros res Hres Hok. now rewrite Hres, Hok.
    + intros res e Hres Hjson. rewrite Hres, Hjson. now destruct (res_ok res).
  - exists JNull. split; [reflexivity|]. intros enc E. discriminate E.
Qed.

(** X9.  On a successful answer [fetchRobloxGameApiByPlaceId] gives the
    first element of a non-empty array; otherwise the value the body holds
    under the place id when the body and that value are non-empty; otherwise
    the body itself (so an empty array is returned as it is). *)
Theorem place_lookup_selection (p : JsVal) (enc : string) (res : Response) (json : JsVal) :
  encodeURIComponent H (to_string p) = Ok enc ->
  fetch H (place_details_url ++ enc) = Ok res ->
  res_ok res = true ->
  res_json res = Ok json ->
  fst (fetchRobloxGameApiByPlaceId H p)
  = Ok match json with
       | JArr (x :: _) => x
       | _ => if truthy json && truthy (field json (to_string p))
              then field json (to_string p) else json
       end
  /\ (json = JArr [] -> fst (fetchRobloxGameApiByPlaceId H p) = Ok (JArr [])).
Proof.
  intros Henc Hres Hok Hjson.
  rewrite fetchByPlaceId_run, Henc, Hres, Hok, Hjson.
  split; [reflexivity|].
  intros ->. cbn [fst truthy andb].
  assert (Hf : truthy (field (JArr []) (to_string p)) = false).
  { simpl. destruct (String.eqb (to_string p) "length"); [reflexivity|].
    destruct (index_of_key (to_string p)) as [[|i]|]; reflexivity. }
  now rewrite Hf.
Qed.

(** X10.  [fetchRobloxGameApiByUniverseId] never rejects and asks for one
    URL; it gives null when the request fails, when the status is not a
    success and when the body is no JSON; on a successful answer it gives
    the first element of a non-empty [data], and the body itself otherwise. *)
Theorem universe_lookup_result (p : JsVal) :
  exists v,
    fst (fetchRobloxGameApiByUniverseId H p) = Ok v
    /\ (forall enc,
           encodeURIComponent H (to_string p) = Ok enc ->
           fetched (snd (fetchRobloxGameApiByUniverseId H p)) = [universe_url ++ enc]
           /\ (forall e, fetch H (universe_url ++ enc) = Throw e -> v = JNull)
           /\ (forall res, fetch H (universe_url ++ enc) = Ok res ->
                           res_ok res = false -> v = JNull)
           /\ (forall res e, fetch H (universe_url ++ enc) = Ok res ->
                             res_json res = Throw e -> v = JNull)
           /\ (forall res json, fetch H (universe_url ++ enc) = Ok res ->
                                res_ok res = true -> res_json res = Ok json ->
                 v = (if truthy json && truthy (field json "data")
                         && truthy (field (field json "data") "length")
                      then field (field json "data") "0" else json))).
Proof.
  rewrite fetchByUniverseId_run.
  destruct (encodeURIComponent H (to_string p)) as [enc|e].
  - eexists. split; [reflexivity|]. intros enc' E. inversion E; subst enc'.
    split; [reflexivity|]. split; [|split; [|split]].
    + intros e He. now rewrite He.
    + intros res Hres Hok. now rewrite Hres, Hok.
    + intros res e Hres Hjson. rewrite Hres, Hjson. now destruct (res_ok res).
    + intros res json Hres Hok Hjson. now rewrite Hres, Hok, Hjson.
  - exists JNull. split; [reflexivity|]. intros enc E. discriminate E.
Qed.

End ApiResults.

Lemma place_lookup_failures_witness :
  fst (fetchRobloxGameApiByPlaceId example_host2 (JStr "404")) = Ok JNull
  /\ fetched (snd (fetchRobloxGameApiByPlaceId example_host2 (JStr "404")))
     = [place_details_url ++ "404"].
Proof.
  destruct (place_lookup_failures example_host2 (JStr "404")) as [v [Hv Hrun]].
  destruct (Hrun "404" eq_refl) as [Hf [Hthrow _]].
  split; [|exact Hf].
  rewrite Hv. f_equal. exact (Hthrow (HostError "fetch failed") eq_refl).
Defined.

Lemma place_lookup_selection_witness :
  fst (fetchRobloxGameApiByPlaceId example_host2 (JStr "1818")) = Ok api_object
  /\ fst (fetchRobloxGameApiByPlaceId example_host2 (JStr "77")) = Ok keyed_object
  /\ fst (fetchRobloxGameApiByPlaceId example_host2 (JStr "5")) = Ok (JArr []).
Proof.
  split; [|split].
  - exact (proj1 (place_lookup_selection example_host2 (JStr "1818") "1818"
                    {| res_ok := true; res_json := Ok (JArr [api_object]) |}
                    (JArr [api_object]) eq_refl eq_refl eq_refl eq_refl)).
  - exact (proj1 (place_lookup_selection example_host2 (JStr "77") "77"
                    {| res_ok := true; res_json := Ok (JObj [("77", keyed_object)]) |}
                    (JObj [("77", keyed_object)]) eq_refl eq_refl eq_refl eq_refl)).
  - exact (proj2 (place_lookup_selection example_host2 (JStr "5") "5"
                    {| res_ok := true; res_json := Ok (JArr []) |}
                    (JArr []) eq_refl eq_refl eq_refl eq_refl) eq_refl).
Defined.

Lemma universe_lookup_result_witness :
  fst (fetchRobloxGameApiByUniverseId example_host2 (JNum 123)) = Ok universe_object.
Proof.
  destruct (universe_lookup_result example_host2 (JNum 123)) as [v [Hv Hrun]].
  destruct (Hrun "123" eq_refl) as [_ [_ [_ [_ Hsel]]]].
  rewrite Hv. f_equal.
  exact (Hsel {| res_ok := true; res_json := Ok (JObj [("data", JArr [universe_object])]) |}
           (JObj [("data", JArr [universe_object])]) eq_refl eq_refl eq_refl).
Defined.

(** ** The handlers, step by step *)

Lemma digits_only_all_digits (s : string) : all_digits (digits_only s) = true.
Proof.
  induction s as [|c s IH]; simpl; [reflexivity|].
  destruct (is_digit c) eqn:Hc; simpl; [now rewrite Hc|exact IH].
Qed.

Lemma digits_only_nonempty (s : string) : nonempty (digits_only s) = has_digit s.
Proof.
  induction s as [|c s IH]; simpl; [reflexivity|].
  destruct (is_digit c); simpl; [reflexivity | exact IH].
Qed.

Lemma fetched_app (a b : Trace) : fetched (a ++ b)%list = (fetched a ++ fetched b)%list.
Proof.
  induction a as [|e a IH]; simpl; [reflexivity|].
  destruct e; simpl; now rewrite IH.
Qed.

Lemma calls_app (a b : Trace) : calls (a ++ b)%list = (calls a ++ calls b)%list.
Proof.
  induction a as [|e a IH]; simpl; [reflexivity|].
  destruct e; simpl; now rewrite IH.
Qed.

Lemma stored_keys_app (a b : Trace) :
  stored_keys (a ++ b)%list = (stored_keys a ++ stored_keys b)%list.
Proof.
  induction a as [|e a IH]; simpl; [reflexivity|].
  destruct e; simpl; now rewrite IH.
Qed.

Lemma is_ws_not_digit (c : ascii) : is_ws c = true -> is_digit c = false.
Proof.
  unfold is_ws, is_digit. cbv zeta. intros Hw.
  destruct ((48 <=? nat_of_ascii c)%nat && (nat_of_ascii c <=? 57)%nat) eqn:Hd;
    [|reflexivity].
  apply andb_true_iff in Hd. destruct Hd as [H1 H2].
  apply Nat.leb_le in H1. apply Nat.leb_le in H2.
  apply orb_true_iff in Hw. destruct Hw as [Hw|Hw].
  - apply orb_true_iff in Hw. destruct Hw as [Hw|Hw].
    + apply andb_true_iff in Hw. destruct Hw as [_ H3]. apply Nat.leb_le in H3. lia.
    + apply Nat.eqb_eq in Hw. lia.
  - apply Nat.eqb_eq in Hw. lia.
Qed.

Lemma digits_only_skip_ws (s : string) : digits_only (skip_ws s) = digits_only s.
Proof.
  induction s as [|c s IH]; [reflexivity|].
  cbn [skip_ws]. destruct (is_ws c) eqn:Hw; [|reflexivity].
  cbn [digits_only]. now rewrite (is_ws_not_digit c Hw).
Qed.

Lemma digits_only_trim_end (s : string) : digits_only (trim_end s) = digits_only s.
Proof.
  induction s as [|c s IH]; [reflexivity|].
  cbn [trim_end]. destruct (trim_end s) as [|a t] eqn:E.
  - cbn [digits_only] in IH. destruct (is_ws c) eqn:Hw.
    + cbn [digits_only]. now rewrite (is_ws_not_digit c Hw).
    + cbn [digits_only]. now rewrite <- IH.
  - change (digits_only (String c (String a t))) with
      (if is_digit c then String c (digits_only (String a t))
       else digits_only (String a t)).
    rewrite IH. reflexivity.
Qed.

(** Trimming removes white space only: the digits stay. *)
Lemma digits_only_trim (s : string) : digits_only (trim s) = digits_only s.
Proof. unfold trim. now rewrite digits_only_trim_end, digits_only_skip_ws. Qed.

Lemma has_digit_trim (s : string) : has_digit (trim s) = has_digit s.
Proof. now rewrite <- !digits_only_nonempty, digits_only_trim. Qed.

Lemma filter_no_digit (texts : list string) :
  Forall (fun t => has_digit t = false) texts ->
  filter (fun t => has_digit (trim t)) texts = [].
Proof.
  induction 1 as [|t l Ht _ IH]; [reflexivity|].
  cbn [filter]. now rewrite has_digit_trim, Ht.
Qed.

(** Lines 160-161 of [cheerioHandler] when no matched element shows a
    digit. *)
Lemma static_visits_none (texts : list string) :
  Forall (fun t => has_digit t = false) texts ->
  (let visitsText := trim (first_text (filter (fun t => has_digit (trim t)) texts)) in
   if nonempty visitsText then JStr (digits_only visitsText) else JNull) = JNull.
Proof. intros Hall. cbv zeta. now rewrite (filter_no_digit _ Hall). Qed.

(** Lines 160-161 of [cheerioHandler] when [t] is the first matched element,
    in document order, whose text shows a digit. *)
Lemma static_visits_first (before after : list string) (t : string) :
  Forall (fun t' => has_digit t' = false) before ->
  has_digit t = true ->
  (let visitsText :=
     trim (first_text (filter (fun t => has_digit (trim t))
                              (before ++ t :: after)%list)) in
   if nonempty visitsText then JStr (digits_only visitsText) else JNull)
  = JStr (digits_only t)
  /\ test_digits (digits_only t) = true.
Proof.
  intros Hb Ht. cbv zeta.
  rewrite filter_app, (filter_no_digit _ Hb). cbn [app filter].
  rewrite has_digit_trim, Ht. cbn [first_text].
  assert (Hne : nonempty (trim t) = true).
  { pose proof (has_digit_trim t) as Hd. rewrite Ht in Hd.
    destruct (trim t); [discriminate Hd|reflexivity]. }
  rewrite Hne, digits_only_trim. split; [reflexivity|].
  unfold test_digits. now rewrite digits_only_nonempty, Ht, digits_only_all_digits.
Qed.

Lemma rendered_playing_digits_ok (page : RenderedPage) :
  exists playing,
    try_catch
      (rbind (try_catch (players_innerText page) (fun _ => Ok ""))
         (fun playingText =>
            if nonempty playingText then Ok (JStr (digits_only playingText))
            else Ok JNull))
      (fun _ => Ok JNull) = Ok playing
    /\ null_or_digits playing.
Proof.
  assert (Hd : forall t, null_or_digits (JStr (digits_only t)))
    by (intros t; right; eexists; split; [reflexivity | apply digits_only_all_digits]).
  destruct (players_innerText page) as [t|e]; simpl.
  - destruct (nonempty t); eexists; (split; [reflexivity|]); [apply Hd | now left].
  - eexists. split; [reflexivity | now left].
Qed.

Section HandlerSteps.
Variable H : Host.
Variable cfg : Config.

Lemma api_by_place_run (p : JsVal) :
  exists v,
    api_by_place H cfg p
    = (Ok v, if useApi cfg && truthy p
             then lookup_events H F_fetchRobloxGameApiByPlaceId place_details_url p
             else [])
    /\ (useApi cfg && truthy p = false -> v = JNull).
Proof.
  unfold api_by_place, call, lookup_events.
  destruct (useApi cfg && truthy p).
  - rewrite fetchByPlaceId_run.
    destruct (encodeURIComponent H (to_string p)) as [enc|e];
      eexists; (split; [reflexivity | discriminate]).
  - exists JNull. split; reflexivity.
Qed.

(** Lines 169-172 of [cheerioHandler]. *)
Lemma universe_step (api1 pageJson : JsVal) :
  let wanted :=
    negb (truthy api1) && useApi cfg && truthy pageJson
    && truthy (field pageJson "universeId") && checkPlaceDetails cfg in
  exists again,
    js_and (js_and (js_and (js_and (Ok (JBool (negb (truthy api1))))
                                   (Ok (JBool (useApi cfg))))
                           (Ok pageJson))
                   (get_prop pageJson "universeId"))
           (Ok (JBool (checkPlaceDetails cfg))) = Ok again
    /\ exists v,
         (if truthy again
          then mbind (lift (get_prop pageJson "universeId")) (fun universeId =>
                 call F_fetchRobloxGameApiByUniverseId
                   (fetchRobloxGameApiByUniverseId H universeId))
          else mret api1)
         = (Ok v, if wanted
                  then lookup_events H F_fetchRobloxGameApiByUniverseId universe_url
                         (field pageJson "universeId")
                  else [])
         /\ (wanted = false -> v = api1).
Proof.
  cbv zeta.
  assert (Hskip : exists v, mret api1 = (Ok v, @nil Event) /\ (false = false -> v = api1))
    by (exists api1; split; reflexivity).
  unfold js_and at 1 2 3 4. simpl.
  destruct (truthy api1) eqn:Ha; simpl.
  { exists (JBool false). split; [reflexivity|]. exact Hskip. }
  destruct (useApi cfg) eqn:Hu; simpl.
  2:{ exists (JBool false). split; [reflexivity|]. exact Hskip. }
  destruct (truthy pageJson) eqn:Hp; simpl.
  2:{ rewrite Hp. exists pageJson. split; [reflexivity|]. rewrite Hp. exact Hskip. }
  rewrite (get_prop_field _ _ Hp). simpl.
  destruct (truthy (field pageJson "universeId")) eqn:Hf.
  2:{ exists (field pageJson "universeId"). split; [reflexivity|].
      rewrite Hf. exact Hskip. }
  simpl.
  exists (JBool (checkPlaceDetails cfg)). split; [reflexivity|].
  destruct (checkPlaceDetails cfg); simpl; [|exact Hskip].
  unfold call, lookup_events, lift, emit. cbn [mbind].
  rewrite fetchByUniverseId_run.
  destruct (encodeURIComponent H (to_string (field pageJson "universeId")));
    eexists; (split; [reflexivity | discriminate]).
Qed.

Lemma playwrightHandler_steps (ctx : PlaywrightCtx) :
  let url := request_url (p_request ctx) in
  exists ps apiData name playing,
    extractIdsFromUrl H url = Ok (JObj ps)
    /\ null_or_digits playing
    /\ let placeId := first_nonempty [field (JObj ps) "placeId"] JNull in
       (useApi cfg && truthy placeId = false -> apiData = JNull)
       /\ let t_api :=
            if useApi cfg && truthy placeId
            then lookup_events H F_fetchRobloxGameApiByPlaceId place_details_url placeId
            else [] in
          let pageData := JObj [("name", name); ("playing", playing)] in
          let record :=
            canonical_record (Date_toISOString H) (dflt apiData JNull) pageData
              (JStr url) (dflt placeId JNull) in
          playwrightHandler H cfg ctx =
          match p_enqueueLinks ctx with
          | Throw e =>
              (Throw e,
               [LogInfo "Processing (playwright)" url; WaitForLoadState; EnqueueLinks])
          | Ok _ =>
              let t1 := (t_api ++ [Call F_normalizeRecord; PushData record])%list in
              let head t :=
                LogInfo "Processing (playwright)" url :: WaitForLoadState
                  :: EnqueueLinks :: Call F_extractIdsFromUrl :: t in
              match dataset_pushData H record with
              | Throw e => (Throw e, head t1)
              | Ok _ =>
                  (Ok tt,
                   head (t1 ++ snd (save_raw H placeId url
                                      (JObj [("url", JStr url); ("apiData", apiData);
                                             ("pageData", pageData)])))%list)
              end
          end.
Proof.
  intros url. unfold playwrightHandler. fold url.
  destruct (extractIdsFromUrl_object H url) as [ps Hids].
  set (placeId := first_nonempty [field (JObj ps) "placeId"] JNull).
  destruct (rendered_name_ok (p_page ctx)) as [name Hname].
  destruct (rendered_playing_digits_ok (p_page ctx)) as [playing [Hplaying Hdigits]].
  destruct (api_by_place_run placeId) as [apiData [Hapi Hoff]].
  exists ps, apiData, name, playing.
  split; [exact Hids|]. split; [exact Hdigits|].
  cbv zeta. fold placeId. split; [exact Hoff|].
  unfold emit at 1. cbn [mbind].
  rewrite wait_run. cbn [mbind].
  rewrite await_enqueueLinks_run.
  destruct (p_enqueueLinks ctx) as [[]|e]; [|reflexivity].
  cbn [mbind]. rewrite Hids. run.
  replace (js_or (get_prop (JObj ps) "placeId") (Ok JNull)) with (Ok placeId)
    by (rewrite (get_prop_field (JObj ps) "placeId" eq_refl), or_chain1; reflexivity).
  run. rewrite Hname. run. rewrite Hplaying. run.
  rewrite Hapi. cbn [mbind].
  rewrite normalizeRecord_eq. cbn [arg_apiData arg_pageData arg_url arg_placeId].
  run. rewrite await_pushData_run, save_raw_run.
  cbn [dflt snd].
  destruct (dataset_pushData H _) as [[]|e]; cbn [mbind app]; rewrite <- ?app_assoc;
    reflexivity.
Qed.

Lemma cheerioHandler_steps (ctx : CheerioCtx) :
  let url := request_url (c_request ctx) in
  let pageJson := first_parsed H (flat_map candidates (scripts (c_page ctx))) in
  exists ps api1 apiData pd_name visits,
    extractIdsFromUrl H url = Ok (JObj ps)
    /\ visits
       = (let visitsText :=
            trim (first_text (filter (fun t => has_digit (trim t))
                                     (stat_texts (c_page ctx)))) in
          if nonempty visitsText then JStr (digits_only visitsText) else JNull)
    /\ let placeId := first_nonempty [field (JObj ps) "placeId"] JNull in
       let wanted :=
         negb (truthy api1) && useApi cfg && truthy pageJson
         && truthy (field pageJson "universeId") && checkPlaceDetails cfg in
       (useApi cfg && truthy placeId = false -> api1 = JNull)
       /\ (wanted = false -> apiData = api1)
       /\ let t_api :=
            ((if useApi cfg && truthy placeId
              then lookup_events H F_fetchRobloxGameApiByPlaceId place_details_url placeId
              else []) ++
             (if wanted
              then lookup_events H F_fetchRobloxGameApiByUniverseId universe_url
                     (field pageJson "universeId")
              else []))%list in
          let pageData :=
            JObj (assign [("name", pd_name);
                          ("visits", if truthy apiData then field apiData "visits"
                                     else visits)]
                         (own_props pageJson)) in
          let record :=
            canonical_record (Date_toISOString H) (dflt apiData JNull) pageData
              (JStr url) (dflt placeId JNull) in
          cheerioHandler H cfg ctx =
          match c_enqueueLinks ctx with
          | Throw e => (Throw e, [LogInfo "Processing (cheerio)" url; EnqueueLinks])
          | Ok _ =>
              let t1 := (t_api ++ [Call F_normalizeRecord; PushData record])%list in
              let head t :=
                LogInfo "Processing (cheerio)" url :: EnqueueLinks
                  :: Call F_extractIdsFromUrl :: Call F_parseEmbeddedJson :: t in
              match dataset_pushData H record with
              | Throw e => (Throw e, head t1)
              | Ok _ =>
                  (Ok tt,
                   head (t1 ++ snd (save_raw H placeId url
                                      (JObj [("url", JStr url); ("apiData", apiData);
                                             ("pageJson", pageJson)])))%list)
              end
          end.
Proof.
  intros url pageJson. unfold cheerioHandler. fold url.
  destruct (extractIdsFromUrl_object H url) as [ps Hids].
  set (placeId := first_nonempty [field (JObj ps) "placeId"] JNull).
  destruct (static_name_ok (c_page ctx)) as [name Hname].
  destruct (api_by_place_run placeId) as [api1 [Hapi1 Hoff1]].
  destruct (universe_step api1 pageJson) as [again [Hagain [apiData [Hapi2 Hoff2]]]].
  cbv zeta in Hapi2, Hoff2.
  set (visits :=
         if nonempty (trim (first_text (filter (fun t => has_digit (trim t))
                                               (stat_texts (c_page ctx)))))
         then JStr (digits_only (trim (first_text
                      (filter (fun t => has_digit (trim t)) (stat_texts (c_page ctx))))))
         else JNull) in *.
  exists ps, api1, apiData,
    (first_nonempty [name; field pageJson "name"] (JStr "")), visits.
  split; [exact Hids|]. split; [reflexivity|].
  cbv zeta. fold placeId. split; [exact Hoff1|]. split; [exact Hoff2|].
  unfold emit at 1. cbn [mbind].
  rewrite await_enqueueLinks_run.
  destruct (c_enqueueLinks ctx) as [[]|e]; [|reflexivity].
  cbn [mbind]. rewrite Hids. run.
  replace (js_or (get_prop (JObj ps) "placeId") (Ok JNull)) with (Ok placeId)
    by (rewrite (get_prop_field (JObj ps) "placeId" eq_refl), or_chain1; reflexivity).
  run. unfold parseEmbeddedJson. rewrite parse_scripts_eq. fold pageJson.
  run. rewrite Hname. run.
  rewrite Hapi1. cbn [mbind]. rewrite Hagain. run.
  rewrite Hapi2. cbn [mbind].
  rewrite opt_get_field, or_chain2. run.
  replace (if truthy apiData then get_prop apiData "visits" else Ok visits)
    with (Ok (if truthy apiData then field apiData "visits" else visits)).
  2:{ destruct (truthy apiData) eqn:Ha; [|reflexivity].
      now rewrite (get_prop_field _ _ Ha). }
  run.
  rewrite normalizeRecord_eq. cbn [arg_apiData arg_pageData arg_url arg_placeId].
  run. rewrite await_pushData_run, save_raw_run.
  cbn [dflt snd].
  destruct (dataset_pushData H _) as [[]|e]; cbn [mbind app]; rewrite <- ?app_assoc;
    reflexivity.
Qed.

End HandlerSteps.

(** ** The handlers: what a run leaves behind *)


(** ** What rendered mode can fill without the API *)

Lemma record_without_api (now : string) (a name playing url placeId : JsVal) :
  truthy a = false -> null_or_digits playing ->
  let r := canonical_record now a (JObj [("name", name); ("playing", playing)])
             url placeId in
  field r "experience_id" = JNull
  /\ field r "visits" = JNull
  /\ field r "favorites" = JNull
  /\ field r "maxPlayers" = JNull
  /\ field r "price" = JNull
  /\ field r "creator" = JStr ""
  /\ field r "genre" = JStr ""
  /\ (field r "playing" = JNull
      \/ exists d, field r "playing" = JStr d /\ test_digits d = true)
  /\ null_or_digits (field (field r "raw_page") "playing").
Proof.
  intros Ha Hp r. subst r.
  unfold canonical_record, merged, precedence.
  rewrite !(field_falsy a _ Ha) by discriminate.
  cbn [map fst snd app field get_prop lookup String.eqb Ascii.eqb Bool.eqb
       first_nonempty truthy].
  repeat (split; [reflexivity|]).
  destruct Hp as [->|[d [-> Hd]]].
  - split; [left; reflexivity|]. left. reflexivity.
  - unfold test_digits, nonempty. cbn [truthy].
    destruct (negb (d =? "")) eqn:Hne; cbn [field get_prop lookup truthy].
    + split; [right; exists d; rewrite Hne, Hd; split; reflexivity|].
      right. exists d. split; [reflexivity|exact Hd].
    + split; [left; reflexivity|]. right. exists d. split; [reflexivity|exact Hd].
Qed.

Section RunProperties.
Variable H : Host.
Variable cfg : Config.

Lemma save_raw_observed (placeId : JsVal) (url : string) (value : JsVal) :
  fetched (snd (save_raw H placeId url value)) = []
  /\ calls (snd (save_raw H placeId url value)) = []
  /\ pushed (snd (save_raw H placeId url value)) = []
  /\ stored_keys (snd (save_raw H placeId url value))
     = match kv_key H placeId url with
       | Ok key => [key]
       | Throw _ => []
       end.
Proof.
  rewrite save_raw_run. cbn [snd].
  destruct (kv_key H placeId url) as [key|e]; [|repeat split].
  destruct (kv_setValue H key value); repeat split.
Qed.

Lemma lookup_events_observed (f : Fn) (endpoint : string) (id : JsVal) :
  calls (lookup_events H f endpoint id) = [f]
  /\ pushed (lookup_events H f endpoint id) = []
  /\ stored_keys (lookup_events H f endpoint id) = []
  /\ length (fetched (lookup_events H f endpoint id)) <= 1.
Proof.
  unfold lookup_events.
  destruct (encodeURIComponent H (to_string id)); repeat split; simpl; lia.
Qed.

Lemma optional_lookup_observed (c : bool) (f : Fn) (endpoint : string) (id : JsVal) :
  calls (if c then lookup_events H f endpoint id else []) = (if c then [f] else [])
  /\ pushed (if c then lookup_events H f endpoint id else []) = []
  /\ stored_keys (if c then lookup_events H f endpoint id else []) = []
  /\ length (fetched (if c then lookup_events H f endpoint id else [])) <= 1
  /\ (c = false -> fetched (if c then lookup_events H f endpoint id else []) = []).
Proof.
  destruct (lookup_events_observed f endpoint id) as [Hc [Hp [Hs Hl]]].
  destruct c; repeat split; simpl; try assumption; try lia; discriminate.
Qed.

Ltac observe_run :=
  cbn [snd fst pushed fetched calls stored_keys];
  rewrite ?pushed_app, ?fetched_app, ?calls_app, ?stored_keys_app;
  rewrite ?(proj1 (proj2 (optional_lookup_observed _ _ _ _))),
          ?(proj1 (optional_lookup_observed _ _ _ _)),
          ?(proj1 (proj2 (proj2 (optional_lookup_observed _ _ _ _)))),
          ?(proj1 (lookup_events_observed _ _ _)),
          ?(proj1 (proj2 (lookup_events_observed _ _ _))),
          ?(proj1 (proj2 (proj2 (lookup_events_observed _ _ _)))),
          ?(proj1 (proj2 (proj2 (save_raw_observed _ _ _)))),
          ?(proj1 (save_raw_observed _ _ _)),
          ?(proj1 (proj2 (save_raw_observed _ _ _))),
          ?(proj2 (proj2 (proj2 (save_raw_observed _ _ _))));
  cbn [pushed fetched calls stored_keys app].

(** X11.  One record per processed URL: once [enqueueLinks] has returned,
    either handler gives exactly one record to the dataset, whose [url] is
    the request's [loadedUrl] (its [url] when that is missing) and whose
    [extracted_at] is the clock's reading;
    when [enqueueLinks] fails the handler fails with its error before
    anything is resolved, fetched or written. *)
Theorem one_record_per_url :
  (forall ctx,
      (c_enqueueLinks ctx = Ok tt ->
       exists r,
         pushed (snd (cheerioHandler H cfg ctx)) = [r]
         /\ field r "url" = JStr (request_url (c_request ctx))
         /\ field r "extracted_at" = JStr (Date_toISOString H))
      /\ (forall e, c_enqueueLinks ctx = Throw e ->
            cheerioHandler H cfg ctx
            = (Throw e, [LogInfo "Processing (cheerio)" (request_url (c_request ctx));
                         EnqueueLinks])))
  /\ (forall ctx,
      (p_enqueueLinks ctx = Ok tt ->
       exists r,
         pushed (snd (playwrightHandler H cfg ctx)) = [r]
         /\ field r "url" = JStr (request_url (p_request ctx))
         /\ field r "extracted_at" = JStr (Date_toISOString H))
      /\ (forall e, p_enqueueLinks ctx = Throw e ->
            playwrightHandler H cfg ctx
            = (Throw e, [LogInfo "Processing (playwright)" (request_url (p_request ctx));
                         WaitForLoadState; EnqueueLinks]))).
Proof.
  split.
  - intros ctx.
    destruct (cheerioHandler_steps H cfg ctx)
      as [ps [api1 [apiData [pd_name [visits [Hids [Hvis E]]]]]]].
    cbv zeta in E. destruct E as [_ [_ E]]. rewrite E. clear E.
    split.
    + intros Henq. rewrite Henq.
      eexists. split;
        [ destruct (dataset_pushData H _) as [[]|e]; observe_run; reflexivity
        | split; reflexivity ].
    + intros e Henq. rewrite Henq. reflexivity.
  - intros ctx.
    destruct (playwrightHandler_steps H cfg ctx)
      as [ps [apiData [name [playing [Hids [Hdig E]]]]]].
    cbv zeta in E. destruct E as [_ E]. rewrite E. clear E.
    split.
    + intros Henq. rewrite Henq.
      eexists. split;
        [ destruct (dataset_pushData H _) as [[]|e]; observe_run; reflexivity
        | split; reflexivity ].
    + intros e Henq. rewrite Henq. reflexivity.
Qed.


Ltac not_called :=
  let Hin := fresh "Hin" in
  intros Hin; cbn [In] in Hin;
  repeat (destruct Hin as [Hin|Hin]; [discriminate Hin|]);
  contradiction.

(** X12.  With [useApi] off neither handler calls the API Client or sends a
    request, and the record's [raw_api] is null. *)
Theorem api_off_means_no_request :
  useApi cfg = false ->
  (forall ctx,
      fetched (snd (cheerioHandler H cfg ctx)) = []
      /\ ~ In F_fetchRobloxGameApiByPlaceId (calls (snd (cheerioHandler H cfg ctx)))
      /\ ~ In F_fetchRobloxGameApiByUniverseId (calls (snd (cheerioHandler H cfg ctx)))
      /\ Forall (fun r => field r "raw_api" = JNull)
                (pushed (snd (cheerioHandler H cfg ctx))))
  /\ (forall ctx,
      fetched (snd (playwrightHandler H cfg ctx)) = []
      /\ ~ In F_fetchRobloxGameApiByPlaceId (calls (snd (playwrightHandler H cfg ctx)))
      /\ ~ In F_fetchRobloxGameApiByUniverseId (calls (snd (playwrightHandler H cfg ctx)))
      /\ Forall (fun r => field r "raw_api" = JNull)
                (pushed (snd (playwrightHandler H cfg ctx)))).
Proof.
  intros Hu. split.
  - intros ctx.
    destruct (cheerioHandler_steps H cfg ctx)
      as [ps [api1 [apiData [pd_name [visits [Hids [Hvis E]]]]]]].
    cbv zeta in E. rewrite Hu in E. rewrite !andb_false_r in E. cbn [andb] in E.
    destruct E as [Hoff1 [Hoff2 E]].
    rewrite (Hoff2 eq_refl), (Hoff1 eq_refl) in E. rewrite E. clear E.
    destruct (c_enqueueLinks ctx) as [[]|e];
      [destruct (dataset_pushData H _) as [[]|e]|];
      observe_run;
      (split; [reflexivity|]); (split; [not_called|]); (split; [not_called|]);
      repeat constructor.
  - intros ctx.
    destruct (playwrightHandler_steps H cfg ctx)
      as [ps [apiData [name [playing [Hids [Hdig E]]]]]].
    cbv zeta in E. rewrite Hu in E. cbn [andb] in E.
    destruct E as [Hoff E].
    rewrite (Hoff eq_refl) in E. rewrite E. clear E.
    destruct (p_enqueueLinks ctx) as [[]|e];
      [destruct (dataset_pushData H _) as [[]|e]|];
      observe_run;
      (split; [reflexivity|]); (split; [not_called|]); (split; [not_called|]);
      repeat constructor.
Qed.


Lemma resolved_place_id (url ds : string) (ps : Props) :
  extractIdsFromUrl H url = Ok (JObj ps) ->
  extractIdsFromUrl H url = Ok (ids_of ds) ->
  first_nonempty [field (JObj ps) "placeId"] JNull = JStr ds
  /\ truthy (JStr ds) = true.
Proof.
  intros Hps Hds.
  destruct (extractIdsFromUrl_shape H url) as [ids [Hids Hshape]].
  rewrite Hids in Hps, Hds. inversion Hps; subst ids. inversion Hds; subst ps.
  destruct Hshape as [Hempty|[ds' [E Hd]]]; [discriminate|].
  inversion E; subst ds'.
  unfold test_digits, nonempty in Hd. apply andb_true_iff in Hd. destruct Hd as [Hne _].
  split; [|exact Hne].
  change (field (JObj [("placeId", JStr ds)]) "placeId") with (JStr ds).
  cbn [first_nonempty truthy]. now rewrite Hne.
Qed.

(** X13.  When the resolver finds a place id in the URL, that id is the
    record's [place_id], whatever the API and the page say, and the raw
    payload is stored under [experiences/<id>]; a handler that completes
    has attempted that one write. *)
Theorem resolved_id_keys_the_run (ds : string) :
  (forall ctx,
      extractIdsFromUrl H (request_url (c_request ctx)) = Ok (ids_of ds) ->
      Forall (fun r => field r "place_id" = JStr ds)
             (pushed (snd (cheerioHandler H cfg ctx)))
      /\ Forall (eq ("experiences/" ++ ds)) (stored_keys (snd (cheerioHandler H cfg ctx)))
      /\ (fst (cheerioHandler H cfg ctx) = Ok tt ->
          stored_keys (snd (cheerioHandler H cfg ctx)) = ["experiences/" ++ ds]))
  /\ (forall ctx,
      extractIdsFromUrl H (request_url (p_request ctx)) = Ok (ids_of ds) ->
      Forall (fun r => field r "place_id" = JStr ds)
             (pushed (snd (playwrightHandler H cfg ctx)))
      /\ Forall (eq ("experiences/" ++ ds))
                (stored_keys (snd (playwrightHandler H cfg ctx)))
      /\ (fst (playwrightHandler H cfg ctx) = Ok tt ->
          stored_keys (snd (playwrightHandler H cfg ctx)) = ["experiences/" ++ ds])).
Proof.
  split.
  - intros ctx Hds.
    destruct (cheerioHandler_steps H cfg ctx)
      as [ps [api1 [apiData [pd_name [visits [Hids [Hvis E]]]]]]].
    cbv zeta in E. destruct (resolved_place_id _ _ _ Hids Hds) as [Hp Ht].
    rewrite Hp in E. destruct E as [_ [_ E]]. rewrite E. clear E.
    assert (Hkey : kv_key H (JStr ds) (request_url (c_request ctx))
                   = Ok ("experiences/" ++ ds))
      by (unfold kv_key; now rewrite Ht).
    assert (Hrec : forall now a p u,
               field (canonical_record now a p u (JStr ds)) "place_id" = JStr ds).
    { intros now a p u.
      change (field (canonical_record now a p u (JStr ds)) "place_id")
        with (first_nonempty [JStr ds; field a "rootPlaceId"; field a "placeId";
                              field p "placeId"] JNull).
      cbn [first_nonempty]. now rewrite Ht. }
    destruct (c_enqueueLinks ctx) as [[]|e];
      [destruct (dataset_pushData H _) as [[]|e]|];
      observe_run; rewrite ?Hkey; cbn [dflt];
      (split; [repeat constructor; apply Hrec|]);
      (split; [repeat constructor|]);
      try reflexivity; intros Hok; discriminate Hok.
  - intros ctx Hds.
    destruct (playwrightHandler_steps H cfg ctx)
      as [ps [apiData [name [playing [Hids [Hdig E]]]]]].
    cbv zeta in E. destruct (resolved_place_id _ _ _ Hids Hds) as [Hp Ht].
    rewrite Hp in E. destruct E as [_ E]. rewrite E. clear E.
    assert (Hkey : kv_key H (JStr ds) (request_url (p_request ctx))
                   = Ok ("experiences/" ++ ds))
      by (unfold kv_key; now rewrite Ht).
    assert (Hrec : forall now a p u,
               field (canonical_record now a p u (JStr ds)) "place_id" = JStr ds).
    { intros now a p u.
      change (field (canonical_record now a p u (JStr ds)) "place_id")
        with (first_nonempty [JStr ds; field a "rootPlaceId"; field a "placeId";
                              field p "placeId"] JNull).
      cbn [first_nonempty]. now rewrite Ht. }
    destruct (p_enqueueLinks ctx) as [[]|e];
      [destruct (dataset_pushData H _) as [[]|e]|];
      observe_run; rewrite ?Hkey; cbn [dflt];
      (split; [repeat constructor; apply Hrec|]);
      (split; [repeat constructor|]);
      try reflexivity; intros Hok; discriminate Hok.
Qed.


Lemma unresolved_place_id (url : string) (ps : Props) :
  extractIdsFromUrl H url = Ok (JObj ps) ->
  extractIdsFromUrl H url = Ok (JObj []) ->
  first_nonempty [field (JObj ps) "placeId"] JNull = JNull.
Proof.
  intros Hps Hnone. rewrite Hps in Hnone. inversion Hnone; subst ps. reflexivity.
Qed.

(** X14.  Rendered mode on a URL without a place id: no API call and no
    request are made, the record's [place_id] and [raw_api] are null, and
    the raw payload is stored under [experiences/] followed by the encoded
    URL. *)
Theorem rendered_without_place_id (ctx : PlaywrightCtx) :
  extractIdsFromUrl H (request_url (p_request ctx)) = Ok (JObj []) ->
  fetched (snd (playwrightHandler H cfg ctx)) = []
  /\ calls (snd (playwrightHandler H cfg ctx))
     = match p_enqueueLinks ctx with
       | Ok _ => [F_extractIdsFromUrl; F_normalizeRecord]
       | Throw _ => []
       end
  /\ Forall (fun r => field r "place_id" = JNull /\ field r "raw_api" = JNull)
            (pushed (snd (playwrightHandler H cfg ctx)))
  /\ Forall (fun k => exists enc,
                encodeURIComponent H (request_url (p_request ctx)) = Ok enc
                /\ k = "experiences/" ++ enc)
            (stored_keys (snd (playwrightHandler H cfg ctx))).
Proof.
  intros Hnone.
  destruct (playwrightHandler_steps H cfg ctx)
    as [ps [apiData [name [playing [Hids [Hdig E]]]]]].
  cbv zeta in E. rewrite (unresolved_place_id _ _ Hids Hnone) in E.
  cbn [truthy] in E. rewrite andb_false_r in E.
  destruct E as [Hoff E]. rewrite (Hoff eq_refl) in E. rewrite E. clear E.
  assert (Hkeys :
    Forall (fun k => exists enc,
                encodeURIComponent H (request_url (p_request ctx)) = Ok enc
                /\ k = "experiences/" ++ enc)
           match kv_key H JNull (request_url (p_request ctx)) with
           | Ok key => [key]
           | Throw _ => []
           end).
  { unfold kv_key. cbn [truthy].
    destruct (encodeURIComponent H (request_url (p_request ctx))) as [enc|e]; simpl;
      repeat constructor. now exists enc. }
  destruct (p_enqueueLinks ctx) as [[]|e];
    [destruct (dataset_pushData H _) as [[]|e]|];
    observe_run;
    (split; [reflexivity|]); (split; [reflexivity|]);
    (split; [repeat constructor|]); try exact Hkeys; constructor.
Qed.

(** X15.  When the static handler calls the API Client.  The lookup by
    place id needs [useApi] and a place id in the URL; the lookup by
    universe id needs [useApi], [checkPlaceDetails] and a non-empty
    [universeId] in the embedded JSON; and on a URL without a place id
    these three are enough for the lookup by universe id to be made. *)
Theorem static_lookups_are_gated (ctx : CheerioCtx) :
  let t := snd (cheerioHandler H cfg ctx) in
  let pageJson := first_parsed H (flat_map candidates (scripts (c_page ctx))) in
  (In F_fetchRobloxGameApiByPlaceId (calls t) ->
   useApi cfg = true
   /\ exists ds, extractIdsFromUrl H (request_url (c_request ctx)) = Ok (ids_of ds))
  /\ (In F_fetchRobloxGameApiByUniverseId (calls t) ->
      useApi cfg = true /\ checkPlaceDetails cfg = true
      /\ non_empty (field pageJson "universeId"))
  /\ (extractIdsFromUrl H (request_url (c_request ctx)) = Ok (JObj []) ->
      c_enqueueLinks ctx = Ok tt ->
      useApi cfg = true -> checkPlaceDetails cfg = true ->
      non_empty (field pageJson "universeId") ->
      calls t = [F_extractIdsFromUrl; F_parseEmbeddedJson;
                 F_fetchRobloxGameApiByUniverseId; F_normalizeRecord]).
Proof.
  intros t pageJson. subst t.
  destruct (cheerioHandler_steps H cfg ctx)
    as [ps [api1 [apiData [pd_name [visits [Hids [Hvis E]]]]]]].
  cbv zeta in E. fold pageJson in E. destruct E as [Hoff1 [Hoff2 E]].
  rewrite E.
  set (placeId := first_nonempty [field (JObj ps) "placeId"] JNull) in *.
  set (wanted := negb (truthy api1) && useApi cfg && truthy pageJson
                 && truthy (field pageJson "universeId") && checkPlaceDetails cfg) in *.
  assert (Hcalls :
    forall f, In f (calls (snd (cheerioHandler H cfg ctx))) ->
              f = F_fetchRobloxGameApiByPlaceId -> useApi cfg && truthy placeId = true).
  { intros f Hin ->. rewrite E in Hin.
    destruct (useApi cfg && truthy placeId); [reflexivity|]. exfalso.
    destruct (c_enqueueLinks ctx) as [[]|e];
      [destruct (dataset_pushData H _) as [[]|e]|];
      revert Hin; observe_run; destruct wanted; not_called. }
  assert (Hcalls2 :
    forall f, In f (calls (snd (cheerioHandler H cfg ctx))) ->
              f = F_fetchRobloxGameApiByUniverseId -> wanted = true).
  { intros f Hin ->. rewrite E in Hin.
    destruct wanted; [reflexivity|]. exfalso.
    destruct (c_enqueueLinks ctx) as [[]|e];
      [destruct (dataset_pushData H _) as [[]|e]|];
      revert Hin; observe_run; destruct (useApi cfg && truthy placeId); not_called. }
  rewrite <- E. split; [|split].
  - intros Hin. specialize (Hcalls _ Hin eq_refl).
    apply andb_true_iff in Hcalls. destruct Hcalls as [Hu Hp].
    split; [exact Hu|].
    destruct (extractIdsFromUrl_shape H (request_url (c_request ctx)))
      as [ids [Hids' Hshape]].
    rewrite Hids in Hids'. inversion Hids'; subst ids.
    destruct Hshape as [Hempty|[ds [Eds _]]].
    + inversion Hempty; subst ps. discriminate Hp.
    + exists ds. rewrite Hids, Eds. reflexivity.
  - intros Hin. specialize (Hcalls2 _ Hin eq_refl). unfold wanted in Hcalls2.
    repeat (apply andb_true_iff in Hcalls2; destruct Hcalls2 as [Hcalls2 ?]).
    repeat split; assumption.
  - intros Hnone Henq Hu Hc Hid.
    assert (Hp : placeId = JNull) by exact (unresolved_place_id _ _ Hids Hnone).
    rewrite Hp in Hoff1. cbn [truthy] in Hoff1. rewrite andb_false_r in Hoff1.
    specialize (Hoff1 eq_refl).
    assert (Hpj : truthy pageJson = true).
    { destruct (truthy pageJson) eqn:Hpj; [reflexivity|].
      unfold non_empty in Hid. rewrite (field_falsy _ _ Hpj) in Hid by discriminate.
      discriminate Hid. }
    assert (Hw : wanted = true).
    { unfold wanted. unfold non_empty in Hid.
      rewrite Hoff1, Hu, Hc, Hpj, Hid. reflexivity. }
    rewrite E, Henq, Hw, Hp. cbn [truthy]. rewrite andb_false_r. clear E.
    destruct (dataset_pushData H _) as [[]|e]; observe_run; reflexivity.
Qed.



Lemma optional_lookup_bound (c : bool) (f : Fn) (endpoint : string) (id : JsVal) :
  List.length (fetched (if c then lookup_events H f endpoint id else [])) <= 1.
Proof.
  exact (proj1 (proj2 (proj2 (proj2 (optional_lookup_observed c f endpoint id))))).
Qed.

Ltac bound_lookups :=
  rewrite ?app_nil_r, ?List.length_app; cbn [List.length];
  first [ apply (Nat.add_le_mono _ 1 _ 1); apply optional_lookup_bound
        | apply optional_lookup_bound
        | lia ].

(** X16.  A run of the static handler sends at most two API requests, a
    run of the rendered handler at most one. *)
Theorem requests_per_url :
  (forall ctx, List.length (fetched (snd (cheerioHandler H cfg ctx))) <= 2)
  /\ (forall ctx, List.length (fetched (snd (playwrightHandler H cfg ctx))) <= 1).
Proof.
  split.
  - intros ctx.
    destruct (cheerioHandler_steps H cfg ctx)
      as [ps [api1 [apiData [pd_name [visits [Hids [Hvis E]]]]]]].
    cbv zeta in E. destruct E as [_ [_ E]]. rewrite E. clear E.
    destruct (c_enqueueLinks ctx) as [[]|e];
      [destruct (dataset_pushData H _) as [[]|e]|];
      observe_run; bound_lookups.
  - intros ctx.
    destruct (playwrightHandler_steps H cfg ctx)
      as [ps [apiData [name [playing [Hids [Hdig E]]]]]].
    cbv zeta in E. destruct E as [_ E]. rewrite E. clear E.
    destruct (p_enqueueLinks ctx) as [[]|e];
      [destruct (dataset_pushData H _) as [[]|e]|];
      observe_run; bound_lookups.
Qed.


(** X17.  A record the rendered handler writes without API data (its
    [raw_api] is null) has null [experience_id], [visits], [favorites],
    [maxPlayers] and [price], empty [creator] and [genre], and a [playing]
    that is null or a non-empty string of digits; the page's own [playing]
    is null or a string of digits. *)
Theorem rendered_record_without_api (ctx : PlaywrightCtx) :
  Forall (fun r =>
            field r "raw_api" = JNull ->
            field r "experience_id" = JNull
            /\ field r "visits" = JNull
            /\ field r "favorites" = JNull
            /\ field r "maxPlayers" = JNull
            /\ field r "price" = JNull
            /\ field r "creator" = JStr ""
            /\ field r "genre" = JStr ""
            /\ (field r "playing" = JNull
                \/ exists d, field r "playing" = JStr d /\ test_digits d = true)
            /\ null_or_digits (field (field r "raw_page") "playing"))
         (pushed (snd (playwrightHandler H cfg ctx))).
Proof.
  destruct (playwrightHandler_steps H cfg ctx)
    as [ps [apiData [name [playing [Hids [Hdig E]]]]]].
  cbv zeta in E. destruct E as [_ E]. rewrite E. clear E.
  assert (Hrec : forall a u p,
    let r := canonical_record (Date_toISOString H) a
               (JObj [("name", name); ("playing", playing)]) u p in
    field r "raw_api" = JNull -> truthy a = false).
  { intros a u p r Hraw. subst r.
    change (first_nonempty [a] JNull = JNull) in Hraw. cbn [first_nonempty] in Hraw.
    destruct (truthy a) eqn:Ha; [|reflexivity]. subst a. discriminate Ha. }
  destruct (p_enqueueLinks ctx) as [[]|e];
    [destruct (dataset_pushData H _) as [[]|e]|];
    observe_run;
    first [ apply Forall_nil
          | apply Forall_cons; [|apply Forall_nil];
            intros Hraw; apply record_without_api;
            [exact (Hrec _ _ _ Hraw)|exact Hdig] ].
Qed.


(** X24.  Where the static handler's DOM heuristic shows.  On a record
    written without API data (its [raw_api] is null), when the embedded
    JSON has no [visits] property of its own, [raw_page.visits] and the
    record's [visits] come from the texts of the elements the statistics
    selector matches: both are null when no text shows a digit, and
    otherwise both are the digits, in order, of the first text in document
    order that shows one. *)
Theorem static_dom_visits (ctx : CheerioCtx) :
  let pageJson := first_parsed H (flat_map candidates (scripts (c_page ctx))) in
  let texts := stat_texts (c_page ctx) in
  Forall (fun r =>
            field r "raw_api" = JNull ->
            lookup "visits" (own_props pageJson) = None ->
            (Forall (fun t => has_digit t = false) texts ->
             field (field r "raw_page") "visits" = JNull
             /\ field r "visits" = JNull)
            /\ (forall before t after,
                  texts = (before ++ t :: after)%list ->
                  Forall (fun t' => has_digit t' = false) before ->
                  has_digit t = true ->
                  field (field r "raw_page") "visits" = JStr (digits_only t)
                  /\ field r "visits" = JStr (digits_only t)
                  /\ test_digits (digits_only t) = true))
         (pushed (snd (cheerioHandler H cfg ctx))).
Proof.
  intros pageJson texts.
  destruct (cheerioHandler_steps H cfg ctx)
    as [ps [api1 [apiData [pd_name [visits [Hids [Hvis E]]]]]]].
  cbv zeta in E. fold pageJson in E. destruct E as [_ [_ E]]. rewrite E. clear E.
  fold texts in Hvis.
  assert (Hrec : forall u p,
    let r := canonical_record (Date_toISOString H) (dflt apiData JNull)
               (JObj (assign [("name", pd_name);
                              ("visits", if truthy apiData
                                         then field apiData "visits" else visits)]
                             (own_props pageJson))) u p in
    field r "raw_api" = JNull ->
    lookup "visits" (own_props pageJson) = None ->
    field (field r "raw_page") "visits" = visits
    /\ field r "visits" = first_nonempty [visits] JNull).
  { intros u p r Hraw Habs. subst r.
    change (first_nonempty [dflt apiData JNull] JNull = JNull) in Hraw.
    cbn [first_nonempty] in Hraw.
    assert (Ha : truthy (dflt apiData JNull) = false).
    { destruct (truthy (dflt apiData JNull)) eqn:Ha; [|reflexivity].
      rewrite Hraw in Ha. discriminate Ha. }
    assert (Ha' : truthy apiData = false)
      by (destruct apiData; simpl in *; congruence).
    match goal with
    | |- context [field (canonical_record ?n ?a ?pd ?u' ?i) "raw_page"] =>
        change (field (canonical_record n a pd u' i) "raw_page")
          with (first_nonempty [pd] JNull);
        change (field (canonical_record n a pd u' i) "visits")
          with (first_nonempty [field a "visits"; field pd "visits"] JNull)
    end.
    rewrite (field_falsy _ "visits" Ha) by discriminate.
    cbn [first_nonempty truthy].
    rewrite field_object, (lookup_assign_absent _ _ _ Habs), Ha'.
    cbn [lookup String.eqb Ascii.eqb Bool.eqb].
    split; reflexivity. }
  assert (Hdom : forall v rv,
    v = visits /\ rv = first_nonempty [visits] JNull ->
    (Forall (fun t => has_digit t = false) texts -> v = JNull /\ rv = JNull)
    /\ (forall before t after,
          texts = (before ++ t :: after)%list ->
          Forall (fun t' => has_digit t' = false) before ->
          has_digit t = true ->
          v = JStr (digits_only t) /\ rv = JStr (digits_only t)
          /\ test_digits (digits_only t) = true)).
  { intros v rv [-> ->]. split.
    - intros Hnone. rewrite Hvis, (static_visits_none _ Hnone). split; reflexivity.
    - intros before t after Ht Hb Hd. rewrite Ht in Hvis.
      destruct (static_visits_first before after t Hb Hd) as [Hv Hdig].
      rewrite Hv in Hvis. rewrite Hvis. split; [reflexivity|]. split; [|exact Hdig].
      cbn [first_nonempty truthy].
      unfold test_digits, nonempty in Hdig. apply andb_true_iff in Hdig.
      now rewrite (proj1 Hdig). }
  destruct (c_enqueueLinks ctx) as [[]|e];
    [destruct (dataset_pushData H _) as [[]|e]|];
    observe_run;
    first [ apply Forall_nil
          | apply Forall_cons; [|apply Forall_nil];
            intros Hraw Habs; apply Hdom; apply Hrec; assumption ].
Qed.

End RunProperties.

(** ** The run properties on the example pages *)

Lemma one_record_per_url_witness :
  exists r,
    pushed (snd (cheerioHandler example_host2 example_cfg example_static_ctx)) = [r]
    /\ field r "url" = JStr game_url
    /\ field r "extracted_at" = JStr "2024-05-01T12:00:00.000Z".
Proof.
  exact (proj1 (proj1 (one_record_per_url example_host2 example_cfg) example_static_ctx)
           eq_refl).
Defined.

Lemma api_off_means_no_request_witness :
  useApi off_cfg = false
  /\ fetched (snd (cheerioHandler example_host2 off_cfg example_static_ctx)) = []
  /\ fetched (snd (playwrightHandler example_host2 off_cfg example_rendered_ctx)) = [].
Proof.
  split; [reflexivity|].
  destruct (api_off_means_no_request example_host2 off_cfg eq_refl) as [Hc Hp].
  split; [exact (proj1 (Hc example_static_ctx)) | exact (proj1 (Hp example_rendered_ctx))].
Defined.

Lemma resolved_id_keys_the_run_witness :
  extractIdsFromUrl example_host2 game_url = Ok (ids_of "1818")
  /\ Forall (fun r => field r "place_id" = JStr "1818")
            (pushed (snd (cheerioHandler example_host2 example_cfg example_static_ctx)))
  /\ stored_keys (snd (cheerioHandler example_host2 example_cfg example_static_ctx))
     = ["experiences/1818"].
Proof.
  split; [reflexivity|].
  destruct (proj1 (resolved_id_keys_the_run example_host2 example_cfg "1818")
              example_static_ctx eq_refl) as [Hr [_ Hk]].
  split; [exact Hr | exact (Hk eq_refl)].
Defined.

Lemma rendered_without_place_id_witness :
  extractIdsFromUrl example_host2 plain_url = Ok (JObj [])
  /\ fetched (snd (playwrightHandler example_host2 example_cfg example_plain_rendered_ctx))
     = []
  /\ calls (snd (playwrightHandler example_host2 example_cfg example_plain_rendered_ctx))
     = [F_extractIdsFromUrl; F_normalizeRecord].
Proof.
  split; [reflexivity|].
  destruct (rendered_without_place_id example_host2 example_cfg
              example_plain_rendered_ctx eq_refl) as [Hf [Hc _]].
  split; [exact Hf | exact Hc].
Defined.

Lemma static_dom_visits_witness :
  exists r,
    pushed (snd (cheerioHandler example_host2 off_cfg example_dom_ctx)) = [r]
    /\ field r "raw_api" = JNull
    /\ field (field r "raw_page") "visits" = JStr "1234"
    /\ field r "visits" = JStr "1234".
Proof.
  eexists. split; [reflexivity|]. split; [reflexivity|].
  pose proof (Forall_inv (static_dom_visits example_host2 off_cfg example_dom_ctx))
    as Hr.
  cbv beta in Hr.
  destruct (proj2 (Hr eq_refl eq_refl) ["Visits"] " 1,234 visits " ["56"] eq_refl
              (Forall_cons "Visits" (eq_refl : has_digit "Visits" = false)
                 (Forall_nil _))
              eq_refl) as [Hraw [Hrec _]].
  split; [exact Hraw | exact Hrec].
Defined.

Lemma static_lookups_are_gated_witness :
  extractIdsFromUrl example_host2 plain_url = Ok (JObj [])
  /\ non_empty (field (first_parsed example_host2 (flat_map candidates example_scripts))
                      "universeId")
  /\ calls (snd (cheerioHandler example_host2 example_cfg example_plain_ctx))
     = [F_extractIdsFromUrl; F_parseEmbeddedJson;
        F_fetchRobloxGameApiByUniverseId; F_normalizeRecord].
Proof.
  split; [reflexivity|]. split; [reflexivity|].
  exact (proj2 (proj2 (static_lookups_are_gated example_host2 example_cfg
                         example_plain_ctx))
           eq_refl eq_refl eq_refl eq_refl eq_refl).
Defined.

(** ** The link filter *)

Section LinkFilter.
Variable H : Host.
Variable cfg : Config.

(** X18.  The filter both handlers give to [enqueueLinks] returns the link
    unchanged or drops it.  With [followInternalOnly] off every link is
    kept.  With it on, a link is kept exactly when its URL parses and its
    host is the start host: the request's [userData.startHost] when that is
    a non-empty string (the request's own URL is then not parsed), else
    the host of the request's URL, which must parse. *)
Theorem links_kept (request r : Request) :
  (transformRequestFunction H cfg request r = Some r
   \/ transformRequestFunction H cfg request r = None)
  /\ (followInternalOnly cfg = false ->
      transformRequestFunction H cfg request r = Some r)
  /\ (followInternalOnly cfg = true ->
      (transformRequestFunction H cfg request r = Some r <->
       exists ru,
         URL_new H (req_url r) = Ok ru
         /\ ((exists s, req_startHost request = Some s /\ s <> "" /\ host ru = s)
             \/ ((req_startHost request = None \/ req_startHost request = Some "")
                 /\ exists u, URL_new H (req_url request) = Ok u
                              /\ host ru = host u)))).
Proof.
  unfold transformRequestFunction.
  destruct (followInternalOnly cfg).
  2:{ split; [left; reflexivity|]. split; [reflexivity|]. intros E; discriminate E. }
  assert (Hstart :
    rbind (Ok (opt_str (req_startHost request)))
          (fun x => if truthy x then Ok x
                    else rbind (URL_new H (req_url request))
                               (fun u => Ok (JStr (host u))))
    = match req_startHost request with
      | Some s => if negb (s =? "") then Ok (JStr s)
                  else rbind (URL_new H (req_url request)) (fun u => Ok (JStr (host u)))
      | None => rbind (URL_new H (req_url request)) (fun u => Ok (JStr (host u)))
      end).
  { destruct (req_startHost request) as [s|]; reflexivity. }
  unfold js_or. rewrite Hstart. clear Hstart.
  destruct (req_startHost request) as [s|].
  - destruct (String.eqb_spec s "") as [->|Hs]; cbn [negb].
    + destruct (URL_new H (req_url request)) as [u|e]; cbn [rbind try_catch to_string].
      * destruct (URL_new H (req_url r)) as [ru|e]; cbn [rbind try_catch].
        -- destruct (String.eqb_spec (host ru) (host u)) as [E|E].
           ++ split; [left; reflexivity|]. split; [intros D; discriminate D|].
              intros _. split; [intros _|reflexivity].
              exists ru. split; [reflexivity|]. right.
              split; [right; reflexivity|]. exists u. split; [reflexivity|exact E].
           ++ split; [right; reflexivity|]. split; [intros D; discriminate D|].
              intros _. split; [intros D; discriminate D|].
              intros [ru' [Eru [[s [Es [Hne _]]]|[_ [u' [Eu Eh]]]]]].
              ** inversion Es; subst s. congruence.
              ** inversion Eru; subst ru'. inversion Eu; subst u'. congruence.
        -- split; [right; reflexivity|]. split; [intros D; discriminate D|].
           intros _. split; [intros D; discriminate D|].
           intros [ru' [Eru _]]. discriminate Eru.
      * split; [right; reflexivity|]. split; [intros D; discriminate D|].
        intros _. split; [intros D; discriminate D|].
        intros [ru' [Eru [[s [Es [Hne _]]]|[_ [u' [Eu Eh]]]]]].
        -- inversion Es; subst s. congruence.
        -- discriminate Eu.
    + cbn [rbind try_catch to_string].
      destruct (URL_new H (req_url r)) as [ru|e]; cbn [rbind try_catch].
      * destruct (String.eqb_spec (host ru) s) as [E|E].
        -- split; [left; reflexivity|]. split; [intros D; discriminate D|].
           intros _. split; [intros _|reflexivity].
           exists ru. split; [reflexivity|]. left. exists s. repeat split; assumption.
        -- split; [right; reflexivity|]. split; [intros D; discriminate D|].
           intros _. split; [intros D; discriminate D|].
           intros [ru' [Eru [[s' [Es [Hne Eh]]]|[[Es|Es] _]]]].
           ++ inversion Eru; subst ru'. inversion Es; subst s'. congruence.
           ++ discriminate Es.
           ++ inversion Es; subst s. congruence.
      * split; [right; reflexivity|]. split; [intros D; discriminate D|].
        intros _. split; [intros D; discriminate D|].
        intros [ru' [Eru _]]. discriminate Eru.
  - destruct (URL_new H (req_url request)) as [u|e]; cbn [rbind try_catch to_string].
    + destruct (URL_new H (req_url r)) as [ru|e]; cbn [rbind try_catch].
      * destruct (String.eqb_spec (host ru) (host u)) as [E|E].
        -- split; [left; reflexivity|]. split; [intros D; discriminate D|].
           intros _. split; [intros _|reflexivity].
           exists ru. split; [reflexivity|]. right.
           split; [left; reflexivity|]. exists u. split; [reflexivity|exact E].
        -- split; [right; reflexivity|]. split; [intros D; discriminate D|].
           intros _. split; [intros D; discriminate D|].
           intros [ru' [Eru [[s [Es _]]|[_ [u' [Eu Eh]]]]]].
           ++ discriminate Es.
           ++ inversion Eru; subst ru'. inversion Eu; subst u'. congruence.
      * split; [right; reflexivity|]. split; [intros D; discriminate D|].
        intros _. split; [intros D; discriminate D|].
        intros [ru' [Eru _]]. discriminate Eru.
    + split; [right; reflexivity|]. split; [intros D; discriminate D|].
      intros _. split; [intros D; discriminate D|].
      intros [ru' [Eru [[s [Es _]]|[_ [u' [Eu Eh]]]]]].
      * discriminate Es.
      * discriminate Eu.
Qed.

End LinkFilter.

(** ** Start requests *)

Lemma experience_id_of_eq (e : JsVal) :
  e <> JNull -> experience_id_of e = Ok (entry_id e).
Proof.
  intros Hn. unfold experience_id_of, entry_id.
  destruct (typeof_object e) eqn:Ht; [|reflexivity].
  assert (Htr : truthy e = true) by (destruct e; simpl in *; try reflexivity; try discriminate Ht; congruence).
  rewrite !(get_prop_field _ _ Htr). apply or_chain2.
Qed.

Lemma experience_id_of_null :
  experience_id_of JNull = Throw (TypeError "Cannot read properties of null").
Proof. reflexivity. Qed.

Lemma push_experience_ids_eq (es acc : list JsVal) :
  ~ In JNull es ->
  push_experience_ids es acc = Ok (acc ++ flat_map id_request es)%list.
Proof.
  revert acc. induction es as [|e es IH]; intros acc Hn.
  - simpl. now rewrite app_nil_r.
  - cbn [push_experience_ids flat_map].
    rewrite experience_id_of_eq by (intros ->; apply Hn; now left).
    cbn [rbind]. rewrite IH by (intros Hin; apply Hn; now right).
    unfold id_request. destruct (truthy (entry_id e)).
    + now rewrite <- app_assoc.
    + reflexivity.
Qed.

Lemma push_experience_ids_null (es acc : list JsVal) :
  In JNull es ->
  push_experience_ids es acc = Throw (TypeError "Cannot read properties of null").
Proof.
  revert acc. induction es as [|e es IH]; intros acc Hin; [destruct Hin|].
  cbn [push_experience_ids].
  destruct e; try (rewrite experience_id_of_eq by discriminate; cbn [rbind];
                   apply IH; destruct Hin as [D|Hin]; [discriminate D|exact Hin]).
  reflexivity.
Qed.

Section StartRequestProperties.
Variable H : Host.

Lemma push_start_urls_eq (us acc : list JsVal) :
  push_start_urls H us acc = Ok (acc ++ flat_map (url_request H) us)%list.
Proof.
  revert acc. induction us as [|u us IH]; intros acc.
  - simpl. now rewrite app_nil_r.
  - cbn [push_start_urls flat_map]. unfold url_request at 1.
    destruct (URL_new H (to_string u)) as [p|e]; cbn [rbind try_catch].
    + rewrite IH. now rewrite <- app_assoc.
    + rewrite IH. reflexivity.
Qed.

Lemma startRequests_arrays (us es : list JsVal) :
  startRequests H (JArr us) (JArr es)
  = push_experience_ids es (flat_map (url_request H) us).
Proof.
  unfold startRequests, js_or. cbn [rbind truthy iterate].
  rewrite push_start_urls_eq. reflexivity.
Qed.

(** X19.  The start requests, when no entry of [experienceIds] is [null]:
    first one request per entry of [startUrls] that parses as a URL, in
    input order and with its host as [startHost], the others skipped; then
    one request per entry of [experienceIds] with a non-empty id, in input
    order and with empty [userData], whose URL ends with the id written as
    the template literal writes it (a number as Number::toString does, so
    [1e+21] for 10^21). *)
Theorem start_requests_closed_form (us es : list JsVal) :
  ~ In JNull es ->
  startRequests H (JArr us) (JArr es)
  = Ok (flat_map (url_request H) us ++ flat_map id_request es)%list.
Proof.
  intros Hn. rewrite startRequests_arrays. now apply push_experience_ids_eq.
Qed.

(** X20.  A [null] entry in [experienceIds] makes the construction of the
    start requests throw a TypeError, whatever else the two arrays hold. *)
Theorem null_experience_id_throws (us es : list JsVal) :
  In JNull es ->
  startRequests H (JArr us) (JArr es)
  = Throw (TypeError "Cannot read properties of null").
Proof.
  intros Hin. rewrite startRequests_arrays. now apply push_experience_ids_null.
Qed.

(** X21.  Empty and non-iterable inputs.  An empty [startUrls] or
    [experienceIds] (null, undefined, false, 0 or '') counts as an empty
    array; a number other than 0, [true] or an object in place of either
    array makes the construction throw a TypeError. *)
Theorem start_requests_other_inputs (v : JsVal) (l : list JsVal) :
  (truthy v = false ->
   startRequests H v (JArr l) = startRequests H (JArr []) (JArr l)
   /\ startRequests H (JArr l) v = startRequests H (JArr l) (JArr []))
  /\ (truthy v = true -> (forall items, v <> JArr items) -> (forall s, v <> JStr s) ->
      startRequests H v (JArr l) = Throw (TypeError "is not iterable")
      /\ startRequests H (JArr l) v = Throw (TypeError "is not iterable")).
Proof.
  split.
  - intros Hf. unfold startRequests, js_or. cbn [rbind]. rewrite Hf.
    cbn [truthy]. split; reflexivity.
  - intros Ht Ha Hs.
    assert (Hit : iterate v = Throw (TypeError "is not iterable")).
    { destruct v; try reflexivity; try discriminate Ht.
      - exfalso. exact (Hs _ eq_refl).
      - exfalso. exact (Ha _ eq_refl). }
    unfold startRequests, js_or. cbn [rbind]. rewrite Ht. cbn [rbind truthy].
    rewrite Hit. split; [reflexivity|].
    cbn [iterate rbind]. rewrite push_start_urls_eq. reflexivity.
Qed.

(** X22.  An id given in the input comes back from the resolver.  For an
    entry whose id is a non-empty string of digits, the start request's URL
    is [https://www.roblox.com/games/<id>], and when the URL parser gives
    that URL the path [/games/<id>] the Identifier Resolver returns the id
    as [placeId]. *)
Theorem experience_id_round_trip (e : JsVal) (ds : string) (u : URL) :
  e <> JNull -> entry_id e = JStr ds -> test_digits ds = true ->
  URL_new H (games_prefix ++ ds) = Ok u -> pathname u = "/games/" ++ ds ->
  startRequests H (JArr []) (JArr [e])
  = Ok [start_request (JStr (games_prefix ++ ds)) []]
  /\ extractIdsFromUrl H (games_prefix ++ ds) = Ok (ids_of ds).
Proof.
  intros Hn Hid Hds Hu Hp. split.
  - rewrite startRequests_arrays. cbn [flat_map].
    rewrite push_experience_ids_eq by (intros [E|[]]; congruence).
    cbn [flat_map app]. unfold id_request. rewrite Hid. cbn [truthy to_string].
    unfold test_digits, nonempty in Hds. apply andb_true_iff in Hds.
    destruct Hds as [Hne _]. rewrite Hne. reflexivity.
  - rewrite (extractIdsFromUrl_parsed H _ u Hu), Hp.
    assert (Hm : match_lit_digits "/games/" ("" ++ "/games/" ++ ds ++ "") = Some ds).
    { apply match_lit_digits_first; [|exact Hds|reflexivity].
      intros [pre [d [rest [_ E]]]].
      apply (f_equal String.length) in E.
      rewrite !length_append in E. cbn [String.length] in E. lia. }
    rewrite append_empty_r in Hm. cbn [append] in Hm.
    cbn [append]. rewrite Hm. reflexivity.
Qed.

(** X23.  Defaults of the input.  A switch missing from the input is on,
    and one that is present counts by its truth, so that null, false, 0
    and '' switch it off.  With neither [startUrls] nor [experienceIds] in
    the input the start requests are those of the one default URL; a
    [startUrls] given as null is not replaced by the default and gives no
    start request. *)
Theorem input_defaults (got : JsVal) :
  let i := read_input got in
  let switch k := match field got k with JUndef => true | v => truthy v end in
  useApi (config_of_input i) = switch "useApi"
  /\ followInternalOnly (config_of_input i) = switch "followInternalOnly"
  /\ checkPlaceDetails (config_of_input i) = switch "checkPlaceDetails"
  /\ (field got "experienceIds" = JUndef ->
      (field got "startUrls" = JUndef ->
       startRequests H (in_startUrls i) (in_experienceIds i)
       = Ok (url_request H (JStr "https://www.roblox.com/games/1818/Adventure-Forward")))
      /\ (field got "startUrls" = JNull ->
          startRequests H (in_startUrls i) (in_experienceIds i) = Ok [])).
Proof.
  cbv zeta.
  assert (Hf : forall k, field (nullish_or got (JObj [])) k = field got k)
    by (intros k; destruct got; reflexivity).
  unfold config_of_input, read_input.
  cbn [useApi followInternalOnly checkPlaceDetails in_useApi in_followInternalOnly
       in_checkPlaceDetails in_startUrls in_experienceIds].
  rewrite !Hf.
  split; [destruct (field got "useApi"); reflexivity|].
  split; [destruct (field got "followInternalOnly"); reflexivity|].
  split; [destruct (field got "checkPlaceDetails"); reflexivity|].
  intros He. rewrite He. cbn [dflt]. split; intros Hs; rewrite Hs; cbn [dflt].
  - unfold default_startUrls. rewrite startRequests_arrays.
    cbn [push_experience_ids flat_map]. now rewrite app_nil_r.
  - reflexivity.
Qed.

End StartRequestProperties.

Lemma start_requests_closed_form_witness :
  startRequests example_host2
    (JArr [JStr game_url; JStr "not a url"; JStr foreign_url])
    (JArr [JStr "1818"; JNum 0; JObj [("placeId", JNum 7)];
           JNum 1000000000000000000000; JNum 1152921504606846976])
  = Ok [ start_request (JStr game_url) [("startHost", JStr "www.roblox.com")];
         start_request (JStr foreign_url) [("startHost", JStr "example.org")];
         start_request (JStr "https://www.roblox.com/games/1818") [];
         start_request (JStr "https://www.roblox.com/games/7") [];
         start_request (JStr "https://www.roblox.com/games/1e+21") [];
         start_request (JStr "https://www.roblox.com/games/1152921504606847000") [] ].
Proof.
  rewrite (start_requests_closed_form example_host2).
  - reflexivity.
  - intros [E|[E|[E|[E|[E|[]]]]]]; discriminate E.
Defined.

Lemma null_experience_id_throws_witness :
  startRequests example_host2 (JArr [JStr game_url]) (JArr [JStr "1818"; JNull])
  = Throw (TypeError "Cannot read properties of null").
Proof.
  apply (null_experience_id_throws example_host2). right. left. reflexivity.
Defined.

Lemma experience_id_round_trip_witness :
  startRequests example_host2 (JArr []) (JArr [JObj [("id", JStr "1818")]])
  = Ok [start_request (JStr id_url) []]
  /\ extractIdsFromUrl example_host2 id_url = Ok (ids_of "1818").
Proof.
  apply (experience_id_round_trip example_host2 (JObj [("id", JStr "1818")]) "1818"
           {| pathname := "/games/1818"; searchParams := []; host := "www.roblox.com" |});
    solve [discriminate | reflexivity].
Defined.
